(** * Image fidelity metrics of jpegli: lib/extras/metrics.cc

    A shallow embedding of [ComputeDistanceP], [ComputeSumOfSquares],
    [ComputeButteraugli], the two [ButteraugliDistance] overloads,
    [Butteraugli3Norm] and [ComputePSNR], followed by the properties
    the specification states about them.

    Layout of the development:
    - [Arith]: the arithmetic the C++ code performs on [double] and
      [float], as an interface; [R_arith] instantiates it with exact
      real arithmetic (no rounding, no infinities, no NaN);
    - [StatusOr], [World], [M]: the status values of lib/base/status.h
      and the effects the code has (stderr, the process-wide [once]
      counter, calls into the rest of the library);
    - [Lib]: the functions of the library that metrics.cc calls and
      whose code lives elsewhere;
    - the functions of metrics.cc, in source order;
    - the quantities of the specification, and [TestLib], a small
      implementation of [Lib] to run the functions on;
    - the properties.  Those about failures, sentinels, the order of
      effects and the formulas the two loops evaluate hold for every
      [Arith]; those about the value of a score on particular maps are
      stated over [R_arith], on inputs for which the [double]s of the
      code differ from exact arithmetic by rounding only.

    The file also embeds tools/file_io.h ([FileWrapper], [ReadFile],
    [WriteFile]) in the module [FileIO], over a description of the
    streams of the C library, and closes with further properties of
    both files. *)

From Stdlib Require Import Reals Lra Lia List Ascii String ZArith NArith QArith Qreals
  Bool.
Import ListNotations.

Set Implicit Arguments.

(** ** Arithmetic interface *)

(** The operations metrics.cc applies to floating-point values.  A
    single carrier [F] stands for both [double] and [float]: a [float]
    is a [double] that is a fixed point of [rnd32], and arithmetic on
    two [float] operands is the [double] operation followed by
    [rnd32]. *)
Class Arith (F : Type) : Type := {
  of_Z : Z -> F;               (* integer to double conversion *)
  dec : Q -> F;                (* a decimal literal such as [0.299] *)
  fadd : F -> F -> F;
  fsub : F -> F -> F;
  fmul : F -> F -> F;
  fdiv : F -> F -> F;
  fabs : F -> F;               (* std::abs *)
  fsqrt : F -> F;              (* std::sqrt *)
  flog10 : F -> F;             (* std::log10 *)
  fpow : F -> F -> F;          (* std::pow *)
  fltb : F -> F -> bool;       (* operator< *)
  feqb : F -> F -> bool;       (* operator== *)
  rnd32 : F -> F               (* conversion to float *)
}.

(** Arrays of three numbers ([double sum1[3]], [float cdiff[3]], a
    row of [yuvmatrix]). *)
Definition arr3 (F : Type) : Type := (F * F * F)%type.

Section Numbers.
Context {F : Type} {AF : Arith F}.

Definition f0 : F := of_Z 0.
Definition f1 : F := of_Z 1.
Definition f3 : F := of_Z 3.

(** [std::numeric_limits<double>::max()] and
    [std::numeric_limits<float>::max()]. *)
Definition DBL_MAX : F := of_Z (2 ^ 1024 - 2 ^ 971).
Definition FLT_MAX : F := of_Z (2 ^ 128 - 2 ^ 104).

(** Arithmetic on [float] operands. *)
Definition fsub32 (a b : F) : F := rnd32 (fsub a b).
Definition fmul32 (a b : F) : F := rnd32 (fmul a b).
Definition fadd32 (a b : F) : F := rnd32 (fadd a b).

Definition get3 (a : arr3 F) (i : nat) : F :=
  let '(a0, a1, a2) := a in
  match i with O => a0 | S O => a1 | _ => a2 end.

Definition set3 (a : arr3 F) (i : nat) (v : F) : arr3 F :=
  let '(a0, a1, a2) := a in
  match i with O => (v, a1, a2) | S O => (a0, v, a2) | _ => (a0, a1, v) end.

Definition zero3 : arr3 F := (f0, f0, f0).
End Numbers.

(** ** Exact real arithmetic *)

Definition Rltb (a b : R) : bool := if Rlt_dec a b then true else false.
Definition Reqb (a b : R) : bool := if Req_dec_T a b then true else false.

(** [std::pow] on real arguments: [pow(x, 0) = 1] for every [x],
    [exp(y * ln x)] for a positive base, [pow(0, y) = 0] for [y > 0],
    and the integer power for a negative base and an integer exponent.
    Where C reports an infinity ([pow(0, y)] with [y < 0]) or a NaN
    (negative base, exponent not an integer) there is no real number to
    return; the model returns [0] there, and the lemmas below that
    evaluate [cpow] stay away from those arguments. *)
Definition cpow (x y : R) : R :=
  if Req_dec_T y 0 then 1%R
  else if Rlt_dec 0 x then Rpower x y
  else if Req_dec_T x 0 then 0%R
  else if Req_dec_T (IZR (Int_part y)) y then powerRZ x (Int_part y)
  else 0%R.

Definition clog10 (x : R) : R := (ln x / ln 10)%R.

#[global] Instance R_arith : Arith R := {
  of_Z := IZR;
  dec := Q2R;
  fadd := Rplus;
  fsub := Rminus;
  fmul := Rmult;
  fdiv := Rdiv;
  fabs := Rabs;
  fsqrt := sqrt;
  flog10 := clog10;
  fpow := cpow;
  fltb := Rltb;
  feqb := Reqb;
  rnd32 := fun x => x
}.

(** ** Status values and effects *)

(** [Status] and [StatusOr<T>] of lib/base/status.h.  A failure keeps
    the text of the [JXL_FAILURE] or of the failed [JXL_ENSURE]
    condition that produced it. *)
Inductive StatusOr (A : Type) : Type :=
| Ok (a : A)
| Failure (msg : string).
Arguments Ok {A} a.
Arguments Failure {A} msg.

Definition Status : Type := StatusOr unit.

Definition is_ok {A} (s : StatusOr A) : bool :=
  match s with Ok _ => true | Failure _ => false end.

(** Calls that leave metrics.cc. *)
Inductive Call : Type :=
| Call_Image3F_Create
| Call_ImageF_Create
| Call_ConvertPackedPixelFileToImage3F
| Call_GetColorEncoding
| Call_GetIntensityTarget
| Call_ApplyColorTransform
| Call_ButteraugliComparator_Make
| Call_Diffmap
| Call_ButteraugliScoreFromDiffmap
| Call_AlignedMemory_Create.

(** What a call can observe or change besides its arguments: the text
    written to stderr (oldest first), the [static std::atomic<int> once]
    of [ComputeDistanceP], and the calls made so far (oldest first). *)
Record World : Type := mkWorld {
  stderr : list string;
  once : Z;
  calls : list Call
}.

Definition M (A : Type) : Type := World -> StatusOr A * World.

Definition ret {A} (a : A) : M A := fun w => (Ok a, w).

Definition fail {A} (msg : string) : M A := fun w => (Failure msg, w).

Definition bind {A B} (m : M A) (k : A -> M B) : M B :=
  fun w =>
    match m w with
    | (Ok a, w') => k a w'
    | (Failure msg, w') => (Failure msg, w')
    end.

Notation "x <- m ;; k" := (bind m (fun x => k))
  (at level 61, m at next level, right associativity).
Notation "m ;;; k" := (bind m (fun _ => k))
  (at level 61, right associativity).

(** [fprintf(stderr, msg)]. *)
Definition eprint (msg : string) (w : World) : World :=
  mkWorld (stderr w ++ [msg]) (once w) (calls w).

Definition fprintf_stderr (msg : string) : M unit :=
  fun w => (Ok tt, eprint msg w).

(** The line feed of ["...\n"]. *)
Definition LF : string := String (Ascii.ascii_of_nat 10) EmptyString.

(** A call into the library: the call is recorded and its status is the
    callee's. *)
Definition record (c : Call) (w : World) : World :=
  mkWorld (stderr w) (once w) (calls w ++ [c]).

Definition call {A} (c : Call) (r : StatusOr A) : M A :=
  fun w => (r, record c w).

(** [JXL_RETURN_IF_ERROR(x)] and [JXL_ASSIGN_OR_RETURN(v, x)] hand the
    failure of [x] on: both are [bind].  [JXL_ENSURE(x)] returns a
    failure of its own that names the condition. *)
Definition JXL_ENSURE {A} (cond : string) (m : M A) : M A :=
  fun w =>
    match m w with
    | (Ok a, w') => (Ok a, w')
    | (Failure _, w') => (Failure cond, w')
    end.

(** Two's complement wrap-around of [int]. *)
Definition wrap_int (z : Z) : Z := ((z + 2 ^ 31) mod 2 ^ 32 - 2 ^ 31)%Z.

(** [once.fetch_add(1, std::memory_order_relaxed)]: returns the old
    value. *)
Definition once_fetch_add_1 : M Z :=
  fun w => (Ok (once w), mkWorld (stderr w) (wrap_int (once w + 1)) (calls w)).

(** [size_t] arithmetic. *)
Definition size_mul (a b : N) : N := ((a * b) mod 2 ^ 64)%N.

(** ** Data *)

(** [ImageF]: one plane of [float] samples.  [ConstRow y x] is
    [ConstRow(y)[x]]; [memory_manager] is [None] for a null pointer.  A
    default-constructed [ImageF] is [ImageF_default]. *)
Record ImageF (F MM : Type) : Type := mkImageF {
  xsize : N;
  ysize : N;
  ConstRow : nat -> nat -> F;
  memory_manager : option MM
}.

(** [Image3F]: three planes; [ConstPlaneRow c y x] is
    [ConstPlaneRow(c, y)[x]]. *)
Record Image3F (F MM : Type) : Type := mkImage3F {
  xsize3 : N;
  ysize3 : N;
  ConstPlaneRow : nat -> nat -> nat -> F;
  memory_manager3 : option MM
}.

(** [Rect(image)]: the rectangle that covers an image. *)
Record Rect : Type := mkRect { x0 : N; y0 : N; rect_xsize : N; rect_ysize : N }.

Definition Rect_of {F MM} (im : Image3F F MM) : Rect :=
  mkRect 0 0 (xsize3 im) (ysize3 im).

(** [JxlBasicInfo] and [extras::PackedPixelFile], reduced to what
    metrics.cc reads; [frames] is the pixel payload, which only the
    library's converters look into. *)
Record JxlBasicInfo : Type := mkInfo { num_color_channels : N }.

Record PackedPixelFile (Frames : Type) : Type := mkPPF {
  info : JxlBasicInfo;
  ppf_xsize : N;
  ppf_ysize : N;
  frames : Frames
}.

(** ** The rest of the library *)

(** Types and functions that metrics.cc uses and that are declared in
    other files of the library (lib/extras/image.h, packed_image.h,
    packed_image_convert.h, image_color_transform.h, butteraugli.h,
    lib/cms, Highway).  Pointers that may be null are options; an
    output parameter is returned. *)
Class Lib (F : Type) : Type := {
  JxlMemoryManager : Type;
  Frames : Type;
  ColorEncoding : Type;
  JxlCmsInterface : Type;
  ButteraugliParams : Type;
  ThreadPool : Type;
  ButteraugliComparator : Type;
  (* the Highway target the dispatcher selects; a vector has at least
     one lane *)
  Lanes : nat;
  Lanes_pos : (0 < Lanes)%nat;
  HWY_CAP_FLOAT64 : bool;
  AlignedMemory_Create : JxlMemoryManager -> N -> Status;
  Image3F_Create :
    option JxlMemoryManager -> N -> N -> StatusOr (Image3F F JxlMemoryManager);
  ImageF_Create :
    option JxlMemoryManager -> N -> N -> StatusOr (ImageF F JxlMemoryManager);
  ConvertPackedPixelFileToImage3F :
    PackedPixelFile Frames -> Image3F F JxlMemoryManager -> option ThreadPool ->
    StatusOr (Image3F F JxlMemoryManager);
  GetColorEncoding : PackedPixelFile Frames -> StatusOr ColorEncoding;
  GetIntensityTarget : PackedPixelFile Frames -> ColorEncoding -> F;
  SameColorEncoding : ColorEncoding -> ColorEncoding -> bool;
  ColorEncoding_SRGB : bool -> ColorEncoding;
  ColorEncoding_LinearSRGB : bool -> ColorEncoding;
  JxlGetDefaultCms : JxlCmsInterface;
  ApplyColorTransform :
    ColorEncoding -> F -> Image3F F JxlMemoryManager -> Rect -> ColorEncoding ->
    JxlCmsInterface -> option ThreadPool -> StatusOr (Image3F F JxlMemoryManager);
  ButteraugliParams_default : ButteraugliParams;
  ButteraugliComparator_Make :
    Image3F F JxlMemoryManager -> ButteraugliParams -> StatusOr ButteraugliComparator;
  Diffmap :
    ButteraugliComparator -> Image3F F JxlMemoryManager -> ImageF F JxlMemoryManager ->
    StatusOr (ImageF F JxlMemoryManager);
  ButteraugliScoreFromDiffmap : ImageF F JxlMemoryManager -> ButteraugliParams -> F
}.

(** ** lib/extras/metrics.cc *)

Section Metrics.
Context {F : Type} {AF : Arith F} {L : Lib F}.

Local Abbreviation ImageF := (ImageF F JxlMemoryManager).
Local Abbreviation Image3F := (Image3F F JxlMemoryManager).
Local Abbreviation PackedPixelFile := (PackedPixelFile Frames).

Definition ImageF_default : ImageF := mkImageF 0 0 (fun _ _ => f0) None.

(** *** Highway vectors of [Lanes] lanes of type [T] *)

(** [T] is [double] when [HWY_CAP_FLOAT64], else [float]. *)
Definition Tadd (a b : F) : F := if HWY_CAP_FLOAT64 then fadd a b else fadd32 a b.
Definition Tmul (a b : F) : F := if HWY_CAP_FLOAT64 then fmul a b else fmul32 a b.
Definition sizeof_T : N := if HWY_CAP_FLOAT64 then 8%N else 4%N.

Fixpoint zipWith (f : F -> F -> F) (a b : list F) : list F :=
  match a, b with
  | x :: a', y :: b' => f x y :: zipWith f a' b'
  | _, _ => []
  end.

Definition Zero : list F := repeat f0 Lanes.
Definition Add (a b : list F) : list F := zipWith Tadd a b.
Definition Mul (a b : list F) : list F := zipWith Tmul a b.
(** [Load(df, row + x)], promoted to [T] where [T] is [double]. *)
Definition Load (row : nat -> F) (x : nat) : list F :=
  map (fun i => row (x + i)%nat) (seq 0 Lanes).
(** Every lane of [SumOfLanes(d, v)] holds the sum of the lanes of
    [v]; the order of the additions is the target's. *)
Definition SumOfLanes (v : list F) : list F :=
  repeat (fold_left Tadd v f0) Lanes.
Definition GetLane (v : list F) : F := hd f0 v.

(** *** ComputeDistanceP *)

(** Body of the scalar loops: [sum1[0] += d2; d2 *= d2; sum1[1] += d2;
    d2 *= d2; sum1[2] += d2]. *)
Definition accumulate (sum1 : arr3 F) (d2 : F) : arr3 F :=
  let sum1 := set3 sum1 0 (fadd (get3 sum1 0) d2) in
  let d2 := fmul d2 d2 in
  let sum1 := set3 sum1 1 (fadd (get3 sum1 1) d2) in
  let d2 := fmul d2 d2 in
  let sum1 := set3 sum1 2 (fadd (get3 sum1 2) d2) in
  sum1.

(** State of the fast path between rows: [sum1] and the three
    [sum_totals]. *)
Definition fast_state : Type := (arr3 F * (list F * list F * list F))%type.

(** One iteration of [for (size_t y = 0; y < distmap.ysize(); ++y)] on
    the fast path. *)
Definition fast_row (distmap : ImageF) (st : fast_state) (y : nat) : fast_state :=
  let '(sum1, (sum_totals0, sum_totals1, sum_totals2)) := st in
  let row := ConstRow distmap y in
  let xs := N.to_nat (xsize distmap) in
  (* for (; x + Lanes(d) <= distmap.xsize(); x += Lanes(d)) *)
  let full := (xs / Lanes)%nat in
  let '(sums0, sums1, sums2) :=
    fold_left
      (fun (s : list F * list F * list F) (k : nat) =>
         let '(sums0, sums1, sums2) := s in
         let x := (k * Lanes)%nat in
         let d1 := Load row x in
         let d2 := Mul d1 (Mul d1 d1) in
         let sums0 := Add sums0 d2 in
         let d3 := Mul d2 d2 in
         let sums1 := Add sums1 d3 in
         let d4 := Mul d3 d3 in
         let sums2 := Add sums2 d4 in
         (sums0, sums1, sums2))
      (seq 0 full) (Zero, Zero, Zero) in
  let sum_totals0 := Add sums0 sum_totals0 in
  let sum_totals1 := Add sums1 sum_totals1 in
  let sum_totals2 := Add sums2 sum_totals2 in
  (* for (; x < distmap.xsize(); ++x) *)
  let sum1 :=
    fold_left
      (fun (sum1 : arr3 F) (x : nat) =>
         let d1 := row x in
         let d2 := fmul (fmul d1 d1) d1 in
         accumulate sum1 d2)
      (seq (full * Lanes) (xs - full * Lanes)) sum1 in
  (sum1, (sum_totals0, sum_totals1, sum_totals2)).

Definition fast_path (distmap : ImageF) (onePerPixels p : F) : F :=
  let '(sum1, (sum_totals0, sum_totals1, sum_totals2)) :=
    fold_left (fast_row distmap) (seq 0 (N.to_nat (ysize distmap)))
              (zero3, (Zero, Zero, Zero)) in
  let v := f0 in
  let v := fadd v (fpow (fmul onePerPixels
                           (fadd (get3 sum1 0) (GetLane (SumOfLanes sum_totals0))))
                        (fdiv f1 (fmul p (of_Z 1)))) in
  let v := fadd v (fpow (fmul onePerPixels
                           (fadd (get3 sum1 1) (GetLane (SumOfLanes sum_totals1))))
                        (fdiv f1 (fmul p (of_Z 2)))) in
  let v := fadd v (fpow (fmul onePerPixels
                           (fadd (get3 sum1 2) (GetLane (SumOfLanes sum_totals2))))
                        (fdiv f1 (fmul p (of_Z 4)))) in
  fdiv v f3.

Definition slow_sums (distmap : ImageF) (p : F) : arr3 F :=
  fold_left
    (fun (sum1 : arr3 F) (y : nat) =>
       let row := ConstRow distmap y in
       fold_left
         (fun (sum1 : arr3 F) (x : nat) =>
            let d2 := fpow (row x) p in
            accumulate sum1 d2)
         (seq 0 (N.to_nat (xsize distmap))) sum1)
    (seq 0 (N.to_nat (ysize distmap))) zero3.

Definition slow_path (distmap : ImageF) (onePerPixels p : F) : F :=
  let sum1 := slow_sums distmap p in
  let v := f0 in
  let v :=
    fold_left
      (fun (v : F) (i : nat) =>
         fadd v (fpow (fmul onePerPixels (get3 sum1 i))
                      (fdiv f1 (fmul p (of_Z (Z.shiftl 1 (Z.of_nat i)))))))
      [0; 1; 2]%nat v in
  fdiv v f3.

Definition ComputeDistanceP (distmap : ImageF) (params : ButteraugliParams)
           (p : F) : M F :=
  if (xsize distmap =? 0)%N || (ysize distmap =? 0)%N then ret f0
  else
    match memory_manager distmap with
    | None => fail "memory_manager != nullptr"
    | Some mm =>
        let onePerPixels :=
          fdiv f1 (of_Z (Z.of_N (size_mul (ysize distmap) (xsize distmap)))) in
        if fltb (fabs (fsub p f3)) (dec (1 # 1000000)) then
          call Call_AlignedMemory_Create
               (AlignedMemory_Create mm (3 * N.of_nat Lanes * sizeof_T)) ;;;
          ret (fast_path distmap onePerPixels p)
        else
          old <- once_fetch_add_1 ;;
          (if (old =? 0)%Z
           then fprintf_stderr "WARNING: using slow ComputeDistanceP"
           else ret tt) ;;;
          ret (slow_path distmap onePerPixels p)
    end.

(** *** ComputeSumOfSquares *)

(** [float yuvmatrix[3][3]]; every literal is converted to [float]. *)
Definition yuvmatrix : arr3 (arr3 F) :=
  ((rnd32 (dec (299 # 1000)), rnd32 (dec (587 # 1000)), rnd32 (dec (114 # 1000))),
   (rnd32 (dec (-14713 # 100000)), rnd32 (dec (-28886 # 100000)),
    rnd32 (dec (436 # 1000))),
   (rnd32 (dec (615 # 1000)), rnd32 (dec (-51499 # 100000)),
    rnd32 (dec (-10001 # 100000)))).

(** Body of [for (size_t x = 0; x < xsize; ++x)]; [row0 j] and [row1 j]
    are the rows of plane [j] of the two images. *)
Definition sum_of_squares_pixel (row0 row1 : nat -> nat -> F)
           (sum_of_squares : arr3 F) (x : nat) : arr3 F :=
  let cdiff : arr3 F := zero3 in
  let cdiff :=
    fold_left (fun cdiff j => set3 cdiff j (fsub32 (row0 j x) (row1 j x)))
              [0; 1; 2]%nat cdiff in
  let yuvdiff : arr3 F := zero3 in
  let yuvdiff :=
    fold_left
      (fun yuvdiff j =>
         fold_left
           (fun yuvdiff k =>
              set3 yuvdiff j
                   (fadd32 (get3 yuvdiff j)
                           (fmul32 (get3 (get3 yuvmatrix j) k) (get3 cdiff k))))
           [0; 1; 2]%nat yuvdiff)
      [0; 1; 2]%nat yuvdiff in
  fold_left
    (fun sum_of_squares j =>
       set3 sum_of_squares j
            (fadd (get3 sum_of_squares j) (fmul32 (get3 yuvdiff j) (get3 yuvdiff j))))
    [0; 1; 2]%nat sum_of_squares.

(** The loops of [ComputeSumOfSquares] over two planar images. *)
Definition accumulate_squares (xsize ysize : N) (srgb0 srgb1 : Image3F)
           (sum_of_squares : arr3 F) : arr3 F :=
  fold_left
    (fun sum_of_squares y =>
       let row0 := fun j => ConstPlaneRow srgb0 j y in
       let row1 := fun j => ConstPlaneRow srgb1 j y in
       fold_left (sum_of_squares_pixel row0 row1) (seq 0 (N.to_nat xsize))
                 sum_of_squares)
    (seq 0 (N.to_nat ysize)) sum_of_squares.

(** Everything [ComputeSumOfSquares] does between the first and the
    second assignment to [sum_of_squares]: allocation, conversion to
    planar form and the transforms to [c_desired]. *)
Definition to_sRGB (memory_manager : option JxlMemoryManager)
           (a b : PackedPixelFile) (cms : JxlCmsInterface) : M (Image3F * Image3F) :=
  let xsize := ppf_xsize a in
  let ysize := ppf_ysize a in
  let is_gray := (num_color_channels (info a) =? 1)%N in
  let c_desired := ColorEncoding_SRGB is_gray in
  srgb0 <- call Call_Image3F_Create (Image3F_Create memory_manager xsize ysize) ;;
  srgb0 <- call Call_ConvertPackedPixelFileToImage3F
                (ConvertPackedPixelFileToImage3F a srgb0 None) ;;
  srgb1 <- call Call_Image3F_Create (Image3F_Create memory_manager xsize ysize) ;;
  srgb1 <- call Call_ConvertPackedPixelFileToImage3F
                (ConvertPackedPixelFileToImage3F b srgb1 None) ;;
  c_enc_a <- call Call_GetColorEncoding (GetColorEncoding a) ;;
  c_enc_b <- call Call_GetColorEncoding (GetColorEncoding b) ;;
  intensity_a <- call Call_GetIntensityTarget (Ok (GetIntensityTarget a c_enc_a)) ;;
  intensity_b <- call Call_GetIntensityTarget (Ok (GetIntensityTarget b c_enc_b)) ;;
  srgb0 <- (if negb (SameColorEncoding c_enc_a c_desired)
            then call Call_ApplyColorTransform
                      (ApplyColorTransform c_enc_a intensity_a srgb0 (Rect_of srgb0)
                                           c_desired cms None)
            else ret srgb0) ;;
  srgb1 <- (if negb (SameColorEncoding c_enc_b c_desired)
            then call Call_ApplyColorTransform
                      (ApplyColorTransform c_enc_b intensity_b srgb1 (Rect_of srgb1)
                                           c_desired cms None)
            else ret srgb1) ;;
  ret (srgb0, srgb1).

(** The result pairs the returned [Status] with the final content of
    the output array [sum_of_squares]. *)
Definition ComputeSumOfSquares (memory_manager : option JxlMemoryManager)
           (a b : PackedPixelFile) (cms : JxlCmsInterface)
           (sum_of_squares : arr3 F) : World -> (Status * arr3 F) * World :=
  fun w =>
    let sum_of_squares : arr3 F := (DBL_MAX, DBL_MAX, DBL_MAX) in
    let xsize := ppf_xsize a in
    let ysize := ppf_ysize a in
    match to_sRGB memory_manager a b cms w with
    | (Failure msg, w') => ((Failure msg, sum_of_squares), w')
    | (Ok (srgb0, srgb1), w') =>
        let sum_of_squares : arr3 F := (f0, f0, f0) in
        let sum_of_squares :=
          accumulate_squares xsize ysize srgb0 srgb1 sum_of_squares in
        ((Ok tt, sum_of_squares), w')
    end.

(** *** ComputeButteraugli and ButteraugliDistance *)

(** Output parameters [float& score] and [ImageF* distmap]: their
    content before the call is an argument, their content after it is
    returned next to the [Status].  A null [distmap] is [None]. *)
Definition Outputs : Type := (F * option ImageF)%type.

Definition ComputeButteraugli (ref actual : Image3F) (params : ButteraugliParams)
           (cms : JxlCmsInterface) (score : F) (distmap : option ImageF)
  : World -> (Status * Outputs) * World :=
  fun w =>
    let memory_manager := memory_manager3 ref in
    let diff : M ImageF :=
      comparator <- call Call_ButteraugliComparator_Make
                         (ButteraugliComparator_Make ref params) ;;
      temp_distmap <- call Call_ImageF_Create
                           (ImageF_Create memory_manager (xsize3 ref) (ysize3 ref)) ;;
      JXL_ENSURE "comparator->Diffmap(actual, temp_distmap)"
                 (call Call_Diffmap (Diffmap comparator actual temp_distmap)) in
    match diff w with
    | (Failure msg, w') => ((Failure msg, (score, distmap)), w')
    | (Ok temp_distmap, w') =>
        let score := ButteraugliScoreFromDiffmap temp_distmap params in
        let w' := record Call_ButteraugliScoreFromDiffmap w' in
        let distmap :=
          match distmap with
          | Some _ => Some temp_distmap     (* distmap->Swap(temp_distmap) *)
          | None => None
          end in
        ((Ok tt, (score, distmap)), w')
    end.

(** Conversion of both inputs to linear sRGB, as [ButteraugliDistance]
    does it before it calls [ComputeButteraugli]. *)
Definition to_linear_sRGB (memory_manager : option JxlMemoryManager)
           (a b : PackedPixelFile) (cms : JxlCmsInterface)
           (pool : option ThreadPool) : M (Image3F * Image3F) :=
  let xsize := ppf_xsize a in
  let ysize := ppf_ysize a in
  let is_gray := (num_color_channels (info a) =? 1)%N in
  let c_desired := ColorEncoding_LinearSRGB is_gray in
  rgb0 <- call Call_Image3F_Create (Image3F_Create memory_manager xsize ysize) ;;
  rgb0 <- JXL_ENSURE "ConvertPackedPixelFileToImage3F(a, &rgb0, pool)"
            (call Call_ConvertPackedPixelFileToImage3F
                  (ConvertPackedPixelFileToImage3F a rgb0 pool)) ;;
  rgb1 <- call Call_Image3F_Create (Image3F_Create memory_manager xsize ysize) ;;
  rgb1 <- JXL_ENSURE "ConvertPackedPixelFileToImage3F(b, &rgb1, pool)"
            (call Call_ConvertPackedPixelFileToImage3F
                  (ConvertPackedPixelFileToImage3F b rgb1 pool)) ;;
  c_enc_a <- JXL_ENSURE "GetColorEncoding(a, &c_enc_a)"
               (call Call_GetColorEncoding (GetColorEncoding a)) ;;
  c_enc_b <- JXL_ENSURE "GetColorEncoding(b, &c_enc_b)"
               (call Call_GetColorEncoding (GetColorEncoding b)) ;;
  intensity_a <- call Call_GetIntensityTarget (Ok (GetIntensityTarget a c_enc_a)) ;;
  intensity_b <- call Call_GetIntensityTarget (Ok (GetIntensityTarget b c_enc_b)) ;;
  rgb0 <- (if negb (SameColorEncoding c_enc_a c_desired)
           then JXL_ENSURE "ApplyColorTransform(c_enc_a, ...)"
                  (call Call_ApplyColorTransform
                        (ApplyColorTransform c_enc_a intensity_a rgb0 (Rect_of rgb0)
                                             c_desired cms pool))
           else ret rgb0) ;;
  rgb1 <- (if negb (SameColorEncoding c_enc_b c_desired)
           then JXL_ENSURE "ApplyColorTransform(c_enc_b, ...)"
                  (call Call_ApplyColorTransform
                        (ApplyColorTransform c_enc_b intensity_b rgb1 (Rect_of rgb1)
                                             c_desired cms pool))
           else ret rgb1) ;;
  ret (rgb0, rgb1).

(** The overload that returns a [Status]. *)
Definition ButteraugliDistance (memory_manager : option JxlMemoryManager)
           (a b : PackedPixelFile) (params : ButteraugliParams)
           (score : F) (distmap : option ImageF) (pool : option ThreadPool)
           (ignore_alpha : bool) : World -> (Status * Outputs) * World :=
  fun w =>
    if negb (ppf_xsize a =? ppf_xsize b)%N || negb (ppf_ysize a =? ppf_ysize b)%N then
      ((Failure "Images must have the same size for butteraugli.",
        (score, distmap)), w)
    else if negb (num_color_channels (info a) =? num_color_channels (info b))%N then
      ((Failure "Grayscale vs RGB comparison not supported.", (score, distmap)), w)
    else
      let cms := JxlGetDefaultCms in
      match to_linear_sRGB memory_manager a b cms pool w with
      | (Failure msg, w') => ((Failure msg, (score, distmap)), w')
      | (Ok (rgb0, rgb1), w') =>
          ComputeButteraugli rgb0 rgb1 params cms score distmap w'
      end.

(** The overload that returns the score as a [float]; the second
    component is the content of [*distmap] after the call. *)
Definition ButteraugliDistance_float (memory_manager : option JxlMemoryManager)
           (a b : PackedPixelFile) (params : ButteraugliParams)
           (distmap : option ImageF) (pool : option ThreadPool)
           (ignore_alpha : bool) : World -> Outputs * World :=
  fun w =>
    let score : F := FLT_MAX in
    match ButteraugliDistance memory_manager a b params score distmap pool
                              ignore_alpha w with
    | ((Failure _, (score, distmap)), w') =>
        let w' := eprint ("ButteraugliDistance failed." ++ LF) w' in
        ((FLT_MAX, distmap), w')
    | ((Ok _, (score, distmap)), w') => ((score, distmap), w')
    end.

(** *** Butteraugli3Norm *)

Definition Butteraugli3Norm (memory_manager : option JxlMemoryManager)
           (a b : PackedPixelFile) (pool : option ThreadPool) : M F :=
  fun w =>
    let params := ButteraugliParams_default in
    let distmap : ImageF := ImageF_default in
    let '((_, distmap'), w') :=
      ButteraugliDistance_float memory_manager a b params (Some distmap) pool
                                false w in
    let distmap := match distmap' with Some d => d | None => distmap end in
    ComputeDistanceP distmap params (of_Z 3) w'.

(** *** ComputePSNR *)

Definition ComputePSNR (memory_manager : option JxlMemoryManager)
           (a b : PackedPixelFile) (cms : JxlCmsInterface) : World -> F * World :=
  fun w =>
    if negb (ppf_xsize a =? ppf_xsize b)%N || negb (ppf_ysize a =? ppf_ysize b)%N then
      (f0, eprint "Images must have the same size for PSNR." w)
    else if negb (num_color_channels (info a) =? num_color_channels (info b))%N then
      (f0, eprint "Grayscale vs RGB comparison not supported." w)
    else
      let sum_of_squares : arr3 F := zero3 in
      let '((ok, sum_of_squares), w') :=
        ComputeSumOfSquares memory_manager a b cms sum_of_squares w in
      if negb (is_ok ok) then
        (f0, eprint "ComputeSumOfSquares failed." w')
      else
        let kChannelWeights : arr3 F :=
          (fdiv (of_Z 6) (of_Z 8), fdiv (of_Z 1) (of_Z 8), fdiv (of_Z 1) (of_Z 8)) in
        let avg_psnr := f0 in
        let input_pixels := size_mul (ppf_xsize a) (ppf_ysize a) in
        let avg_psnr :=
          fold_left
            (fun avg_psnr i =>
               let rmse :=
                 fsqrt (fdiv (get3 sum_of_squares i) (of_Z (Z.of_N input_pixels))) in
               let psnr :=
                 if feqb (get3 sum_of_squares i) f0 then dec (9999 # 100)
                 else fmul (of_Z 20) (flog10 (fdiv f1 rmse)) in
               fadd avg_psnr (fmul (get3 kChannelWeights i) psnr))
            [0; 1; 2]%nat avg_psnr in
        (avg_psnr, w').
End Metrics.

(** * Reference definitions *)

(** The quantities the specification talks about, and the vocabulary
    of the statements below. *)

Open Scope R_scope.

Definition Rsum (l : list R) : R := fold_right Rplus 0 l.

(** Componentwise sum of triples, the shape every accumulation loop of
    metrics.cc has. *)
Definition add3 (a b : arr3 R) : arr3 R :=
  let '(a0, a1, a2) := a in
  let '(b0, b1, b2) := b in
  (a0 + b0, a1 + b1, a2 + b2).

Definition Rsum3 (l : list (arr3 R)) : arr3 R :=
  (Rsum (map (fun t => get3 t 0) l),
   Rsum (map (fun t => get3 t 1) l),
   Rsum (map (fun t => get3 t 2) l)).

(** What one pixel contributes to the three sums when its first term
    is [t]: [t], its square, and the square of that. *)
Definition terms (t : R) : arr3 R := (t, t * t, (t * t) * (t * t)).

Definition cube (d : R) : R := d * d * d.

(** The three means of the result, from the three sums. *)
Definition pooled (n : R) (sums : arr3 R) (p : R) : R :=
  (cpow (get3 sums 0 / n) (1 / p) + cpow (get3 sums 1 / n) (1 / (2 * p))
   + cpow (get3 sums 2 / n) (1 / (4 * p))) / 3.

(** [d^q] for [d >= 0] and [q > 0], as an expression in [q]. *)
Definition apow (d q : R) : R := if Rlt_dec 0 d then exp (q * ln d) else 0.

(** The three lane-wise accumulators of the vector loop, measured by
    the sums of their lanes. *)
Definition lanes3 : Type := (list R * list R * list R)%type.

Definition lanes_sum (s : lanes3) : arr3 R :=
  let '(s0, s1, s2) := s in (Rsum s0, Rsum s1, Rsum s2).

(** The matrix of section 4.2 of the specification. *)
Definition M_yuv : arr3 (arr3 R) :=
  ((299 / 1000, 587 / 1000, 114 / 1000),
   (-14713 / 100000, -28886 / 100000, 436 / 1000),
   (615 / 1000, -51499 / 100000, -10001 / 100000)).

(** The channel value and the weighted average of section 4.3 of the
    specification. *)
Definition PSNR_channel_spec (sum pixelCount : R) : R :=
  if Req_dec_T sum 0 then 9999 / 100
  else 20 * (ln (1 / sqrt (sum / pixelCount)) / ln 10).

Definition PSNR_spec (sums : arr3 R) (pixelCount : R) : R :=
  6 / 8 * PSNR_channel_spec (get3 sums 0) pixelCount
  + 1 / 8 * PSNR_channel_spec (get3 sums 1) pixelCount
  + 1 / 8 * PSNR_channel_spec (get3 sums 2) pixelCount.

(** What a caller sees of a call: a status that may signal an error,
    or, of a function that returns a plain number, that number. *)
Definition signals_error {A} (s : StatusOr A) : Prop := exists msg, s = Failure msg.

Definition returned {A} (v : A) : StatusOr A := Ok v.

Section Vocabulary.
Context {F : Type} {AF : Arith F} {L : Lib F}.

Local Abbreviation ImageF := (ImageF F JxlMemoryManager).
Local Abbreviation PackedPixelFile := (PackedPixelFile Frames).

(** [1.0 / (distmap.ysize() * distmap.xsize())]. *)
Definition onePerPixels_of (distmap : ImageF) : F :=
  fdiv f1 (of_Z (Z.of_N (size_mul (ysize distmap) (xsize distmap)))).

(** The world after the generic path went through its [once] gate. *)
Definition after_once (w : World) : World :=
  let w1 := mkWorld (stderr w) (wrap_int (once w + 1)) (calls w) in
  if (once w =? 0)%Z then eprint "WARNING: using slow ComputeDistanceP" w1 else w1.

(** The test [std::abs(p - 3.0) < 1E-6]. *)
Definition near_3 (p : F) : bool := fltb (fabs (fsub p f3)) (dec (1 # 1000000)).

Definition empty_map (distmap : ImageF) : bool :=
  (xsize distmap =? 0)%N || (ysize distmap =? 0)%N.

(** A difference map is usable with exponent [p] when it is empty, or
    it carries the memory manager that allocated it and, where the
    fast path is taken, that manager can also allocate the scratch
    buffer of the fast path. *)
Definition usable_map (distmap : ImageF) (p : F) : Prop :=
  empty_map distmap = true \/
  exists mm, memory_manager distmap = Some mm /\
             (near_3 p = true ->
              AlignedMemory_Create mm (3 * N.of_nat Lanes * sizeof_T) = Ok tt).

(** The inputs [ButteraugliDistance] and [ComputePSNR] refuse. *)
Definition size_mismatch (a b : PackedPixelFile) : bool :=
  negb (ppf_xsize a =? ppf_xsize b)%N || negb (ppf_ysize a =? ppf_ysize b)%N.

Definition channel_mismatch (a b : PackedPixelFile) : bool :=
  negb (num_color_channels (info a) =? num_color_channels (info b))%N.

(** The weighted average [ComputePSNR] forms from the three sums. *)
Definition psnr_channel (sum input_pixels : F) : F :=
  let rmse := fsqrt (fdiv sum input_pixels) in
  if feqb sum f0 then dec (9999 # 100) else fmul (of_Z 20) (flog10 (fdiv f1 rmse)).

Definition psnr_average (sums : arr3 F) (input_pixels : F) : F :=
  fadd (fadd (fadd f0
     (fmul (fdiv (of_Z 6) (of_Z 8)) (psnr_channel (get3 sums 0) input_pixels)))
     (fmul (fdiv (of_Z 1) (of_Z 8)) (psnr_channel (get3 sums 1) input_pixels)))
     (fmul (fdiv (of_Z 1) (of_Z 8)) (psnr_channel (get3 sums 2) input_pixels)).
End Vocabulary.

Section RealVocabulary.
Context {L : Lib R}.

Local Abbreviation ImageF := (ImageF R JxlMemoryManager).
Local Abbreviation Image3F := (Image3F R JxlMemoryManager).

(** The samples of a difference map, row by row. *)
Definition pixels (distmap : ImageF) : list R :=
  flat_map (fun y => map (ConstRow distmap y) (seq 0 (N.to_nat (xsize distmap))))
           (seq 0 (N.to_nat (ysize distmap))).


Definition lanes_ok (s : lanes3) : Prop :=
  let '(s0, s1, s2) := s in
  List.length s0 = Lanes /\ List.length s1 = Lanes /\ List.length s2 = Lanes.

(** The measure of the state of the fast path: scalar sums plus lane
    sums. *)
Definition fast_total (st : fast_state) : arr3 R :=
  add3 (fst st) (lanes_sum (snd st)).

(** [sum over k of M[j][k] * (a[k] - b[k])] at pixel [(x, y)]. *)
Definition weighted_diff (j : nat) (a b : Image3F) (y x : nat) : R :=
  Rsum (map (fun k => get3 (get3 M_yuv j) k
                      * (ConstPlaneRow a k y x - ConstPlaneRow b k y x))
            [0; 1; 2]%nat).

(** The sum over all pixels of the square of [weighted_diff j]. *)
Definition SumOfSquares_spec (xs ys : N) (a b : Image3F) (j : nat) : R :=
  Rsum (flat_map (fun y => map (fun x => weighted_diff j a b y x * weighted_diff j a b y x)
                               (seq 0 (N.to_nat xs)))
                 (seq 0 (N.to_nat ys))).

Definition squares3 (a b : Image3F) (y x : nat) : arr3 R :=
  (weighted_diff 0 a b y x * weighted_diff 0 a b y x,
   weighted_diff 1 a b y x * weighted_diff 1 a b y x,
   weighted_diff 2 a b y x * weighted_diff 2 a b y x).

(** Every pixel of the map holds [v]. *)
Definition constant (distmap : ImageF) (v : R) : Prop :=
  forall y x, (y < N.to_nat (ysize distmap))%nat -> (x < N.to_nat (xsize distmap))%nat ->
              ConstRow distmap y x = v.

(** No pixel of the map is negative. *)
Definition nonnegative (distmap : ImageF) : Prop :=
  forall y x, (y < N.to_nat (ysize distmap))%nat -> (x < N.to_nat (xsize distmap))%nat ->
              0 <= ConstRow distmap y x.
End RealVocabulary.

(** ** A stand-in for the library *)

(** A small implementation of [Lib] over the reals on which the
    functions above can be run: pixel payloads are sample functions,
    every input is tagged sRGB, transforms leave the samples alone, the
    comparator reports the absolute difference of the first planes, and
    creation of an image fails without a memory manager. *)
Module TestLib.

Definition Image3F_Create (mm : option unit) (xs ys : N) : StatusOr (Image3F R unit) :=
  match mm with
  | Some m => Ok (mkImage3F xs ys (fun _ _ _ => 0) (Some m))
  | None => Failure "Image3F::Create: no memory manager"
  end.

Definition ImageF_Create (mm : option unit) (xs ys : N) : StatusOr (ImageF R unit) :=
  match mm with
  | Some m => Ok (mkImageF xs ys (fun _ _ => 0) (Some m))
  | None => Failure "ImageF::Create: no memory manager"
  end.

Definition Convert (a : PackedPixelFile (nat -> nat -> nat -> R))
           (im : Image3F R unit) (pool : option unit) : StatusOr (Image3F R unit) :=
  Ok (mkImage3F (xsize3 im) (ysize3 im) (frames a) (memory_manager3 im)).

Definition Diffmap (ref actual : Image3F R unit) (temp : ImageF R unit)
  : StatusOr (ImageF R unit) :=
  Ok (mkImageF (xsize temp) (ysize temp)
               (fun y x => Rabs (ConstPlaneRow ref 0 y x - ConstPlaneRow actual 0 y x))
               (memory_manager temp)).

Definition same_encoding (c d : bool * bool) : bool :=
  Bool.eqb (fst c) (fst d) && Bool.eqb (snd c) (snd d).

#[export] Instance lib : Lib R := {
  JxlMemoryManager := unit;
  Frames := nat -> nat -> nat -> R;
  ColorEncoding := bool * bool;
  JxlCmsInterface := unit;
  ButteraugliParams := unit;
  ThreadPool := unit;
  ButteraugliComparator := Image3F R unit;
  Lanes := 2;
  Lanes_pos := Nat.lt_0_succ 1;
  HWY_CAP_FLOAT64 := true;
  AlignedMemory_Create := fun _ _ => Ok tt;
  Image3F_Create := Image3F_Create;
  ImageF_Create := ImageF_Create;
  ConvertPackedPixelFileToImage3F := Convert;
  GetColorEncoding := fun a => Ok ((num_color_channels (info a) =? 1)%N, false);
  GetIntensityTarget := fun _ _ => 255;
  SameColorEncoding := same_encoding;
  ColorEncoding_SRGB := fun is_gray => (is_gray, false);
  ColorEncoding_LinearSRGB := fun is_gray => (is_gray, true);
  JxlGetDefaultCms := tt;
  ApplyColorTransform := fun _ _ im _ _ _ _ => Ok im;
  ButteraugliParams_default := tt;
  ButteraugliComparator_Make := fun ref _ => Ok ref;
  Diffmap := Diffmap;
  ButteraugliScoreFromDiffmap := fun d _ => ConstRow d 0 0
}.

(** A fresh process: nothing printed, [once] at 0, nothing called. *)
Definition w0 : World := mkWorld [] 0 [].

(** A difference map of one row, [1 2 0], from the test memory
    manager. *)
Definition row_1_2_0 : ImageF R unit :=
  mkImageF 3 1 (fun _ x => match x with O => 1 | S O => 2 | _ => 0 end) (Some tt).

(** A constant difference map of [xs] by [ys] samples [v]. *)
Definition constant_map (xs ys : N) (v : R) : ImageF R unit :=
  mkImageF xs ys (fun _ _ => v) (Some tt).

(** A packed pixel file of the given size and channel count whose
    three planes hold [v]. *)
Definition flat_image (xs ys channels : N) (v : R)
  : PackedPixelFile (nat -> nat -> nat -> R) :=
  mkPPF (mkInfo channels) xs ys (fun _ _ _ => v).

(** The planar image the test converter makes of [flat_image]. *)
Definition planar (xs ys : N) (v : R) : Image3F R unit :=
  mkImage3F xs ys (fun _ _ _ => v) (Some tt).

(** The world after both inputs went through the conversion stage of
    [ComputeSumOfSquares] without a transform. *)
Definition converted : World :=
  mkWorld [] 0
          [Call_Image3F_Create; Call_ConvertPackedPixelFileToImage3F;
           Call_Image3F_Create; Call_ConvertPackedPixelFileToImage3F;
           Call_GetColorEncoding; Call_GetColorEncoding;
           Call_GetIntensityTarget; Call_GetIntensityTarget].

End TestLib.

(** ** Further vocabulary *)

(** The two planar images differ by the same amount in all three
    planes at every pixel of an [xs] by [ys] frame, as two gray images
    do. *)
Definition gray_difference {L : Lib R} (xs ys : N)
           (a b : Image3F R JxlMemoryManager) : Prop :=
  forall y x k, (y < N.to_nat ys)%nat -> (x < N.to_nat xs)%nat -> (k < 3)%nat ->
    ConstPlaneRow a k y x - ConstPlaneRow b k y x
    = ConstPlaneRow a 0 y x - ConstPlaneRow b 0 y x.

(** The sum over the frame of the squared difference of the first
    planes. *)
Definition squared_difference {L : Lib R} (xs ys : N)
           (a b : Image3F R JxlMemoryManager) : R :=
  Rsum (flat_map
          (fun y => map (fun x => (ConstPlaneRow a 0 y x - ConstPlaneRow b 0 y x)
                                  * (ConstPlaneRow a 0 y x - ConstPlaneRow b 0 y x))
                        (seq 0 (N.to_nat xs)))
          (seq 0 (N.to_nat ys))).

Section DistanceVocabulary.
Context {L : Lib R}.

Local Abbreviation ImageF := (ImageF R JxlMemoryManager).

(** The number [ComputeDistanceP] returns on a non-empty usable map:
    the value of the path its test selects. *)
Definition pooled_score (distmap : ImageF) (p : R) : R :=
  let n := IZR (Z.of_N (xsize distmap * ysize distmap)) in
  if near_3 p then fast_path distmap (1 / n) p else slow_path distmap (1 / n) p.

(** Two maps of the same width and height. *)
Definition same_frame (a b : ImageF) : Prop :=
  xsize a = xsize b /\ ysize a = ysize b.

(** No pixel of [a] exceeds the pixel of [b] at the same place. *)
Definition pointwise_le (a b : ImageF) : Prop :=
  forall y x, (y < N.to_nat (ysize a))%nat -> (x < N.to_nat (xsize a))%nat ->
              ConstRow a y x <= ConstRow b y x.

End DistanceVocabulary.

Section CallSequences.
Context {F : Type} {AF : Arith F} {L : Lib F}.

Local Abbreviation ImageF := (ImageF F JxlMemoryManager).

(** The calls of [ComputeDistanceP] that reach the [once] counter:
    the map is not empty, it has a memory manager, and the exponent is
    outside the window around 3. *)
Definition takes_generic_path (distmap : ImageF) (p : F) : bool :=
  negb (empty_map distmap)
  && match memory_manager distmap with Some _ => true | None => false end
  && negb (near_3 p).

Definition generic_calls (inputs : list (ImageF * ButteraugliParams * F)) : nat :=
  List.length (filter (fun i => takes_generic_path (fst (fst i)) (snd i)) inputs).

(** The world after a sequence of calls of [ComputeDistanceP] in one
    process, the results being dropped. *)
Definition ComputeDistanceP_calls (inputs : list (ImageF * ButteraugliParams * F))
           (w : World) : World :=
  fold_left (fun w i => snd (ComputeDistanceP (fst (fst i)) (snd (fst i)) (snd i) w))
            inputs w.
End CallSequences.

(** ** The formulas of the specification in the arithmetic of the code *)

(** The closed forms of sections 4.1 and 4.2 of the specification,
    written with the floating-point operations of an [Arith] in the
    order in which the code applies them: a sum is a running sum from
    0.0 over the pixels in row-major order, [S/N] is the product of
    [1.0 / N] and [S], and [1/(k p)] is [1.0 / (p * k)]. *)
Section Formulas.
Context {F : Type} {AF : Arith F} {L : Lib F}.

Local Abbreviation ImageF := (ImageF F JxlMemoryManager).
Local Abbreviation Image3F := (Image3F F JxlMemoryManager).

(** The samples of a difference map, row by row. *)
Definition samples (distmap : ImageF) : list F :=
  flat_map (fun y => map (ConstRow distmap y) (seq 0 (N.to_nat (xsize distmap))))
           (seq 0 (N.to_nat (ysize distmap))).

(** The positions [(y, x)] of an image, row by row. *)
Definition positions (xs ys : N) : list (nat * nat) :=
  flat_map (fun y => map (fun x => (y, x)) (seq 0 (N.to_nat xs))) (seq 0 (N.to_nat ys)).

(** A running sum in [double], started at 0.0. *)
Definition sum_of (l : list F) : F := fold_left fadd l f0.


(** Section 4.2: the matrix, its entries converted to [float]. *)
Definition M_float (j k : nat) : F :=
  rnd32 (dec (match j, k with
              | 0, 0 => 299 # 1000      | 0, 1 => 587 # 1000
              | 0, _ => 114 # 1000
              | 1, 0 => -14713 # 100000 | 1, 1 => -28886 # 100000
              | 1, _ => 436 # 1000
              | _, 0 => 615 # 1000      | _, 1 => -51499 # 100000
              | _, _ => -10001 # 100000
              end)%nat).

(** [sum over k of M[j][k] * (a[k] - b[k])] at the pixel [(x, y)], in
    [float], the terms added for [k = 0, 1, 2] in turn to 0. *)
Definition weighted_diff_formula (j : nat) (a b : Image3F) (y x : nat) : F :=
  fold_left
    (fun acc k =>
       fadd32 acc (fmul32 (M_float j k)
                          (fsub32 (ConstPlaneRow a k y x) (ConstPlaneRow b k y x))))
    [0; 1; 2]%nat f0.

(** The sum over all pixels of the square of [weighted_diff_formula j];
    the square is a [float], the sum a [double]. *)
Definition SumOfSquares_formula (xs ys : N) (a b : Image3F) (j : nat) : F :=
  sum_of (map (fun yx =>
                 let d := weighted_diff_formula j a b (fst yx) (snd yx) in
                 fmul32 d d)
              (positions xs ys)).
End Formulas.

(** ** The range of [double] *)






(** * tools/file_io.h *)

Module FileIO.
Local Open Scope nat_scope.

(** ** The C library *)

(** The calls file_io.h makes into the C library ([fopen], [stat],
    [fread], [fwrite], [feof], [ferror], [fclose], [strerror]) are not
    part of the repository; they are described as ISO C (7.21.5,
    7.21.8, 7.21.10) and POSIX ([stat]) specify them.  A stream is
    described by what these calls can observe of it.  For input: the bytes it still delivers, whether
    a read error rather than the end of the file follows them, and the
    two indicators.  For output: the bytes accepted so far and how many
    more the device accepts.  For both: whether [fclose] will report an
    error, and whether the stream has been closed. *)
Record FILE : Type := mkFILE {
  unread : list Byte.byte;
  broken : bool;
  eof_indicator : bool;
  error_indicator : bool;
  written : list Byte.byte;
  room : option nat;             (* [None]: no limit *)
  fclose_fails : bool;
  closed : bool
}.

Definition feof (f : FILE) : bool := eof_indicator f.
Definition ferror (f : FILE) : bool := error_indicator f.

(** [memcpy(buf + pos, data, data.size())]. *)
Definition memcpy (buf : list Byte.byte) (pos : nat) (data : list Byte.byte)
  : list Byte.byte :=
  firstn pos buf ++ data ++ skipn (pos + List.length data) buf.

(** [fread(buf, 1, n, f)]: the number of bytes read, the buffer and the
    stream afterwards.  Fewer than [n] bytes are read only when the
    stream runs out, and then one of the indicators is set. *)
Definition fread (buf : list Byte.byte) (n : nat) (f : FILE)
  : nat * list Byte.byte * FILE :=
  if n <=? List.length (unread f) then
    (n, memcpy buf 0 (firstn n (unread f)),
     mkFILE (skipn n (unread f)) (broken f) (eof_indicator f) (error_indicator f)
            (written f) (room f) (fclose_fails f) (closed f))
  else
    (List.length (unread f), memcpy buf 0 (unread f),
     mkFILE [] (broken f)
            (if broken f then eof_indicator f else true)
            (if broken f then true else error_indicator f)
            (written f) (room f) (fclose_fails f) (closed f)).

(** [fwrite(data, 1, data.size(), f)]: the number of bytes written and
    the stream afterwards. *)
Definition fwrite (data : list Byte.byte) (f : FILE) : nat * FILE :=
  let accepted :=
    match room f with
    | None => List.length data
    | Some r => Nat.min r (List.length data)
    end in
  (accepted,
   mkFILE (unread f) (broken f) (eof_indicator f)
          (error_indicator f || (accepted <? List.length data))
          (written f ++ firstn accepted data)
          (match room f with None => None | Some r => Some (r - accepted) end)
          (fclose_fails f) (closed f)).

(** [fclose(f)]: whether it reported an error, and the stream
    afterwards. *)
Definition fclose (f : FILE) : bool * FILE :=
  (fclose_fails f,
   mkFILE (unread f) (broken f) (eof_indicator f) (error_indicator f)
          (written f) (room f) (fclose_fails f) true).

(** What the process finds around it: the result of [fopen] for a path
    and a mode ([None] for a null pointer), the result of [stat] for a
    path ([None] when it fails, else [S_ISREG] of the mode and
    [st_size]), the standard streams, and the text [strerror(errno)]
    gives after a failed [fopen], [fwrite] and [fclose]. *)
Record Env : Type := mkEnv {
  fopen : string -> string -> option FILE;
  stat : string -> option (bool * Z);
  stdin : FILE;
  stdout : FILE;
  strerror_fopen : string;
  strerror_fwrite : string;
  strerror_fclose : string
}.

(** [std::vector<uint8_t>::resize(n)]: new elements are zero. *)
Definition resize (v : list Byte.byte) (n : nat) : list Byte.byte :=
  firstn n v ++ repeat Byte.x00 (n - List.length v).

(** ** FileWrapper *)

Record FileWrapper : Type := mkFileWrapper {
  file_ : option FILE;
  close_on_delete_ : bool;
  size_ : Z
}.

(** [mode[0] == 'r']. *)
Definition mode_is_read (mode : string) : bool :=
  match mode with
  | String c _ => Ascii.eqb c "r"%char
  | EmptyString => false
  end.

(** The constructor (the branch for systems other than Windows). *)
Definition FileWrapper_new (env : Env) (pathname mode : string) : FileWrapper :=
  let file_ :=
    if String.eqb pathname "-"%string
    then Some (if mode_is_read mode then stdin env else stdout env)
    else fopen env pathname mode in
  let close_on_delete_ := negb (String.eqb pathname "-"%string) in
  let size_ := (-1)%Z in
  let size_ :=
    match stat env pathname with
    | Some (is_file, st_size) => if is_file then st_size else size_
    | None => size_
    end in
  mkFileWrapper file_ close_on_delete_ size_.

(** The destructor: what it prints to stderr, and the stream
    afterwards. *)
Definition FileWrapper_delete (env : Env) (fw : FileWrapper)
  : list string * option FILE :=
  match file_ fw with
  | Some f =>
      if close_on_delete_ fw then
        let '(err, f) := fclose f in
        (if err
         then [("Could not close file" ++ LF ++ "Error: " ++ strerror_fclose env)%string]
         else [],
         Some f)
      else ([], Some f)
  | None => ([], None)
  end.

(** ** ReadFile *)

Definition chunk_size : nat := 16 * 1024.

(** The loop [while (true)] of [ReadFile], at most [fuel] times round;
    [None] when [fuel] does not suffice.  The result tells whether the
    loop was left by [break] ([true]) or by [return false]. *)
Fixpoint read_chunks (fuel : nat) (f : FILE) (chunks : list (list Byte.byte))
         (total_size : nat) : option (bool * list (list Byte.byte) * nat * FILE) :=
  match fuel with
  | O => None
  | S fuel =>
      let chunk := repeat Byte.x00 chunk_size in
      let '(bytes_read, chunk, f) := fread chunk (List.length chunk) f in
      if ferror f || (List.length chunk <? bytes_read) then
        Some (false, chunks, total_size, f)
      else
        let chunk := resize chunk bytes_read in
        let total_size := total_size + bytes_read in
        let chunks := if negb (bytes_read =? 0) then chunks ++ [chunk] else chunks in
        if feof f then Some (true, chunks, total_size, f)
        else read_chunks fuel f chunks total_size
  end.

(** [for (const auto& chunk : chunks)]. *)
Definition copy_chunks (chunks : list (list Byte.byte)) (bytes : list Byte.byte)
  : list Byte.byte :=
  fst (fold_left
         (fun (st : list Byte.byte * nat) chunk =>
            let '(bytes, pos) := st in
            (memcpy bytes pos chunk, pos + List.length chunk))
         chunks (bytes, 0)).

(** [ReadFile(FileWrapper& f, ContainerType* bytes)] for a vector of
    bytes: the result, the content of [*bytes] and the wrapper after
    the call. *)
Definition ReadFile (fuel : nat) (f : FileWrapper) (bytes : list Byte.byte)
  : option (bool * list Byte.byte * FileWrapper) :=
  match file_ f with
  | None => Some (false, bytes, f)
  | Some file =>
      let size := size_ f in
      if (size <? 0)%Z then
        let bytes : list Byte.byte := [] in
        match read_chunks fuel file [] 0 with
        | None => None
        | Some (false, _, _, file) =>
            Some (false, bytes, mkFileWrapper (Some file) (close_on_delete_ f) (size_ f))
        | Some (true, chunks, total_size, file) =>
            let bytes := resize bytes total_size in
            let bytes := copy_chunks chunks bytes in
            Some (true, bytes, mkFileWrapper (Some file) (close_on_delete_ f) (size_ f))
        end
      else
        let bytes := resize bytes (Z.to_nat size) in
        let '(bytes_read, bytes, file) := fread bytes (List.length bytes) file in
        let f := mkFileWrapper (Some file) (close_on_delete_ f) (size_ f) in
        if negb (bytes_read =? Z.to_nat size) then Some (false, bytes, f)
        else Some (true, bytes, f)
  end.

(** [ReadFile(const std::string& filename, ContainerType* bytes)]: the
    result, the content of [*bytes], what was printed to stderr, and
    the stream after the wrapper is gone. *)
Definition ReadFile_filename (env : Env) (fuel : nat) (filename : string)
           (bytes : list Byte.byte)
  : option (bool * list Byte.byte * list string * option FILE) :=
  let f := FileWrapper_new env filename "rb"%string in
  match ReadFile fuel f bytes with
  | None => None
  | Some (r, bytes, f) =>
      let '(printed, file) := FileWrapper_delete env f in
      Some (r, bytes, printed, file)
  end.

(** ** WriteFile *)

(** The result, what was printed to stderr, and the stream after the
    wrapper is gone. *)
Definition WriteFile (env : Env) (filename : string) (bytes : list Byte.byte)
  : bool * list string * option FILE :=
  let file := FileWrapper_new env filename "wb"%string in
  match file_ file with
  | None =>
      let printed :=
        [("Could not open " ++ filename ++ " for writing" ++ LF
          ++ "Error: " ++ strerror_fopen env)%string] in
      let '(printed', stream) := FileWrapper_delete env file in
      (false, printed ++ printed', stream)
  | Some stream =>
      let '(n, stream) := fwrite bytes stream in
      let file := mkFileWrapper (Some stream) (close_on_delete_ file) (size_ file) in
      if negb (n =? List.length bytes) then
        let printed :=
          [("Could not write to file" ++ LF ++ "Error: " ++ strerror_fwrite env)%string] in
        let '(printed', stream) := FileWrapper_delete env file in
        (false, printed ++ printed', stream)
      else
        let '(printed', stream) := FileWrapper_delete env file in
        (true, printed', stream)
  end.

End FileIO.

(** ** Maps, streams and environments for runs *)

Module TestData.

(** The map [TestLib.row_1_2_0] turned into a column. *)
Definition column_1_2_0 : ImageF R unit :=
  mkImageF 1 3 (fun y _ => match y with O => 1 | S O => 2 | _ => 0 end) (Some tt).


(** The map [TestLib.row_1_2_0] without a memory manager. *)
Definition unmanaged_row_1_2_0 : ImageF R unit :=
  mkImageF 3 1 (fun _ x => match x with O => 1 | S O => 2 | _ => 0 end) None.

Definition three_bytes : list Byte.byte := [Byte.x01; Byte.x02; Byte.x03].

(** A fresh input stream with the given content; [broken] tells
    whether a read error follows the content. *)
Definition input (content : list Byte.byte) (broken : bool) : FileIO.FILE :=
  FileIO.mkFILE content broken false false [] None false false.

(** A fresh output stream on a device with the given room. *)
Definition output (room : option nat) (fclose_fails : bool) : FileIO.FILE :=
  FileIO.mkFILE [] false false false [] room fclose_fails false.

(** An environment in which every [fopen] gives [opened], every [stat]
    gives [st], and standard input is [stdin]. *)
Definition env_with (opened : option FileIO.FILE) (st : option (bool * Z))
           (stdin : FileIO.FILE) : FileIO.Env :=
  FileIO.mkEnv (fun _ _ => opened) (fun _ => st) stdin (output None false)
               "No such file or directory" "No space left on device"
               "Input/output error".

End TestData.

(** * Properties *)

(** ** Sums of real numbers *)

Lemma Rsum_app (l1 l2 : list R) : Rsum (l1 ++ l2) = Rsum l1 + Rsum l2.
Proof.
  induction l1 as [|a l1 IH]; simpl.
  - ring.
  - rewrite IH. ring.
Qed.

Lemma Rsum_flat_map {A} (f : A -> list R) (l : list A) :
  Rsum (flat_map f l) = Rsum (map (fun a => Rsum (f a)) l).
Proof.
  induction l as [|a l IH]; simpl; [reflexivity|].
  now rewrite Rsum_app, IH.
Qed.

Lemma Rsum_map_ext {A} (f g : A -> R) (l : list A) :
  (forall a, In a l -> f a = g a) -> Rsum (map f l) = Rsum (map g l).
Proof.
  induction l as [|a l IH]; simpl; intros Hfg; [reflexivity|].
  rewrite (Hfg a) by now left.
  rewrite IH; [reflexivity|]. intros; apply Hfg; now right.
Qed.

Lemma Rsum_const {A} (c : R) (l : list A) :
  Rsum (map (fun _ => c) l) = INR (List.length l) * c.
Proof.
  induction l as [|a l IH].
  - simpl. ring.
  - change (Rsum (map (fun _ => c) (a :: l))) with (c + Rsum (map (fun _ => c) l)).
    rewrite IH. change (List.length (a :: l)) with (S (List.length l)). rewrite S_INR. ring.
Qed.

Lemma Rsum_nonneg (l : list R) : (forall a, In a l -> 0 <= a) -> 0 <= Rsum l.
Proof.
  induction l as [|a l IH]; simpl; intros Hl; [lra|].
  assert (0 <= a) by (apply Hl; now left).
  assert (0 <= Rsum l) by (apply IH; intros; apply Hl; now right).
  lra.
Qed.

Lemma add3_assoc (a b c : arr3 R) : add3 (add3 a b) c = add3 a (add3 b c).
Proof.
  destruct a as [[a0 a1] a2], b as [[b0 b1] b2], c as [[c0 c1] c2]; simpl.
  f_equal; [f_equal|]; ring.
Qed.

Lemma add3_zero_r (a : arr3 R) : add3 a (0, 0, 0) = a.
Proof. destruct a as [[a0 a1] a2]; simpl. f_equal; [f_equal|]; ring. Qed.

Lemma add3_zero_l (a : arr3 R) : add3 (0, 0, 0) a = a.
Proof. destruct a as [[a0 a1] a2]; simpl. f_equal; [f_equal|]; ring. Qed.

Lemma Rsum3_cons (t : arr3 R) (l : list (arr3 R)) :
  Rsum3 (t :: l) = add3 t (Rsum3 l).
Proof. destruct t as [[t0 t1] t2]; reflexivity. Qed.

Lemma Rsum3_app (l1 l2 : list (arr3 R)) :
  Rsum3 (l1 ++ l2) = add3 (Rsum3 l1) (Rsum3 l2).
Proof.
  unfold Rsum3; simpl. now rewrite !map_app, !Rsum_app.
Qed.

(** A loop whose body adds [g x] to the accumulator leaves the
    accumulator plus the sum of all [g x]. *)
Lemma fold_left_add3 {A} (step : arr3 R -> A -> arr3 R) (g : A -> arr3 R)
      (l : list A) (acc : arr3 R) :
  (forall s x, In x l -> step s x = add3 s (g x)) ->
  fold_left step l acc = add3 acc (Rsum3 (map g l)).
Proof.
  revert acc; induction l as [|x l IH]; intros acc Hstep.
  - simpl. unfold Rsum3; simpl. now rewrite add3_zero_r.
  - simpl fold_left. rewrite IH by (intros; apply Hstep; now right).
    rewrite (Hstep acc x) by now left.
    rewrite map_cons, Rsum3_cons. apply add3_assoc.
Qed.

Lemma Rsum3_flat_map {A B} (h : B -> arr3 R) (f : A -> list B) (l : list A) :
  Rsum3 (map h (flat_map f l)) = Rsum3 (map (fun a => Rsum3 (map h (f a))) l).
Proof.
  induction l as [|a l IH].
  - reflexivity.
  - simpl flat_map. rewrite map_app, Rsum3_app, IH, map_cons, Rsum3_cons.
    reflexivity.
Qed.

Lemma Rsum3_flat (A : Type) (f : A -> list (arr3 R)) (l : list A) :
  Rsum3 (flat_map f l) = Rsum3 (map (fun a => Rsum3 (f a)) l).
Proof.
  induction l as [|a l IH].
  - reflexivity.
  - simpl flat_map. rewrite Rsum3_app, IH, map_cons, Rsum3_cons. reflexivity.
Qed.

(** ** NormPooling over the reals *)

Section PoolNorm.
Context {L : Lib R}.

Local Abbreviation ImageF := (ImageF R JxlMemoryManager).

Lemma accumulate_add3 (s : arr3 R) (t : R) : accumulate s t = add3 s (terms t).
Proof. destruct s as [[s0 s1] s2]; reflexivity. Qed.

Lemma slow_sums_eq (distmap : ImageF) (p : R) :
  slow_sums distmap p = Rsum3 (map (fun d => terms (cpow d p)) (pixels distmap)).
Proof.
  unfold slow_sums, pixels.
  rewrite Rsum3_flat_map.
  rewrite (fold_left_add3 _
             (fun y => Rsum3 (map (fun d => terms (cpow d p))
                                  (map (ConstRow distmap y)
                                       (seq 0 (N.to_nat (xsize distmap))))))).
  - apply add3_zero_l.
  - intros s y _.
    rewrite (fold_left_add3 _ (fun x => terms (cpow (ConstRow distmap y x) p))).
    + now rewrite map_map.
    + intros s' x _. apply accumulate_add3.
Qed.

Lemma slow_path_eq (distmap : ImageF) (n p : R) :
  slow_path distmap (1 / n) p = pooled n (slow_sums distmap p) p.
Proof.
  unfold slow_path, pooled. cbn -[slow_sums get3 cpow].
  unfold f0, f1, f3. cbn -[slow_sums get3 cpow].
  replace (p * 1) with p by ring.
  replace (p * 2) with (2 * p) by ring.
  replace (p * 4) with (4 * p) by ring.
  replace (1 / n * get3 (slow_sums distmap p) 0)
    with (get3 (slow_sums distmap p) 0 / n) by (unfold Rdiv; ring).
  replace (1 / n * get3 (slow_sums distmap p) 1)
    with (get3 (slow_sums distmap p) 1 / n) by (unfold Rdiv; ring).
  replace (1 / n * get3 (slow_sums distmap p) 2)
    with (get3 (slow_sums distmap p) 2 / n) by (unfold Rdiv; ring).
  unfold Rdiv. ring.
Qed.
End PoolNorm.

(** ** Control flow, for every arithmetic *)

Section ControlFlow.
Context {F : Type} {AF : Arith F} {L : Lib F}.

Local Abbreviation ImageF := (ImageF F JxlMemoryManager).
Local Abbreviation Image3F := (Image3F F JxlMemoryManager).
Local Abbreviation PackedPixelFile := (PackedPixelFile Frames).

Lemma ComputeDistanceP_empty (distmap : ImageF) params p w :
  empty_map distmap = true ->
  ComputeDistanceP distmap params p w = (Ok f0, w).
Proof.
  unfold ComputeDistanceP, empty_map. intros ->. reflexivity.
Qed.

Lemma ComputeDistanceP_null (distmap : ImageF) params p w :
  empty_map distmap = false ->
  memory_manager distmap = None ->
  ComputeDistanceP distmap params p w = (Failure "memory_manager != nullptr", w).
Proof.
  unfold ComputeDistanceP, empty_map. intros -> ->. reflexivity.
Qed.

Lemma ComputeDistanceP_slow (distmap : ImageF) params p w mm :
  empty_map distmap = false ->
  memory_manager distmap = Some mm ->
  near_3 p = false ->
  ComputeDistanceP distmap params p w
  = (Ok (slow_path distmap (onePerPixels_of distmap) p), after_once w).
Proof.
  unfold ComputeDistanceP, empty_map, near_3. intros -> -> ->.
  unfold bind, once_fetch_add_1, after_once, ret, fprintf_stderr.
  destruct (once w =? 0)%Z; reflexivity.
Qed.

Lemma ComputeDistanceP_fast (distmap : ImageF) params p w mm :
  empty_map distmap = false ->
  memory_manager distmap = Some mm ->
  near_3 p = true ->
  AlignedMemory_Create mm (3 * N.of_nat Lanes * sizeof_T) = Ok tt ->
  ComputeDistanceP distmap params p w
  = (Ok (fast_path distmap (onePerPixels_of distmap) p),
     record Call_AlignedMemory_Create w).
Proof.
  unfold ComputeDistanceP, empty_map, near_3. intros -> -> -> Hal.
  unfold bind, call, ret. rewrite Hal. reflexivity.
Qed.

Lemma ComputeDistanceP_fast_oom (distmap : ImageF) params p w mm msg :
  empty_map distmap = false ->
  memory_manager distmap = Some mm ->
  near_3 p = true ->
  AlignedMemory_Create mm (3 * N.of_nat Lanes * sizeof_T) = Failure msg ->
  ComputeDistanceP distmap params p w
  = (Failure msg, record Call_AlignedMemory_Create w).
Proof.
  unfold ComputeDistanceP, empty_map, near_3. intros -> -> -> Hal.
  unfold bind, call, ret. rewrite Hal. reflexivity.
Qed.
End ControlFlow.

(** ** NormPooling: the generic path *)

Section GenericPath.
Context {L : Lib R}.

Local Abbreviation ImageF := (ImageF R JxlMemoryManager).

Lemma near_3_true (p : R) : near_3 p = true <-> Rabs (p - 3) < 1 / 1000000.
Proof.
  unfold near_3. cbn. unfold Rltb, f3, Q2R. cbn.
  destruct (Rlt_dec (Rabs (p - 3)) (1 * / 1000000)) as [H | H]; split; intros H'.
  - lra.
  - reflexivity.
  - discriminate H'.
  - lra.
Qed.

Lemma near_3_false (p : R) : near_3 p = false <-> ~ Rabs (p - 3) < 1 / 1000000.
Proof.
  rewrite <- near_3_true. destruct (near_3 p); split; congruence.
Qed.

Lemma onePerPixels_of_R (distmap : ImageF) :
  (xsize distmap * ysize distmap < 2 ^ 64)%N ->
  onePerPixels_of distmap = 1 / IZR (Z.of_N (xsize distmap * ysize distmap)).
Proof.
  intros Hfit. unfold onePerPixels_of, size_mul. cbn. unfold f1. cbn.
  rewrite (N.mul_comm (ysize distmap)), N.mod_small by exact Hfit.
  reflexivity.
Qed.

End GenericPath.

(** ** NormPooling: the fast path *)

Lemma zipWith_length {F} (f : F -> F -> F) (a b : list F) :
  List.length a = List.length b -> List.length (zipWith f a b) = List.length a.
Proof.
  revert b; induction a as [|x a IH]; intros [|y b] Hlen; simpl in *; try congruence.
  f_equal. apply IH. congruence.
Qed.

Lemma zipWith_diag {F} (f : F -> F -> F) (a : list F) :
  zipWith f a a = map (fun x => f x x) a.
Proof. induction a as [|x a IH]; simpl; congruence. Qed.

Lemma zipWith_map_r {F} (f : F -> F -> F) (g : F -> F) (a : list F) :
  zipWith f a (map g a) = map (fun x => f x (g x)) a.
Proof. induction a as [|x a IH]; simpl; congruence. Qed.

Lemma Rsum_zipWith_plus (a b : list R) :
  List.length a = List.length b -> Rsum (zipWith Rplus a b) = Rsum a + Rsum b.
Proof.
  revert b; induction a as [|x a IH]; intros [|y b] Hlen; simpl in *; try congruence.
  - ring.
  - rewrite IH by congruence. ring.
Qed.

Lemma map_seq_shift {A} (row : nat -> A) (x n : nat) :
  map (fun i => row (x + i)%nat) (seq 0 n) = map row (seq x n).
Proof.
  rewrite <- (map_map (fun i => (x + i)%nat) row). f_equal.
  replace (seq x n) with (seq (x + 0) n) by (f_equal; lia).
  generalize 0%nat as s. induction n as [|n IH]; intros s; simpl; [reflexivity|].
  f_equal. rewrite IH. f_equal. lia.
Qed.

Lemma flat_map_seq_blocks (len full : nat) :
  flat_map (fun k => seq (k * len) len) (seq 0 full) = seq 0 (full * len).
Proof.
  induction full as [|full IH]; [reflexivity|].
  rewrite seq_S, flat_map_app, IH. simpl flat_map. rewrite app_nil_r.
  replace (S full * len)%nat with (full * len + len)%nat by lia.
  now rewrite seq_app.
Qed.

(** A loop over a state with an additive measure [mu] and an
    invariant [inv]. *)
Lemma fold_left_measure {S A} (mu : S -> arr3 R) (inv : S -> Prop)
      (step : S -> A -> S) (g : A -> arr3 R) (l : list A) (acc : S) :
  (forall s x, inv s -> inv (step s x) /\ mu (step s x) = add3 (mu s) (g x)) ->
  inv acc ->
  inv (fold_left step l acc)
  /\ mu (fold_left step l acc) = add3 (mu acc) (Rsum3 (map g l)).
Proof.
  intros Hstep. revert acc; induction l as [|x l IH]; intros acc Hacc.
  - split; [exact Hacc|]. simpl. unfold Rsum3; simpl. now rewrite add3_zero_r.
  - simpl fold_left. destruct (Hstep acc x Hacc) as [Hinv Hmu].
    destruct (IH _ Hinv) as [Hinv' Hmu']. split; [exact Hinv'|].
    rewrite Hmu', Hmu, map_cons, Rsum3_cons. apply add3_assoc.
Qed.

Section FastPath.
Context {L : Lib R}.

Local Abbreviation ImageF := (ImageF R JxlMemoryManager).

Lemma Tadd_R (a b : R) : Tadd a b = a + b.
Proof. unfold Tadd, fadd32. destruct HWY_CAP_FLOAT64; reflexivity. Qed.

Lemma Tmul_R (a b : R) : Tmul a b = a * b.
Proof. unfold Tmul, fmul32. destruct HWY_CAP_FLOAT64; reflexivity. Qed.

Lemma Add_R (a b : list R) : Add a b = zipWith Rplus a b.
Proof.
  unfold Add. revert b; induction a as [|x a IH]; intros [|y b]; simpl; try reflexivity.
  now rewrite Tadd_R, IH.
Qed.

Lemma Mul_R (a b : list R) : Mul a b = zipWith Rmult a b.
Proof.
  unfold Mul. revert b; induction a as [|x a IH]; intros [|y b]; simpl; try reflexivity.
  now rewrite Tmul_R, IH.
Qed.

Lemma Load_eq (row : nat -> R) (x : nat) : Load row x = map row (seq x Lanes).
Proof. unfold Load. apply map_seq_shift. Qed.

Lemma Zero_length : List.length (Zero (F := R)) = Lanes.
Proof. unfold Zero. apply repeat_length. Qed.

Lemma Rsum_Zero : Rsum (Zero (F := R)) = 0.
Proof.
  unfold Zero, f0. cbn [of_Z R_arith]. generalize Lanes as n.
  induction n as [|n IH]; [reflexivity|].
  change (Rsum (repeat 0 (S n))) with (0 + Rsum (repeat 0 n)).
  rewrite IH. ring.
Qed.

Lemma fold_left_Tadd (v : list R) (a : R) : fold_left Tadd v a = a + Rsum v.
Proof.
  revert a; induction v as [|x v IH]; intros a; simpl.
  - ring.
  - rewrite IH, Tadd_R. ring.
Qed.

Lemma GetLane_SumOfLanes (v : list R) : GetLane (SumOfLanes v) = Rsum v.
Proof.
  unfold GetLane, SumOfLanes. rewrite fold_left_Tadd.
  pose proof Lanes_pos as Hpos.
  destruct Lanes as [|n]; [inversion Hpos|].
  unfold f0. cbn. ring.
Qed.

Lemma Rsum3_terms_cube (l : list R) :
  (Rsum (map cube l),
   Rsum (map (fun d => cube d * cube d) l),
   Rsum (map (fun d => cube d * cube d * (cube d * cube d)) l))
  = Rsum3 (map (fun d => terms (cube d)) l).
Proof. unfold Rsum3. rewrite !map_map. reflexivity. Qed.

Lemma cube_terms_lanes (row : nat -> R) (x : nat) :
  let d1 := Load row x in
  let d2 := Mul d1 (Mul d1 d1) in
  let d3 := Mul d2 d2 in
  let d4 := Mul d3 d3 in
  (List.length d2 = Lanes /\ List.length d3 = Lanes /\ List.length d4 = Lanes)
  /\ (Rsum d2, Rsum d3, Rsum d4)
     = Rsum3 (map (fun x => terms (cube (row x))) (seq x Lanes)).
Proof.
  cbn zeta. rewrite !Mul_R, Load_eq.
  set (l := map row (seq x Lanes)).
  rewrite (zipWith_diag Rmult l), (zipWith_map_r Rmult (fun d => d * d) l).
  rewrite (zipWith_diag Rmult (map _ l)), map_map.
  rewrite (zipWith_diag Rmult (map _ l)), map_map.
  split.
  - subst l. rewrite !length_map, !length_seq. auto.
  - rewrite <- (map_map row (fun d => terms (cube d))). fold l.
    rewrite <- Rsum3_terms_cube.
    f_equal; [f_equal|]; apply Rsum_map_ext; intros d _; unfold cube; ring.
Qed.

Lemma vector_loop (row : nat -> R) (full : nat) :
  let s :=
    fold_left
      (fun (s : list R * list R * list R) (k : nat) =>
         let '(sums0, sums1, sums2) := s in
         let x := (k * Lanes)%nat in
         let d1 := Load row x in
         let d2 := Mul d1 (Mul d1 d1) in
         let sums0 := Add sums0 d2 in
         let d3 := Mul d2 d2 in
         let sums1 := Add sums1 d3 in
         let d4 := Mul d3 d3 in
         let sums2 := Add sums2 d4 in
         (sums0, sums1, sums2))
      (seq 0 full) (Zero, Zero, Zero) in
  lanes_ok s
  /\ lanes_sum s = Rsum3 (map (fun x => terms (cube (row x))) (seq 0 (full * Lanes))).
Proof.
  cbn zeta.
  match goal with |- context [fold_left ?step _ _] => set (body := step) end.
  destruct (@fold_left_measure (list R * list R * list R)%type nat lanes_sum lanes_ok body
              (fun k => Rsum3 (map (fun x => terms (cube (row x)))
                                   (seq (k * Lanes) Lanes)))
              (seq 0 full) (Zero, Zero, Zero)) as [Hinv Hmu].
  - intros [[s0 s1] s2] k (H0 & H1 & H2). unfold body.
    destruct (cube_terms_lanes row (k * Lanes)) as [(L2 & L3 & L4) Hsum].
    cbn zeta in L2, L3, L4, Hsum. rewrite !Add_R.
    split.
    + unfold lanes_ok. rewrite !zipWith_length by congruence. auto.
    + unfold lanes_sum. rewrite !Rsum_zipWith_plus by congruence.
      rewrite <- Hsum. reflexivity.
  - unfold lanes_ok. rewrite Zero_length. auto.
  - split; [exact Hinv|]. rewrite Hmu.
    unfold lanes_sum at 1. rewrite Rsum_Zero, add3_zero_l.
    rewrite <- (Rsum3_flat_map (fun x => terms (cube (row x)))
                               (fun k => seq (k * Lanes) Lanes)).
    now rewrite flat_map_seq_blocks.
Qed.

Lemma fast_row_total (distmap : ImageF) (st : fast_state) (y : nat) :
  lanes_ok (snd st) ->
  lanes_ok (snd (fast_row distmap st y))
  /\ fast_total (fast_row distmap st y)
     = add3 (fast_total st)
            (Rsum3 (map (fun x => terms (cube (ConstRow distmap y x)))
                        (seq 0 (N.to_nat (xsize distmap))))).
Proof.
  destruct st as [sum1 [[t0 t1] t2]]. intros (H0 & H1 & H2).
  unfold fast_row.
  set (xs := N.to_nat (xsize distmap)).
  set (full := (xs / Lanes)%nat).
  pose proof (vector_loop (ConstRow distmap y) full) as Hv. cbn zeta in Hv.
  match type of Hv with context [fold_left ?step ?l ?a] =>
    destruct (fold_left step l a) as [[s0 s1] s2] end.
  destruct Hv as [(L0 & L1 & L2) Hsum].
  rewrite !Add_R.
  rewrite (fold_left_add3 _ (fun x => terms (cube (ConstRow distmap y x))))
    by (intros; apply accumulate_add3).
  split.
  - cbn [snd]. unfold lanes_ok. rewrite !zipWith_length by congruence. auto.
  - unfold fast_total. cbn [fst snd]. unfold lanes_sum.
    rewrite !Rsum_zipWith_plus by congruence.
    assert (Hle : (full * Lanes <= xs)%nat).
    { unfold full. rewrite Nat.mul_comm. apply Nat.Div0.mul_div_le. }
    replace (seq 0 xs) with (seq 0 (full * Lanes) ++ seq (full * Lanes) (xs - full * Lanes)).
    2:{ rewrite <- seq_app. f_equal. lia. }
    rewrite map_app, Rsum3_app, <- Hsum.
    set (tail := Rsum3 _). unfold lanes_sum.
    destruct sum1 as [[a0 a1] a2], tail as [[b0 b1] b2]. simpl.
    f_equal; [f_equal|]; ring.
Qed.

Lemma fast_rows_total (distmap : ImageF) :
  fast_total (fold_left (fast_row distmap) (seq 0 (N.to_nat (ysize distmap)))
                        (zero3, (Zero, Zero, Zero)))
  = Rsum3 (map (fun d => terms (cube d)) (pixels distmap)).
Proof.
  destruct (@fold_left_measure fast_state nat fast_total (fun st => lanes_ok (snd st))
              (fast_row distmap)
              (fun y => Rsum3 (map (fun x => terms (cube (ConstRow distmap y x)))
                                   (seq 0 (N.to_nat (xsize distmap)))))
              (seq 0 (N.to_nat (ysize distmap))) (zero3, (Zero, Zero, Zero)))
    as [_ Hmu].
  - intros st y Hst. now apply fast_row_total.
  - cbn [snd]. unfold lanes_ok. rewrite Zero_length. auto.
  - rewrite Hmu.
    replace (fast_total (zero3, (Zero, Zero, Zero))) with ((0, 0, 0) : arr3 R).
    2:{ unfold fast_total. cbn [fst snd]. unfold lanes_sum. rewrite Rsum_Zero.
        unfold zero3, f0. cbn. f_equal; [f_equal|]; ring. }
    rewrite add3_zero_l.
    unfold pixels. rewrite Rsum3_flat_map. f_equal.
    apply map_ext. intros y. now rewrite map_map.
Qed.

(** The fast path computes the three means of the sums of cubes,
    their squares and their fourth powers, whatever the number of
    lanes and the width of the rows. *)
Lemma fast_path_eq (distmap : ImageF) (n p : R) :
  fast_path distmap (1 / n) p
  = pooled n (Rsum3 (map (fun d => terms (cube d)) (pixels distmap))) p.
Proof.
  rewrite <- fast_rows_total. unfold fast_path.
  destruct (fold_left _ _ _) as [sum1 [[t0 t1] t2]].
  rewrite !GetLane_SumOfLanes.
  unfold fast_total, pooled. cbn [fst snd]. unfold lanes_sum.
  destruct sum1 as [[a0 a1] a2]. unfold f0, f1, f3. cbn -[cpow].
  replace (p * 1) with p by ring.
  replace (p * 2) with (2 * p) by ring.
  replace (p * 4) with (4 * p) by ring.
  replace (1 / n * (a0 + Rsum t0)) with ((a0 + Rsum t0) / n) by (unfold Rdiv; ring).
  replace (1 / n * (a1 + Rsum t1)) with ((a1 + Rsum t1) / n) by (unfold Rdiv; ring).
  replace (1 / n * (a2 + Rsum t2)) with ((a2 + Rsum t2) / n) by (unfold Rdiv; ring).
  unfold Rdiv. ring.
Qed.


End FastPath.

(** ** Failures and sentinels, for every arithmetic *)

Section Failures.
Context {F : Type} {AF : Arith F} {L : Lib F}.

Local Abbreviation ImageF := (ImageF F JxlMemoryManager).
Local Abbreviation Image3F := (Image3F F JxlMemoryManager).
Local Abbreviation PackedPixelFile := (PackedPixelFile Frames).

(** C8. When [ComputeSumOfSquares] returns an error, it is the error of
    the conversion stage and the three sums hold
    [std::numeric_limits<double>::max()], whatever they held before the
    call; when it returns success, the conversion stage succeeded and
    the sums are the accumulation over its two images, started from
    zero. *)
Theorem ComputeSumOfSquares_sentinel (memory_manager : option JxlMemoryManager)
        (a b : PackedPixelFile) (cms : JxlCmsInterface) (before : arr3 F) (w : World) :
  let r := ComputeSumOfSquares memory_manager a b cms before w in
  (forall msg, fst (fst r) = Failure msg ->
     snd (fst r) = (DBL_MAX, DBL_MAX, DBL_MAX)
     /\ to_sRGB memory_manager a b cms w = (Failure msg, snd r))
  /\ (fst (fst r) = Ok tt ->
      exists srgb0 srgb1,
        to_sRGB memory_manager a b cms w = (Ok (srgb0, srgb1), snd r)
        /\ snd (fst r)
           = accumulate_squares (ppf_xsize a) (ppf_ysize a) srgb0 srgb1 (f0, f0, f0)).
Proof.
  cbn zeta. unfold ComputeSumOfSquares.
  destruct (to_sRGB memory_manager a b cms w) as [[[srgb0 srgb1] | msg'] w'];
    cbn [fst snd]; split.
  - intros msg Hmsg. discriminate Hmsg.
  - intros _. exists srgb0, srgb1. split; reflexivity.
  - intros msg Hmsg. injection Hmsg as ->. split; reflexivity.
  - intros H. discriminate H.
Qed.

Lemma ComputeButteraugli_failure (ref actual : Image3F) params cms score distmap w msg :
  fst (fst (ComputeButteraugli ref actual params cms score distmap w)) = Failure msg ->
  snd (fst (ComputeButteraugli ref actual params cms score distmap w))
  = (score, distmap).
Proof.
  unfold ComputeButteraugli.
  match goal with |- context [match ?m w with _ => _ end] => destruct (m w) as [[t | e] w'] end;
    cbn [fst snd]; intros H; [discriminate H | reflexivity].
Qed.

(** A failing [ButteraugliDistance] leaves [score] and [*distmap] as
    they were. *)
Lemma ButteraugliDistance_failure memory_manager (a b : PackedPixelFile) params score
      distmap pool ignore_alpha w msg :
  fst (fst (ButteraugliDistance memory_manager a b params score distmap pool
                                ignore_alpha w)) = Failure msg ->
  snd (fst (ButteraugliDistance memory_manager a b params score distmap pool
                                ignore_alpha w)) = (score, distmap).
Proof.
  unfold ButteraugliDistance.
  destruct (negb (ppf_xsize a =? ppf_xsize b)%N || negb (ppf_ysize a =? ppf_ysize b)%N);
    [reflexivity|].
  destruct (negb (num_color_channels (info a) =? num_color_channels (info b))%N);
    [reflexivity|].
  destruct (to_linear_sRGB memory_manager a b JxlGetDefaultCms pool w)
    as [[[rgb0 rgb1] | e] w']; [|reflexivity].
  apply ComputeButteraugli_failure.
Qed.

Lemma ComputePSNR_cases memory_manager (a b : PackedPixelFile) cms w :
  ComputePSNR memory_manager a b cms w
  = if size_mismatch a b then
      (f0, eprint "Images must have the same size for PSNR." w)
    else if channel_mismatch a b then
      (f0, eprint "Grayscale vs RGB comparison not supported." w)
    else
      match ComputeSumOfSquares memory_manager a b cms zero3 w with
      | ((Failure _, _), w') => (f0, eprint "ComputeSumOfSquares failed." w')
      | ((Ok _, sums), w') =>
          (psnr_average sums (of_Z (Z.of_N (size_mul (ppf_xsize a) (ppf_ysize a)))), w')
      end.
Proof.
  unfold ComputePSNR, size_mismatch, channel_mismatch.
  destruct (negb (ppf_xsize a =? ppf_xsize b)%N || negb (ppf_ysize a =? ppf_ysize b)%N);
    [reflexivity|].
  destruct (negb (num_color_channels (info a) =? num_color_channels (info b))%N);
    [reflexivity|].
  destruct (ComputeSumOfSquares memory_manager a b cms zero3 w) as [[[u | e] sums] w'];
    reflexivity.
Qed.

(** C9. The lenient entry points turn a failure into a diagnostic and a
    sentinel.  The [float] overload of [ButteraugliDistance] returns
    [std::numeric_limits<float>::max()] and prints
    "ButteraugliDistance failed." when the [Status] overload fails, and
    the score that overload stored when it succeeds.  [ComputePSNR]
    returns 0.0 with a diagnostic when the sizes differ, when the
    channel counts differ and when [ComputeSumOfSquares] fails, and the
    weighted average of the channel values otherwise. *)
Theorem lenient_entry_points (memory_manager : option JxlMemoryManager)
        (a b : PackedPixelFile) (params : ButteraugliParams) (distmap : option ImageF)
        (pool : option ThreadPool) (ignore_alpha : bool) (cms : JxlCmsInterface)
        (w : World) :
  (forall msg out w',
      ButteraugliDistance memory_manager a b params FLT_MAX distmap pool ignore_alpha w
      = ((Failure msg, out), w') ->
      ButteraugliDistance_float memory_manager a b params distmap pool ignore_alpha w
      = ((FLT_MAX, distmap), eprint ("ButteraugliDistance failed." ++ LF) w'))
  /\ (forall u score d w',
      ButteraugliDistance memory_manager a b params FLT_MAX distmap pool ignore_alpha w
      = ((Ok u, (score, d)), w') ->
      ButteraugliDistance_float memory_manager a b params distmap pool ignore_alpha w
      = ((score, d), w'))
  /\ (size_mismatch a b = true ->
      ComputePSNR memory_manager a b cms w
      = (f0, eprint "Images must have the same size for PSNR." w))
  /\ (size_mismatch a b = false -> channel_mismatch a b = true ->
      ComputePSNR memory_manager a b cms w
      = (f0, eprint "Grayscale vs RGB comparison not supported." w))
  /\ (size_mismatch a b = false -> channel_mismatch a b = false ->
      forall msg sums w',
        ComputeSumOfSquares memory_manager a b cms zero3 w = ((Failure msg, sums), w') ->
        ComputePSNR memory_manager a b cms w
        = (f0, eprint "ComputeSumOfSquares failed." w'))
  /\ (size_mismatch a b = false -> channel_mismatch a b = false ->
      forall u sums w',
        ComputeSumOfSquares memory_manager a b cms zero3 w = ((Ok u, sums), w') ->
        ComputePSNR memory_manager a b cms w
        = (psnr_average sums (of_Z (Z.of_N (size_mul (ppf_xsize a) (ppf_ysize a)))),
           w')).
Proof.
  repeat split.
  - intros msg out w' Hrun.
    pose proof (@ButteraugliDistance_failure memory_manager a b params FLT_MAX distmap
                  pool ignore_alpha w msg) as Hout.
    unfold ButteraugliDistance_float. rewrite Hrun in *. cbn [fst snd] in Hout.
    rewrite (Hout eq_refl). reflexivity.
  - intros u score d w' Hrun. unfold ButteraugliDistance_float. now rewrite Hrun.
  - intros Hs. now rewrite ComputePSNR_cases, Hs.
  - intros Hs Hc. now rewrite ComputePSNR_cases, Hs, Hc.
  - intros Hs Hc msg sums w' Hrun. now rewrite ComputePSNR_cases, Hs, Hc, Hrun.
  - intros Hs Hc u sums w' Hrun. now rewrite ComputePSNR_cases, Hs, Hc, Hrun.
Qed.

(** C10. When the distance computation fails inside
    [Butteraugli3Norm], the failure is not handed on: the [float]
    overload prints its diagnostic, the difference map still is the
    default-constructed one, and [Butteraugli3Norm] returns the score 0
    through the empty-map case of [ComputeDistanceP]. *)
Theorem Butteraugli3Norm_swallows_failure (memory_manager : option JxlMemoryManager)
        (a b : PackedPixelFile) (pool : option ThreadPool) (w : World) (msg : string) :
  let strict :=
    ButteraugliDistance memory_manager a b ButteraugliParams_default FLT_MAX
                        (Some ImageF_default) pool false w in
  fst (fst strict) = Failure msg ->
  snd (fst (ButteraugliDistance_float memory_manager a b ButteraugliParams_default
                                      (Some ImageF_default) pool false w))
  = Some ImageF_default
  /\ Butteraugli3Norm memory_manager a b pool w
     = (Ok f0, eprint ("ButteraugliDistance failed." ++ LF) (snd strict)).
Proof.
  cbn zeta. intros Hfail.
  pose proof (ButteraugliDistance_failure _ _ _ _ _ _ _ _ _ Hfail) as Hout.
  unfold Butteraugli3Norm, ButteraugliDistance_float.
  destruct (ButteraugliDistance memory_manager a b ButteraugliParams_default FLT_MAX
              (Some ImageF_default) pool false w) as [[st [score d]] w'].
  cbn [fst snd] in *. subst st. injection Hout as -> ->.
  split; [reflexivity|].
  now apply ComputeDistanceP_empty.
Qed.

(** C5, as the code has it.  On inputs of unequal width or height, or
    else of unequal channel count, the [Status] overload of
    [ButteraugliDistance] returns a failure that carries the matching
    message and leaves the world and its outputs untouched;
    [ComputePSNR] signals no error: it prints the matching diagnostic
    and returns 0.0.  Neither makes a call into the library. *)
Theorem mismatch_rejected (memory_manager : option JxlMemoryManager)
        (a b : PackedPixelFile) (params : ButteraugliParams) (score : F)
        (distmap : option ImageF) (pool : option ThreadPool) (ignore_alpha : bool)
        (cms : JxlCmsInterface) (w : World) :
  (size_mismatch a b = true ->
   ButteraugliDistance memory_manager a b params score distmap pool ignore_alpha w
   = ((Failure "Images must have the same size for butteraugli.", (score, distmap)), w)
   /\ ComputePSNR memory_manager a b cms w
      = (f0, eprint "Images must have the same size for PSNR." w))
  /\ (size_mismatch a b = false -> channel_mismatch a b = true ->
      ButteraugliDistance memory_manager a b params score distmap pool ignore_alpha w
      = ((Failure "Grayscale vs RGB comparison not supported.", (score, distmap)), w)
      /\ ComputePSNR memory_manager a b cms w
         = (f0, eprint "Grayscale vs RGB comparison not supported." w))
  /\ (size_mismatch a b || channel_mismatch a b = true ->
      calls (snd (ButteraugliDistance memory_manager a b params score distmap pool
                                      ignore_alpha w)) = calls w
      /\ calls (snd (ComputePSNR memory_manager a b cms w)) = calls w).
Proof.
  assert (Hsize : size_mismatch a b = true ->
    ButteraugliDistance memory_manager a b params score distmap pool ignore_alpha w
    = ((Failure "Images must have the same size for butteraugli.", (score, distmap)), w)
    /\ ComputePSNR memory_manager a b cms w
       = (f0, eprint "Images must have the same size for PSNR." w)).
  { intros Hs. split.
    - unfold ButteraugliDistance. unfold size_mismatch in Hs. now rewrite Hs.
    - now rewrite ComputePSNR_cases, Hs. }
  assert (Hchan : size_mismatch a b = false -> channel_mismatch a b = true ->
    ButteraugliDistance memory_manager a b params score distmap pool ignore_alpha w
    = ((Failure "Grayscale vs RGB comparison not supported.", (score, distmap)), w)
    /\ ComputePSNR memory_manager a b cms w
       = (f0, eprint "Grayscale vs RGB comparison not supported." w)).
  { intros Hs Hc. split.
    - unfold ButteraugliDistance. unfold size_mismatch in Hs.
      unfold channel_mismatch in Hc. now rewrite Hs, Hc.
    - now rewrite ComputePSNR_cases, Hs, Hc. }
  split; [exact Hsize|]. split; [exact Hchan|].
  intros Hm. destruct (size_mismatch a b) eqn:Hs.
  - destruct (Hsize eq_refl) as [-> ->]. split; reflexivity.
  - cbn in Hm. destruct (Hchan eq_refl Hm) as [-> ->]. split; reflexivity.
Qed.
End Failures.

(** ** WeightedSumOfSquares and PSNR over the reals *)

Lemma map_flat_map_list {A B C} (h : B -> C) (f : A -> list B) (l : list A) :
  map h (flat_map f l) = flat_map (fun a => map h (f a)) l.
Proof.
  induction l as [|a l IH]; simpl; [reflexivity|].
  now rewrite map_app, IH.
Qed.

Section SumOfSquares.
Context {L : Lib R}.

Local Abbreviation Image3F := (Image3F R JxlMemoryManager).
Local Abbreviation PackedPixelFile := (PackedPixelFile Frames).

Lemma sum_of_squares_pixel_add3 (a b : Image3F) (y x : nat) (s : arr3 R) :
  sum_of_squares_pixel (fun j => ConstPlaneRow a j y) (fun j => ConstPlaneRow b j y) s x
  = add3 s (squares3 a b y x).
Proof.
  destruct s as [[s0 s1] s2].
  unfold sum_of_squares_pixel, squares3, weighted_diff, yuvmatrix, M_yuv, zero3, f0,
    fsub32, fadd32, fmul32.
  cbn. unfold Q2R. cbn. f_equal; [f_equal|]; field.
Qed.

Lemma accumulate_squares_eq (xs ys : N) (a b : Image3F) :
  accumulate_squares xs ys a b (f0, f0, f0)
  = (SumOfSquares_spec xs ys a b 0, SumOfSquares_spec xs ys a b 1,
     SumOfSquares_spec xs ys a b 2).
Proof.
  unfold accumulate_squares.
  rewrite (fold_left_add3 _
             (fun y => Rsum3 (map (squares3 a b y) (seq 0 (N.to_nat xs))))).
  2:{ intros s y _. apply fold_left_add3. intros s' x _.
      apply sum_of_squares_pixel_add3. }
  unfold f0. cbn [of_Z R_arith]. rewrite add3_zero_l.
  rewrite <- (Rsum3_flat (fun y => map (squares3 a b y) (seq 0 (N.to_nat xs)))).
  unfold Rsum3, SumOfSquares_spec. rewrite !map_flat_map_list.
  f_equal; [f_equal|]; apply (f_equal Rsum), flat_map_ext; intros y;
    now rewrite map_map.
Qed.

Lemma ComputeSumOfSquares_sums (memory_manager : option JxlMemoryManager)
      (a b : PackedPixelFile) (cms : JxlCmsInterface) (before : arr3 R) (w w' : World)
      (srgb0 srgb1 : Image3F) :
  to_sRGB memory_manager a b cms w = (Ok (srgb0, srgb1), w') ->
  ComputeSumOfSquares memory_manager a b cms before w
  = ((Ok tt,
      (SumOfSquares_spec (ppf_xsize a) (ppf_ysize a) srgb0 srgb1 0,
       SumOfSquares_spec (ppf_xsize a) (ppf_ysize a) srgb0 srgb1 1,
       SumOfSquares_spec (ppf_xsize a) (ppf_ysize a) srgb0 srgb1 2)), w').
Proof.
  intros Hconv. unfold ComputeSumOfSquares. rewrite Hconv.
  now rewrite accumulate_squares_eq.
Qed.

Lemma psnr_average_spec (sums : arr3 R) (n : R) :
  psnr_average sums n = PSNR_spec sums n.
Proof.
  unfold psnr_average, psnr_channel, PSNR_spec, PSNR_channel_spec, f0, f1.
  cbn -[get3]. unfold Reqb, clog10, Q2R. cbn -[get3].
  destruct (Req_dec_T (get3 sums 0) 0), (Req_dec_T (get3 sums 1) 0),
    (Req_dec_T (get3 sums 2) 0); field; try (apply Rgt_not_eq; lra).
  all: assert (0 < ln 10) by (rewrite <- ln_1; apply ln_increasing; lra); lra.
Qed.

(** Conversion is a function of its input: the same input twice gives
    the same planar image twice. *)
Lemma to_sRGB_same (memory_manager : option JxlMemoryManager) (a : PackedPixelFile)
      (cms : JxlCmsInterface) (w w' : World) (srgb0 srgb1 : Image3F) :
  to_sRGB memory_manager a a cms w = (Ok (srgb0, srgb1), w') -> srgb0 = srgb1.
Proof.
  unfold to_sRGB, bind, call, ret. cbn.
  destruct (Image3F_Create memory_manager (ppf_xsize a) (ppf_ysize a)) as [i0 | e];
    [|discriminate].
  destruct (ConvertPackedPixelFileToImage3F a i0 None) as [c0 | e]; [|discriminate].
  destruct (GetColorEncoding a) as [enc | e]; [|discriminate].
  destruct (negb (SameColorEncoding enc
                    (ColorEncoding_SRGB (num_color_channels (info a) =? 1)%N))).
  - destruct (ApplyColorTransform enc (GetIntensityTarget a enc) c0 (Rect_of c0)
                (ColorEncoding_SRGB (num_color_channels (info a) =? 1)%N) cms None)
      as [t0 | e]; [|discriminate].
    intros H. injection H as <- <- _. reflexivity.
  - intros H. injection H as <- <- _. reflexivity.
Qed.

Lemma SumOfSquares_spec_same (xs ys : N) (a : Image3F) (j : nat) :
  SumOfSquares_spec xs ys a a j = 0.
Proof.
  unfold SumOfSquares_spec. rewrite Rsum_flat_map.
  rewrite (Rsum_map_ext _ (fun _ => 0)).
  - rewrite Rsum_const. ring.
  - intros y _. rewrite (Rsum_map_ext _ (fun _ => 0)).
    + rewrite Rsum_const. ring.
    + intros x _. unfold weighted_diff. cbn -[get3 M_yuv]. ring.
Qed.

Lemma not_mismatch_same (a : PackedPixelFile) :
  size_mismatch a a = false /\ channel_mismatch a a = false.
Proof.
  unfold size_mismatch, channel_mismatch. now rewrite !N.eqb_refl.
Qed.

(** C4. On inputs of equal size and channel count for which
    [ComputeSumOfSquares] succeeds, [ComputePSNR] returns the average,
    with weights 6/8, 1/8 and 1/8, of the channel values
    [99.99] where the sum is 0 and [20 * log10(1 / rmse)] with
    [rmse = sqrt(sum / pixelCount)] elsewhere.  On two identical
    inputs all three sums are 0 and the result is 99.99. *)
Theorem ComputePSNR_formula (memory_manager : option JxlMemoryManager)
        (a b : PackedPixelFile) (cms : JxlCmsInterface) (w : World) :
  (size_mismatch a b = false -> channel_mismatch a b = false ->
   (ppf_xsize a * ppf_ysize a < 2 ^ 64)%N ->
   forall u sums w',
     ComputeSumOfSquares memory_manager a b cms zero3 w = ((Ok u, sums), w') ->
     ComputePSNR memory_manager a b cms w
     = (PSNR_spec sums (IZR (Z.of_N (ppf_xsize a * ppf_ysize a))), w'))
  /\ (forall srgb0 srgb1 w',
      to_sRGB memory_manager a a cms w = (Ok (srgb0, srgb1), w') ->
      ComputeSumOfSquares memory_manager a a cms zero3 w = ((Ok tt, (0, 0, 0)), w')
      /\ ComputePSNR memory_manager a a cms w = (9999 / 100, w')).
Proof.
  split.
  - intros Hs Hc Hfit u sums w' Hrun.
    rewrite ComputePSNR_cases, Hs, Hc, Hrun, psnr_average_spec.
    unfold size_mul. now rewrite N.mod_small by exact Hfit.
  - intros srgb0 srgb1 w' Hconv.
    pose proof Hconv as Heq. apply to_sRGB_same in Heq. subst srgb1.
    assert (Hrun : ComputeSumOfSquares memory_manager a a cms zero3 w
                   = ((Ok tt, (0, 0, 0)), w')).
    { erewrite ComputeSumOfSquares_sums by exact Hconv.
      now rewrite !SumOfSquares_spec_same. }
    split; [exact Hrun|].
    destruct (not_mismatch_same a) as [Hs Hc].
    rewrite ComputePSNR_cases, Hs, Hc, Hrun, psnr_average_spec.
    f_equal. unfold PSNR_spec, PSNR_channel_spec. cbn.
    destruct (Req_dec_T 0 0) as [_ | H]; [field | now elim H].
Qed.
End SumOfSquares.

(** ** Constant and all-zero difference maps *)

Lemma cpow_pos (x y : R) : 0 < x -> y <> 0 -> cpow x y = Rpower x y.
Proof.
  intros Hx Hy. unfold cpow.
  destruct (Req_dec_T y 0) as [H | _]; [contradiction|].
  destruct (Rlt_dec 0 x) as [_ | H]; [reflexivity | contradiction].
Qed.

Lemma cpow_zero (y : R) : 0 < y -> cpow 0 y = 0.
Proof.
  intros Hy. unfold cpow.
  destruct (Req_dec_T y 0) as [H | _]; [lra|].
  destruct (Rlt_dec 0 0) as [H | _]; [lra|].
  destruct (Req_dec_T 0 0) as [_ | H]; [reflexivity | now elim H].
Qed.

Lemma Rpower_pos (x y : R) : 0 < Rpower x y.
Proof. unfold Rpower. apply exp_pos. Qed.


Section ConstantMaps.
Context {L : Lib R}.

Local Abbreviation ImageF := (ImageF R JxlMemoryManager).

Lemma Rsum_pixels_constant (distmap : ImageF) (v : R) (f : R -> R) :
  constant distmap v ->
  Rsum (map f (pixels distmap))
  = IZR (Z.of_N (xsize distmap * ysize distmap)) * f v.
Proof.
  intros Hc. unfold pixels. rewrite map_flat_map_list, Rsum_flat_map.
  rewrite (Rsum_map_ext _ (fun _ => INR (N.to_nat (xsize distmap)) * f v)).
  - rewrite Rsum_const, length_seq.
    rewrite N2Z.inj_mul, mult_IZR, <- !N_nat_Z, <- !INR_IZR_INZ. ring.
  - intros y Hy. apply in_seq in Hy. rewrite map_map.
    rewrite (Rsum_map_ext _ (fun _ => f v)).
    + now rewrite Rsum_const, length_seq.
    + intros x Hx. apply in_seq in Hx. rewrite Hc by lia. reflexivity.
Qed.

Lemma Rsum3_pixels_constant (distmap : ImageF) (v : R) (g : R -> R) :
  constant distmap v ->
  let n := IZR (Z.of_N (xsize distmap * ysize distmap)) in
  let t := g v in
  Rsum3 (map (fun d => terms (g d)) (pixels distmap))
  = (n * t, n * (t * t), n * (t * t * (t * t))).
Proof.
  intros Hc n t. unfold Rsum3. rewrite !map_map.
  rewrite (Rsum_pixels_constant (fun d => get3 (terms (g d)) 0) Hc).
  rewrite (Rsum_pixels_constant (fun d => get3 (terms (g d)) 1) Hc).
  rewrite (Rsum_pixels_constant (fun d => get3 (terms (g d)) 2) Hc).
  reflexivity.
Qed.

Lemma pixel_count_pos (distmap : ImageF) :
  xsize distmap <> 0%N -> ysize distmap <> 0%N ->
  0 < IZR (Z.of_N (xsize distmap * ysize distmap)).
Proof.
  intros Hx Hy. apply IZR_lt. lia.
Qed.

Lemma pooled_constant (n t p : R) :
  0 < n ->
  pooled n (n * t, n * (t * t), n * (t * t * (t * t))) p
  = (cpow t (1 / p) + cpow (t * t) (1 / (2 * p)) + cpow (t * t * (t * t)) (1 / (4 * p)))
    / 3.
Proof.
  intros Hn. unfold pooled. cbn [get3].
  replace (n * t / n) with t by (field; lra).
  replace (n * (t * t) / n) with (t * t) by (field; lra).
  replace (n * (t * t * (t * t)) / n) with (t * t * (t * t)) by (field; lra).
  reflexivity.
Qed.

Lemma pooled_zero (n p : R) :
  0 < n -> 0 < p -> pooled n (n * 0, n * (0 * 0), n * (0 * 0 * (0 * 0))) p = 0.
Proof.
  intros Hn Hp. rewrite pooled_constant by exact Hn.
  rewrite !Rmult_0_l.
  rewrite !cpow_zero; [field | | |]; apply Rdiv_lt_0_compat; lra.
Qed.



Lemma fast_path_zero (distmap : ImageF) (p : R) :
  constant distmap 0 ->
  xsize distmap <> 0%N -> ysize distmap <> 0%N ->
  0 < p ->
  fast_path distmap (1 / IZR (Z.of_N (xsize distmap * ysize distmap))) p = 0.
Proof.
  intros Hc Hx Hy Hp.
  pose proof (pixel_count_pos distmap Hx Hy) as Hn.
  rewrite fast_path_eq, (Rsum3_pixels_constant cube Hc). cbn zeta.
  replace (cube 0) with 0 by (unfold cube; ring).
  now apply pooled_zero.
Qed.
End ConstantMaps.

Section ConstantMapScore.
Context {L : Lib R}.

Local Abbreviation ImageF := (ImageF R JxlMemoryManager).

Lemma empty_map_false_inv (distmap : ImageF) :
  empty_map distmap = false -> xsize distmap <> 0%N /\ ysize distmap <> 0%N.
Proof.
  unfold empty_map. intros H. apply orb_false_elim in H as [Hx Hy].
  now apply N.eqb_neq in Hx, Hy.
Qed.
End ConstantMapScore.

(** ** Powers with a non-negative base *)

Lemma cpow_apow (d q : R) : 0 <= d -> 0 < q -> cpow d q = apow d q.
Proof.
  intros Hd Hq. unfold apow. destruct (Rlt_dec 0 d) as [Hpos | Hnpos].
  - rewrite cpow_pos; [reflexivity | exact Hpos | lra].
  - replace d with 0 by lra. now apply cpow_zero.
Qed.



Lemma terms_nonneg (t : R) (k : nat) : 0 <= t -> 0 <= get3 (terms t) k.
Proof.
  intros Ht. unfold terms. destruct k as [|[|k]]; cbn; nra.
Qed.

(** ** Non-negative maps *)

Section NonnegativeMaps.
Context {L : Lib R}.

Local Abbreviation ImageF := (ImageF R JxlMemoryManager).

End NonnegativeMaps.

(** ** Runs on concrete inputs *)

(** Two pixels, reference all 1, candidate all 0, in exact arithmetic,
    where the entries of the matrix are the decimal numbers of the
    source text: the luma row adds up to 1, the first chroma row to
    0.00001 and the second to 0. *)
Example sums_of_ones_against_zeros :
  ComputeSumOfSquares (L := TestLib.lib) (Some tt) (TestLib.flat_image 2 1 3 1)
                      (TestLib.flat_image 2 1 3 0) tt zero3 TestLib.w0
  = ((Ok tt, (2, 2 / 10000000000, 0)), TestLib.converted).
Proof.
  rewrite (@ComputeSumOfSquares_sums TestLib.lib (Some tt) (TestLib.flat_image 2 1 3 1)
             (TestLib.flat_image 2 1 3 0) tt zero3 TestLib.w0 TestLib.converted
             (TestLib.planar 2 1 1) (TestLib.planar 2 1 0)) by reflexivity.
  unfold SumOfSquares_spec, weighted_diff.
  cbn. change (Pos.to_nat 2) with 2%nat. change (Pos.to_nat 1) with 1%nat. cbn.
  f_equal. f_equal. f_equal; [f_equal|]; field.
Qed.

Lemma ComputePSNR_formula_witness :
  ComputePSNR (L := TestLib.lib) (Some tt) (TestLib.flat_image 2 1 3 (1 / 2))
              (TestLib.flat_image 2 1 3 (1 / 2)) tt TestLib.w0
  = (9999 / 100, TestLib.converted)
  /\ ComputePSNR (L := TestLib.lib) (Some tt) (TestLib.flat_image 2 1 3 1)
                 (TestLib.flat_image 2 1 3 0) tt TestLib.w0
     = (PSNR_spec (2, 2 / 10000000000, 0) (IZR (Z.of_N (2 * 1))), TestLib.converted).
Proof.
  split.
  - destruct (@ComputePSNR_formula TestLib.lib (Some tt)
                (TestLib.flat_image 2 1 3 (1 / 2)) (TestLib.flat_image 2 1 3 (1 / 2))
                tt TestLib.w0) as [_ Hsame].
    apply (Hsame (TestLib.planar 2 1 (1 / 2)) (TestLib.planar 2 1 (1 / 2))
                 TestLib.converted).
    reflexivity.
  - destruct (@ComputePSNR_formula TestLib.lib (Some tt)
                (TestLib.flat_image 2 1 3 1) (TestLib.flat_image 2 1 3 0)
                tt TestLib.w0) as [Hform _].
    apply (Hform eq_refl eq_refl eq_refl tt). exact sums_of_ones_against_zeros.
Defined.

Lemma ComputeSumOfSquares_sentinel_witness :
  snd (fst (ComputeSumOfSquares (L := TestLib.lib) None (TestLib.flat_image 2 1 3 1)
                                (TestLib.flat_image 2 1 3 0) tt (7, 7, 7) TestLib.w0))
  = (DBL_MAX, DBL_MAX, DBL_MAX).
Proof.
  destruct (@ComputeSumOfSquares_sentinel R R_arith TestLib.lib None
              (TestLib.flat_image 2 1 3 1) (TestLib.flat_image 2 1 3 0) tt (7, 7, 7)
              TestLib.w0) as [Hfail _].
  apply (Hfail "Image3F::Create: no memory manager"%string). reflexivity.
Defined.

Lemma lenient_entry_points_witness :
  ButteraugliDistance_float (L := TestLib.lib) (Some tt) (TestLib.flat_image 2 2 3 0)
                            (TestLib.flat_image 3 2 3 0) tt None None false TestLib.w0
  = ((FLT_MAX, None), eprint ("ButteraugliDistance failed." ++ LF) TestLib.w0)
  /\ ComputePSNR (L := TestLib.lib) (Some tt) (TestLib.flat_image 2 2 3 0)
                 (TestLib.flat_image 2 2 1 0) tt TestLib.w0
     = (0, eprint "Grayscale vs RGB comparison not supported." TestLib.w0).
Proof.
  split.
  - destruct (@lenient_entry_points R R_arith TestLib.lib (Some tt)
                (TestLib.flat_image 2 2 3 0) (TestLib.flat_image 3 2 3 0) tt None None
                false tt TestLib.w0) as (Hfail & _).
    apply (Hfail "Images must have the same size for butteraugli."%string
                 (FLT_MAX, None)).
    reflexivity.
  - destruct (@lenient_entry_points R R_arith TestLib.lib (Some tt)
                (TestLib.flat_image 2 2 3 0) (TestLib.flat_image 2 2 1 0) tt None None
                false tt TestLib.w0) as (_ & _ & _ & Hchan & _).
    apply Hchan; reflexivity.
Defined.

Lemma Butteraugli3Norm_swallows_failure_witness :
  Butteraugli3Norm (L := TestLib.lib) (Some tt) (TestLib.flat_image 2 2 3 0)
                   (TestLib.flat_image 3 2 3 0) None TestLib.w0
  = (Ok 0, mkWorld ["ButteraugliDistance failed." ++ LF]%string 0 []).
Proof.
  apply (@Butteraugli3Norm_swallows_failure R R_arith TestLib.lib (Some tt)
           (TestLib.flat_image 2 2 3 0) (TestLib.flat_image 3 2 3 0) None TestLib.w0
           "Images must have the same size for butteraugli."%string).
  reflexivity.
Defined.

Lemma mismatch_rejected_witness :
  ButteraugliDistance (L := TestLib.lib) (Some tt) (TestLib.flat_image 2 2 3 0)
                      (TestLib.flat_image 2 2 1 0) tt 0 None None false TestLib.w0
  = ((Failure "Grayscale vs RGB comparison not supported.", (0, None)), TestLib.w0)
  /\ ComputePSNR (L := TestLib.lib) (Some tt) (TestLib.flat_image 2 2 3 0)
                 (TestLib.flat_image 2 2 1 0) tt TestLib.w0
     = (0, eprint "Grayscale vs RGB comparison not supported." TestLib.w0).
Proof.
  destruct (@mismatch_rejected R R_arith TestLib.lib (Some tt)
              (TestLib.flat_image 2 2 3 0) (TestLib.flat_image 2 2 1 0) tt 0 None None
              false tt TestLib.w0) as (_ & Hchan & _).
  apply Hchan; reflexivity.
Defined.

(** C5 as the specification states it fails for [ComputePSNR]: on
    inputs of widths 2 and 3 it returns the number 0.0 and prints a
    diagnostic; no error is signalled. *)
Lemma ComputePSNR_signals_no_error :
  size_mismatch (L := TestLib.lib) (TestLib.flat_image 2 2 3 0)
                (TestLib.flat_image 3 2 3 0) = true
  /\ ComputePSNR (L := TestLib.lib) (Some tt) (TestLib.flat_image 2 2 3 0)
                 (TestLib.flat_image 3 2 3 0) tt TestLib.w0
     = (0, mkWorld ["Images must have the same size for PSNR."%string] 0 [])
  /\ ~ signals_error
       (returned (fst (ComputePSNR (L := TestLib.lib) (Some tt)
                                   (TestLib.flat_image 2 2 3 0)
                                   (TestLib.flat_image 3 2 3 0) tt TestLib.w0))).
Proof.
  split; [reflexivity|]. split; [reflexivity|].
  intros (msg & H). discriminate H.
Qed.


(** Two identical gray images of 4 by 4 samples 0.5 through
    [Butteraugli3Norm]: the stand-in comparator reports an all-zero
    difference map and the score is 0. *)
Example Butteraugli3Norm_identical :
  fst (Butteraugli3Norm (L := TestLib.lib) (Some tt) (TestLib.flat_image 4 4 1 (1 / 2))
                        (TestLib.flat_image 4 4 1 (1 / 2)) None TestLib.w0)
  = Ok 0.
Proof.
  unfold Butteraugli3Norm, ButteraugliDistance_float, ButteraugliDistance.
  cbn -[ComputeDistanceP IZR Rabs].
  match goal with
  | |- fst (ComputeDistanceP ?d ?ps ?p ?w) = _ =>
      rewrite (@ComputeDistanceP_fast R R_arith TestLib.lib d ps p w tt);
        try reflexivity
  end.
  - cbn [fst]. f_equal. rewrite (@onePerPixels_of_R TestLib.lib) by reflexivity.
    apply (@fast_path_zero TestLib.lib).
    + intros y x _ _. cbn. rewrite Rminus_diag. apply Rabs_R0.
    + discriminate.
    + discriminate.
    + lra.
  - apply near_3_true. rewrite Rminus_diag, Rabs_R0. lra.
Qed.

(** * Further properties of lib/extras/metrics.cc *)

(** ** The sums of squares *)

Lemma Rsum_squares_nonneg {A} (f : A -> R) (l : list A) :
  0 <= Rsum (map (fun a => f a * f a) l).
Proof.
  apply Rsum_nonneg. intros r Hr. apply in_map_iff in Hr as (a & <- & _). nra.
Qed.

Section SumOfSquaresFacts.
Context {L : Lib R}.

Local Abbreviation Image3F := (Image3F R JxlMemoryManager).
Local Abbreviation PackedPixelFile := (PackedPixelFile Frames).

Lemma SumOfSquares_spec_nonneg (xs ys : N) (a b : Image3F) (j : nat) :
  0 <= SumOfSquares_spec xs ys a b j.
Proof.
  unfold SumOfSquares_spec. rewrite Rsum_flat_map.
  apply Rsum_nonneg. intros r Hr. apply in_map_iff in Hr as (y & <- & _).
  apply Rsum_squares_nonneg.
Qed.

Lemma DBL_MAX_pos : 0 < DBL_MAX (F := R).
Proof. unfold DBL_MAX. cbn [of_Z R_arith]. apply IZR_lt. reflexivity. Qed.

Lemma sums_nonneg (memory_manager : option JxlMemoryManager)
      (a b : PackedPixelFile) (cms : JxlCmsInterface) (before : arr3 R) (w : World)
      (j : nat) :
  0 <= get3 (snd (fst (ComputeSumOfSquares memory_manager a b cms before w))) j.
Proof.
  destruct (to_sRGB memory_manager a b cms w) as [[[srgb0 srgb1] | msg] w'] eqn:Hconv.
  - erewrite ComputeSumOfSquares_sums by exact Hconv. cbn [fst snd].
    destruct j as [|[|j]]; cbn [get3]; apply SumOfSquares_spec_nonneg.
  - unfold ComputeSumOfSquares. rewrite Hconv. cbn [fst snd].
    pose proof DBL_MAX_pos.
    destruct j as [|[|j]]; cbn [get3]; lra.
Qed.

(** X1. Whatever [ComputeSumOfSquares] returns, success or error, none
    of the three sums it leaves in the output array is negative. *)
Theorem ComputeSumOfSquares_nonneg (memory_manager : option JxlMemoryManager)
        (a b : PackedPixelFile) (cms : JxlCmsInterface) (before : arr3 R) (w : World)
        (j : nat) :
  0 <= get3 (snd (fst (ComputeSumOfSquares memory_manager a b cms before w))) j.
Proof. apply sums_nonneg. Qed.

Lemma Rsum_frame_ext (xs ys : nat) (f g : nat -> nat -> R) :
  (forall y x, (y < ys)%nat -> (x < xs)%nat -> f y x = g y x) ->
  Rsum (flat_map (fun y => map (f y) (seq 0 xs)) (seq 0 ys))
  = Rsum (flat_map (fun y => map (g y) (seq 0 xs)) (seq 0 ys)).
Proof.
  intros Hfg. rewrite !Rsum_flat_map. apply Rsum_map_ext. intros y Hy.
  apply in_seq in Hy. apply Rsum_map_ext. intros x Hx. apply in_seq in Hx.
  apply Hfg; lia.
Qed.

Lemma Rsum_scal (c : R) (l : list R) : Rsum (map (fun r => c * r) l) = c * Rsum l.
Proof.
  induction l as [|r l IH]; simpl; [ring|]. rewrite IH. ring.
Qed.

Lemma Rsum_frame_scal (xs ys : nat) (c : R) (f : nat -> nat -> R) :
  Rsum (flat_map (fun y => map (fun x => c * f y x) (seq 0 xs)) (seq 0 ys))
  = c * Rsum (flat_map (fun y => map (f y) (seq 0 xs)) (seq 0 ys)).
Proof.
  rewrite !Rsum_flat_map, <- Rsum_scal, map_map.
  apply Rsum_map_ext. intros y _. now rewrite <- Rsum_scal, map_map.
Qed.

Lemma weighted_diff_gray (xs ys : N) (a b : Image3F) (y x : nat) :
  gray_difference xs ys a b ->
  (y < N.to_nat ys)%nat -> (x < N.to_nat xs)%nat ->
  let d := ConstPlaneRow a 0 y x - ConstPlaneRow b 0 y x in
  weighted_diff 0 a b y x = d
  /\ weighted_diff 1 a b y x = d / 100000
  /\ weighted_diff 2 a b y x = 0.
Proof.
  intros Hg Hy Hx d. unfold weighted_diff. cbn -[ConstPlaneRow].
  rewrite (Hg y x 1%nat), (Hg y x 2%nat) by lia. fold d.
  repeat split; field.
Qed.

Lemma gray_sums (memory_manager : option JxlMemoryManager)
        (a b : PackedPixelFile) (cms : JxlCmsInterface) (before : arr3 R) (w w' : World)
        (srgb0 srgb1 : Image3F) :
  to_sRGB memory_manager a b cms w = (Ok (srgb0, srgb1), w') ->
  gray_difference (ppf_xsize a) (ppf_ysize a) srgb0 srgb1 ->
  let S := squared_difference (ppf_xsize a) (ppf_ysize a) srgb0 srgb1 in
  ComputeSumOfSquares memory_manager a b cms before w
  = ((Ok tt, (S, S / 10000000000, 0)), w').
Proof.
  intros Hconv Hg S. erewrite ComputeSumOfSquares_sums by exact Hconv.
  unfold SumOfSquares_spec, S, squared_difference.
  set (d := fun y x => ConstPlaneRow srgb0 0 y x - ConstPlaneRow srgb1 0 y x).
  rewrite (Rsum_frame_ext _ (fun y x => d y x * d y x)).
  2:{ intros y x Hy Hx. destruct (weighted_diff_gray Hg Hy Hx) as (-> & _). reflexivity. }
  rewrite (Rsum_frame_ext (fun y x => weighted_diff 1 srgb0 srgb1 y x * _)
                          (fun y x => / 10000000000 * (d y x * d y x))).
  2:{ intros y x Hy Hx. destruct (weighted_diff_gray Hg Hy Hx) as (_ & -> & _).
      fold (d y x). field. }
  rewrite (Rsum_frame_ext (fun y x => weighted_diff 2 srgb0 srgb1 y x * _)
                          (fun y x => 0 * (d y x * d y x))).
  2:{ intros y x Hy Hx. destruct (weighted_diff_gray Hg Hy Hx) as (_ & _ & ->). ring. }
  rewrite !Rsum_frame_scal.
  subst d. cbv beta. f_equal. f_equal. f_equal; [f_equal|]; try reflexivity; unfold Rdiv; ring.
Qed.
End SumOfSquaresFacts.

(** ** PSNR *)

Lemma ln_10_pos : 0 < ln 10.
Proof. rewrite <- ln_1. apply ln_increasing; lra. Qed.

Lemma ln_100000 : ln 100000 = 5 * ln 10.
Proof.
  replace 100000 with (10 ^ 5) by (simpl; ring).
  rewrite ln_pow by lra. simpl INR. ring.
Qed.

(** A channel with a small non-zero sum scores at least 100. *)
Lemma PSNR_channel_spec_small (s n : R) :
  0 < s -> s <= n / 10000000000 -> 100 <= PSNR_channel_spec s n.
Proof.
  intros Hs Hsmall. unfold PSNR_channel_spec.
  destruct (Req_dec_T s 0) as [H | _]; [lra|].
  assert (Hn : 0 < n) by lra.
  assert (Hq : 0 < s / n) by now apply Rdiv_lt_0_compat.
  assert (Hr : 0 < sqrt (s / n)) by now apply sqrt_lt_R0.
  assert (Hle : sqrt (s / n) <= / 100000).
  { rewrite <- (sqrt_square (/ 100000)) by lra. apply sqrt_le_1_alt.
    apply Rmult_le_reg_r with n; [exact Hn|].
    replace (s / n * n) with s by (field; lra). lra. }
  assert (Hinv : 100000 <= 1 / sqrt (s / n)).
  { apply Rmult_le_reg_r with (sqrt (s / n)); [exact Hr|].
    replace (1 / sqrt (s / n) * sqrt (s / n)) with 1 by (field; lra). nra. }
  assert (Hln : 5 * ln 10 <= ln (1 / sqrt (s / n))).
  { rewrite <- ln_100000. destruct Hinv as [Hlt | <-]; [|lra].
    left. apply ln_increasing; lra. }
  pose proof ln_10_pos as H10.
  apply Rmult_le_reg_r with (ln 10); [exact H10|].
  replace (20 * (ln (1 / sqrt (s / n)) / ln 10) * ln 10)
    with (20 * ln (1 / sqrt (s / n))) by (field; lra).
  lra.
Qed.

Section PsnrFacts.
Context {L : Lib R}.

Local Abbreviation Image3F := (Image3F R JxlMemoryManager).
Local Abbreviation PackedPixelFile := (PackedPixelFile Frames).

Lemma Rsum_frame_empty (xs ys : nat) (f : nat -> nat -> R) :
  xs = 0%nat \/ ys = 0%nat ->
  Rsum (flat_map (fun y => map (f y) (seq 0 xs)) (seq 0 ys)) = 0.
Proof.
  intros [-> | ->]; [|reflexivity].
  rewrite Rsum_flat_map. cbn [seq map Rsum fold_right].
  rewrite Rsum_const. ring.
Qed.

Lemma ComputePSNR_ok (memory_manager : option JxlMemoryManager)
      (a b : PackedPixelFile) (cms : JxlCmsInterface) (w w' : World) (u : unit)
      (sums : arr3 R) :
  size_mismatch a b = false -> channel_mismatch a b = false ->
  (ppf_xsize a * ppf_ysize a < 2 ^ 64)%N ->
  ComputeSumOfSquares memory_manager a b cms zero3 w = ((Ok u, sums), w') ->
  ComputePSNR memory_manager a b cms w
  = (PSNR_spec sums (IZR (Z.of_N (ppf_xsize a * ppf_ysize a))), w').
Proof.
  intros Hs Hc Hfit Hrun.
  rewrite ComputePSNR_cases, Hs, Hc, Hrun, psnr_average_spec.
  unfold size_mul. now rewrite N.mod_small by exact Hfit.
Qed.

Lemma PSNR_channel_spec_floor (s n : R) :
  0 <= s -> s <= n / 10000000000 -> 9999 / 100 <= PSNR_channel_spec s n.
Proof.
  intros Hs Hsmall. destruct (Rle_lt_or_eq_dec 0 s Hs) as [Hpos | <-].
  - pose proof (PSNR_channel_spec_small Hpos Hsmall). lra.
  - unfold PSNR_channel_spec. destruct (Req_dec_T 0 0) as [_ | H]; [lra | now elim H].
Qed.

(** X4. 99.99 is no upper bound of [ComputePSNR]: when no channel has
    a mean squared difference above [10^-10] and some channel has a
    non-zero sum, the result is above 99.99, the score of two
    identical inputs. *)
Theorem ComputePSNR_above_identical (memory_manager : option JxlMemoryManager)
        (a b : PackedPixelFile) (cms : JxlCmsInterface) (w w' : World) (u : unit)
        (sums : arr3 R) :
  size_mismatch a b = false -> channel_mismatch a b = false ->
  (ppf_xsize a * ppf_ysize a < 2 ^ 64)%N ->
  ComputeSumOfSquares memory_manager a b cms zero3 w = ((Ok u, sums), w') ->
  let n := IZR (Z.of_N (ppf_xsize a * ppf_ysize a)) in
  (forall j, get3 sums j <= n / 10000000000) ->
  (exists j, get3 sums j <> 0) ->
  9999 / 100 < fst (ComputePSNR memory_manager a b cms w).
Proof.
  intros Hs Hc Hfit Hrun n Hsmall (j & Hj).
  rewrite (@ComputePSNR_ok memory_manager a b cms w w' u sums Hs Hc Hfit Hrun).
  cbn [fst]. fold n.
  assert (Hnn : forall k, 0 <= get3 sums k).
  { intros k. pose proof (sums_nonneg memory_manager a b cms zero3 w k) as H.
    now rewrite Hrun in H. }
  assert (Hfloor : forall k, 9999 / 100 <= PSNR_channel_spec (get3 sums k) n)
    by (intros k; apply PSNR_channel_spec_floor; auto).
  assert (Hbig : 100 <= PSNR_channel_spec (get3 sums j) n).
  { apply PSNR_channel_spec_small; [|apply Hsmall].
    destruct (Hnn j) as [Hlt | Heq]; [exact Hlt | now elim Hj]. }
  unfold PSNR_spec.
  pose proof (Hfloor 0%nat). pose proof (Hfloor 1%nat). pose proof (Hfloor 2%nat).
  destruct sums as [[s0 s1] s2]. destruct j as [|[|j]]; cbn [get3] in *; lra.
Qed.

(** X5. On two inputs without pixels (width or height 0) whose
    conversion succeeds, [ComputePSNR] returns 99.99: every sum is
    empty, and the quotient by the pixel count 0 is never used. *)
Theorem ComputePSNR_empty (memory_manager : option JxlMemoryManager)
        (a b : PackedPixelFile) (cms : JxlCmsInterface) (w w' : World)
        (srgb0 srgb1 : Image3F) :
  size_mismatch a b = false -> channel_mismatch a b = false ->
  ppf_xsize a = 0%N \/ ppf_ysize a = 0%N ->
  to_sRGB memory_manager a b cms w = (Ok (srgb0, srgb1), w') ->
  ComputePSNR memory_manager a b cms w = (9999 / 100, w').
Proof.
  intros Hs Hc Hempty Hconv.
  assert (Hfit : (ppf_xsize a * ppf_ysize a < 2 ^ 64)%N)
    by (destruct Hempty as [-> | ->]; [|rewrite N.mul_0_r]; reflexivity).
  assert (Hrun : ComputeSumOfSquares memory_manager a b cms zero3 w
                 = ((Ok tt, (0, 0, 0)), w')).
  { erewrite ComputeSumOfSquares_sums by exact Hconv. unfold SumOfSquares_spec.
    rewrite !Rsum_frame_empty; [reflexivity | | |];
      (destruct Hempty as [-> | ->]; [left | right]; reflexivity). }
  rewrite (@ComputePSNR_ok memory_manager a b cms w w' tt (0, 0, 0) Hs Hc Hfit Hrun).
  f_equal.
  unfold PSNR_spec, PSNR_channel_spec. cbn [get3].
  destruct (Req_dec_T 0 0) as [_ | H]; [field | now elim H].
Qed.

Lemma size_mismatch_sym (a b : PackedPixelFile) : size_mismatch a b = size_mismatch b a.
Proof.
  unfold size_mismatch.
  now rewrite (N.eqb_sym (ppf_xsize a)), (N.eqb_sym (ppf_ysize a)).
Qed.

Lemma channel_mismatch_sym (a b : PackedPixelFile) :
  channel_mismatch a b = channel_mismatch b a.
Proof. unfold channel_mismatch. now rewrite N.eqb_sym. Qed.

Lemma no_mismatch_eq (a b : PackedPixelFile) :
  size_mismatch a b = false -> channel_mismatch a b = false ->
  ppf_xsize a = ppf_xsize b /\ ppf_ysize a = ppf_ysize b
  /\ num_color_channels (info a) = num_color_channels (info b).
Proof.
  unfold size_mismatch, channel_mismatch. intros Hs Hc.
  apply orb_false_elim in Hs as [Hx Hy].
  apply negb_false_iff, N.eqb_eq in Hx, Hy, Hc. auto.
Qed.

(** The conversion stage on [(a, b)] and on [(b, a)]: both fail, or
    both succeed with the two planar images exchanged; it never writes
    to stderr. *)
Lemma to_sRGB_swap (memory_manager : option JxlMemoryManager) (a b : PackedPixelFile)
      (cms : JxlCmsInterface) (w : World) :
  ppf_xsize a = ppf_xsize b -> ppf_ysize a = ppf_ysize b ->
  num_color_channels (info a) = num_color_channels (info b) ->
  match fst (to_sRGB memory_manager a b cms w), fst (to_sRGB memory_manager b a cms w) with
  | Ok (s0, s1), Ok (t0, t1) => t0 = s1 /\ t1 = s0
  | Failure _, Failure _ => True
  | _, _ => False
  end.
Proof.
  intros Hx Hy Hc. unfold to_sRGB, bind, call, ret. rewrite <- Hx, <- Hy, <- Hc. cbn.
  destruct (Image3F_Create memory_manager (ppf_xsize a) (ppf_ysize a)) as [i | e];
    cbn; [|exact I].
  destruct (ConvertPackedPixelFileToImage3F a i None) as [ca | e],
           (ConvertPackedPixelFileToImage3F b i None) as [cb | e']; cbn; try exact I.
  destruct (GetColorEncoding a) as [ea | e], (GetColorEncoding b) as [eb | e'];
    cbn; try exact I.
  destruct (negb (SameColorEncoding ea
                    (ColorEncoding_SRGB (num_color_channels (info a) =? 1)%N))),
           (negb (SameColorEncoding eb
                    (ColorEncoding_SRGB (num_color_channels (info a) =? 1)%N))); cbn.
  - destruct (ApplyColorTransform ea (GetIntensityTarget a ea) ca (Rect_of ca)
                (ColorEncoding_SRGB (num_color_channels (info a) =? 1)%N) cms None)
      as [ta | e],
             (ApplyColorTransform eb (GetIntensityTarget b eb) cb (Rect_of cb)
                (ColorEncoding_SRGB (num_color_channels (info a) =? 1)%N) cms None)
      as [tb | e']; cbn; auto.
  - destruct (ApplyColorTransform ea (GetIntensityTarget a ea) ca (Rect_of ca)
                (ColorEncoding_SRGB (num_color_channels (info a) =? 1)%N) cms None)
      as [ta | e]; cbn; auto.
  - destruct (ApplyColorTransform eb (GetIntensityTarget b eb) cb (Rect_of cb)
                (ColorEncoding_SRGB (num_color_channels (info a) =? 1)%N) cms None)
      as [tb | e']; cbn; auto.
  - auto.
Qed.

Lemma to_sRGB_stderr (memory_manager : option JxlMemoryManager) (a b : PackedPixelFile)
      (cms : JxlCmsInterface) (w : World) :
  stderr (snd (to_sRGB memory_manager a b cms w)) = stderr w.
Proof.
  unfold to_sRGB, bind, call, ret. cbn.
  repeat match goal with
         | |- context [match ?X with Ok _ => _ | Failure _ => _ end] => destruct X; cbn
         | |- context [if ?c then _ else _] => destruct c; cbn
         end; reflexivity.
Qed.

Lemma weighted_diff_swap (j : nat) (a b : Image3F) (y x : nat) :
  weighted_diff j b a y x = - weighted_diff j a b y x.
Proof. unfold weighted_diff. cbn -[get3 M_yuv]. ring. Qed.

Lemma SumOfSquares_spec_swap (xs ys : N) (a b : Image3F) (j : nat) :
  SumOfSquares_spec xs ys b a j = SumOfSquares_spec xs ys a b j.
Proof.
  unfold SumOfSquares_spec. apply Rsum_frame_ext. intros y x _ _.
  rewrite weighted_diff_swap. ring.
Qed.

(** X6. [ComputePSNR] is symmetric: exchanging the two inputs changes
    neither the returned number, in every case including the
    sentinel 0.0, nor what is printed. *)
Theorem ComputePSNR_symmetric (memory_manager : option JxlMemoryManager)
        (a b : PackedPixelFile) (cms : JxlCmsInterface) (w : World) :
  fst (ComputePSNR memory_manager a b cms w) = fst (ComputePSNR memory_manager b a cms w)
  /\ stderr (snd (ComputePSNR memory_manager a b cms w))
     = stderr (snd (ComputePSNR memory_manager b a cms w)).
Proof.
  rewrite !ComputePSNR_cases, <- (size_mismatch_sym a b), <- (channel_mismatch_sym a b).
  destruct (size_mismatch a b) eqn:Hs; [split; reflexivity|].
  destruct (channel_mismatch a b) eqn:Hc; [split; reflexivity|].
  destruct (no_mismatch_eq a b Hs Hc) as (Hx & Hy & Hch).
  pose proof (to_sRGB_swap memory_manager a b cms w Hx Hy Hch) as Hswap.
  destruct (to_sRGB memory_manager a b cms w) as [[[s0 s1] | e] w1] eqn:Hab;
    destruct (to_sRGB memory_manager b a cms w) as [[[t0 t1] | e'] w2] eqn:Hba;
    cbn [fst] in Hswap; try contradiction.
  - destruct Hswap as [-> ->].
    rewrite (@ComputeSumOfSquares_sums L memory_manager a b cms zero3 w w1 s0 s1 Hab).
    rewrite (@ComputeSumOfSquares_sums L memory_manager b a cms zero3 w w2 s1 s0 Hba).
    rewrite <- Hx, <- Hy, !(SumOfSquares_spec_swap _ _ s0 s1). cbn [fst snd].
    split; [reflexivity|].
    pose proof (to_sRGB_stderr memory_manager a b cms w) as E1.
    pose proof (to_sRGB_stderr memory_manager b a cms w) as E2.
    rewrite Hab in E1. rewrite Hba in E2. cbn [snd] in E1, E2. congruence.
  - unfold ComputeSumOfSquares. rewrite Hab, Hba. cbn [fst snd]. split; [reflexivity|].
    pose proof (to_sRGB_stderr memory_manager a b cms w) as E1.
    pose proof (to_sRGB_stderr memory_manager b a cms w) as E2.
    rewrite Hab in E1. rewrite Hba in E2. cbn [snd] in E1, E2.
    unfold eprint. cbn [stderr]. congruence.
Qed.
End PsnrFacts.

(** ** The pooled norm as a function of the map *)

Lemma cpow_nonneg (x e : R) : 0 <= x -> 0 <= cpow x e.
Proof.
  intros Hx. unfold cpow.
  destruct (Req_dec_T e 0); [lra|].
  destruct (Rlt_dec 0 x); [left; apply Rpower_pos|].
  destruct (Req_dec_T x 0); [lra|]. lra.
Qed.

Lemma cpow_mono (x y e : R) : 0 <= x <= y -> 0 < e -> cpow x e <= cpow y e.
Proof.
  intros [Hx Hxy] He.
  destruct (Rle_lt_or_eq_dec 0 x Hx) as [Hpos | <-].
  - rewrite !cpow_pos by lra. apply Rle_Rpower_l; lra.
  - rewrite cpow_zero by exact He. apply cpow_nonneg. lra.
Qed.

Lemma terms_mono (t t' : R) (k : nat) :
  0 <= t <= t' -> get3 (terms t) k <= get3 (terms t') k.
Proof.
  intros [Ht Htt']. assert (t * t <= t' * t') by nra. assert (0 <= t * t) by nra.
  unfold terms. destruct k as [|[|k]]; cbn; nra.
Qed.

Lemma Rsum_map_le {A} (f g : A -> R) (l : list A) :
  (forall a, In a l -> f a <= g a) -> Rsum (map f l) <= Rsum (map g l).
Proof.
  induction l as [|a l IH]; intros Hfg; simpl; [lra|].
  assert (f a <= g a) by (apply Hfg; now left).
  assert (Rsum (map f l) <= Rsum (map g l)) by (apply IH; intros; apply Hfg; now right).
  lra.
Qed.

Lemma Rsum_frame_le (xs ys : nat) (f g : nat -> nat -> R) :
  (forall y x, (y < ys)%nat -> (x < xs)%nat -> f y x <= g y x) ->
  Rsum (flat_map (fun y => map (f y) (seq 0 xs)) (seq 0 ys))
  <= Rsum (flat_map (fun y => map (g y) (seq 0 xs)) (seq 0 ys)).
Proof.
  intros Hfg. rewrite !Rsum_flat_map. apply Rsum_map_le. intros y Hy.
  apply in_seq in Hy. apply Rsum_map_le. intros x Hx. apply in_seq in Hx.
  apply Hfg; lia.
Qed.

Lemma pooled_mono (n p : R) (s s' : arr3 R) :
  0 < n -> 0 < p ->
  (forall k, 0 <= get3 s k <= get3 s' k) ->
  pooled n s p <= pooled n s' p.
Proof.
  intros Hn Hp Hs. unfold pooled.
  assert (Hq : forall k e, 0 < e -> cpow (get3 s k / n) e <= cpow (get3 s' k / n) e).
  { intros k e He. apply cpow_mono; [|exact He]. destruct (Hs k) as [H0 H1].
    split.
    - apply Rmult_le_pos; [exact H0 | left; now apply Rinv_0_lt_compat].
    - apply Rmult_le_compat_r; [left; now apply Rinv_0_lt_compat | exact H1]. }
  assert (0 < 1 / p) by (apply Rdiv_lt_0_compat; lra).
  assert (0 < 1 / (2 * p)) by (apply Rdiv_lt_0_compat; lra).
  assert (0 < 1 / (4 * p)) by (apply Rdiv_lt_0_compat; lra).
  pose proof (Hq 0%nat _ H). pose proof (Hq 1%nat _ H0). pose proof (Hq 2%nat _ H1).
  lra.
Qed.

Section DistanceFacts.
Context {L : Lib R}.

Local Abbreviation ImageF := (ImageF R JxlMemoryManager).

(** The sums of the per-pixel terms, written over the frame. *)
Lemma Rsum3_pixels_frame (distmap : ImageF) (g : R -> R) (k : nat) :
  get3 (Rsum3 (map (fun d => terms (g d)) (pixels distmap))) k
  = Rsum (flat_map (fun y => map (fun x => get3 (terms (g (ConstRow distmap y x))) k)
                                 (seq 0 (N.to_nat (xsize distmap))))
                   (seq 0 (N.to_nat (ysize distmap)))).
Proof.
  assert (H : Rsum (map (fun d => get3 (terms (g d)) k) (pixels distmap))
              = Rsum (flat_map
                        (fun y => map (fun x => get3 (terms (g (ConstRow distmap y x))) k)
                                      (seq 0 (N.to_nat (xsize distmap))))
                        (seq 0 (N.to_nat (ysize distmap))))).
  { unfold pixels. rewrite map_flat_map_list. f_equal. apply flat_map_ext.
    intros y. now rewrite map_map. }
  rewrite <- H. unfold Rsum3. rewrite !map_map.
  destruct k as [|[|k]]; reflexivity.
Qed.

(** What [ComputeDistanceP] returns on a non-empty usable map. *)
Lemma ComputeDistanceP_score (distmap : ImageF) (params : ButteraugliParams) (p : R)
      (w : World) :
  empty_map distmap = false ->
  (xsize distmap * ysize distmap < 2 ^ 64)%N ->
  usable_map distmap p ->
  fst (ComputeDistanceP distmap params p w) = Ok (pooled_score distmap p).
Proof.
  intros He Hfit [Hempty | (mm & Hmm & Hal)]; [congruence|].
  unfold pooled_score. destruct (near_3 p) eqn:Hp.
  - rewrite (@ComputeDistanceP_fast R R_arith L distmap params p w mm) by auto.
    now rewrite onePerPixels_of_R by exact Hfit.
  - rewrite (@ComputeDistanceP_slow R R_arith L distmap params p w mm) by auto.
    now rewrite onePerPixels_of_R by exact Hfit.
Qed.

(** The score as the pooled means of the per-pixel terms, on either
    path. *)
Lemma pooled_score_eq (distmap : ImageF) (p : R) :
  pooled_score distmap p
  = pooled (IZR (Z.of_N (xsize distmap * ysize distmap)))
           (Rsum3 (map (fun d => terms (if near_3 p then cube d else cpow d p))
                       (pixels distmap))) p.
Proof.
  unfold pooled_score. destruct (near_3 p).
  - apply fast_path_eq.
  - now rewrite slow_path_eq, slow_sums_eq.
Qed.

Lemma cube_mono (x y : R) : 0 <= x <= y -> 0 <= cube x <= cube y.
Proof.
  intros [Hx Hxy]. unfold cube. assert (0 <= x * x) by nra.
  assert (x * x <= y * y) by nra. split; nra.
Qed.

Lemma pooled_score_mono (a b : ImageF) (p : R) :
  same_frame a b -> empty_map a = false -> nonnegative a -> pointwise_le a b ->
  0 < p -> pooled_score a p <= pooled_score b p.
Proof.
  intros [Hx Hy] He Hnn Hle Hp.
  destruct (@empty_map_false_inv L a He) as [Hxa Hya].
  rewrite !pooled_score_eq, <- Hx, <- Hy.
  apply pooled_mono; [now apply pixel_count_pos | exact Hp |].
  intros k. rewrite !Rsum3_pixels_frame, <- Hx, <- Hy.
  assert (Hterm : forall y x, (y < N.to_nat (ysize a))%nat -> (x < N.to_nat (xsize a))%nat ->
            0 <= (if near_3 p then cube (ConstRow a y x) else cpow (ConstRow a y x) p)
            <= (if near_3 p then cube (ConstRow b y x) else cpow (ConstRow b y x) p)).
  { intros y x Hy' Hx'. specialize (Hnn y x Hy' Hx'). specialize (Hle y x Hy' Hx').
    destruct (near_3 p).
    - apply cube_mono. lra.
    - split; [now apply cpow_nonneg | apply cpow_mono; lra]. }
  split.
  - rewrite Rsum_flat_map. apply Rsum_nonneg. intros r Hr.
    apply in_map_iff in Hr as (y & <- & Hy'). apply in_seq in Hy'.
    apply Rsum_nonneg. intros r Hr. apply in_map_iff in Hr as (x & <- & Hx').
    apply in_seq in Hx'. apply terms_nonneg. apply Hterm; lia.
  - apply Rsum_frame_le. intros y x Hy' Hx'. apply terms_mono. now apply Hterm.
Qed.

(** X7. The score is monotone in the map: for every exponent [p > 0]
    and on either path, raising pixels of a non-negative map never
    lowers the score [ComputeDistanceP] returns. *)
Theorem ComputeDistanceP_monotone (a b : ImageF) (params : ButteraugliParams) (p : R)
        (w w' : World) :
  same_frame a b -> empty_map a = false ->
  (xsize a * ysize a < 2 ^ 64)%N ->
  usable_map a p -> usable_map b p ->
  nonnegative a -> pointwise_le a b -> 0 < p ->
  exists sa sb,
    fst (ComputeDistanceP a params p w) = Ok sa
    /\ fst (ComputeDistanceP b params p w') = Ok sb
    /\ sa <= sb.
Proof.
  intros Hsame He Hfit Hua Hub Hnn Hle Hp.
  exists (pooled_score a p), (pooled_score b p).
  pose proof Hsame as [Hx Hy].
  assert (Heb : empty_map b = false) by (unfold empty_map in *; now rewrite <- Hx, <- Hy).
  assert (Hfitb : (xsize b * ysize b < 2 ^ 64)%N) by now rewrite <- Hx, <- Hy.
  repeat split.
  - now apply ComputeDistanceP_score.
  - now apply ComputeDistanceP_score.
  - now apply pooled_score_mono.
Qed.
End DistanceFacts.

Section MapSizes.
Context {L : Lib R}.

Local Abbreviation ImageF := (ImageF R JxlMemoryManager).

Lemma length_flat_map_const {A B} (f : A -> list B) (l : list A) (n : nat) :
  (forall a, List.length (f a) = n) ->
  List.length (flat_map f l) = (List.length l * n)%nat.
Proof.
  intros Hf. induction l as [|a l IH]; simpl; [reflexivity|].
  now rewrite length_app, Hf, IH.
Qed.

End MapSizes.

(** ** The warning of the generic path *)

Lemma wrap_int_succ (j : Z) : wrap_int (wrap_int j + 1) = wrap_int (j + 1).
Proof.
  unfold wrap_int.
  replace ((j + 2 ^ 31) mod 2 ^ 32 - 2 ^ 31 + 1 + 2 ^ 31)%Z
    with ((j + 2 ^ 31) mod 2 ^ 32 + 1)%Z by ring.
  replace (j + 1 + 2 ^ 31)%Z with ((j + 2 ^ 31) + 1)%Z by ring.
  now rewrite Zplus_mod_idemp_l.
Qed.

Lemma wrap_int_nonzero (j : Z) : (0 < j < 2 ^ 32)%Z -> wrap_int j <> 0%Z.
Proof.
  intros Hj. unfold wrap_int.
  destruct (Z_lt_le_dec j (2 ^ 31)) as [Hlt | Hge].
  - rewrite Z.mod_small by lia. lia.
  - replace (j + 2 ^ 31)%Z with ((j - 2 ^ 31) + 1 * 2 ^ 32)%Z by ring.
    rewrite Z_mod_plus_full, Z.mod_small by lia. lia.
Qed.

Section WarningOnce.
Context {F : Type} {AF : Arith F} {L : Lib F}.

Local Abbreviation ImageF := (ImageF F JxlMemoryManager).

(** What one call does to the counter and to stderr. *)
Lemma ComputeDistanceP_gate (distmap : ImageF) (params : ButteraugliParams) (p : F)
      (w : World) :
  let w' := snd (ComputeDistanceP distmap params p w) in
  if takes_generic_path distmap p
  then w' = after_once w
  else stderr w' = stderr w /\ once w' = once w.
Proof.
  cbv zeta. unfold takes_generic_path.
  destruct (empty_map distmap) eqn:He.
  - rewrite ComputeDistanceP_empty by exact He. now split.
  - destruct (memory_manager distmap) as [mm|] eqn:Hmm.
    + destruct (near_3 p) eqn:Hp; cbn.
      * destruct (AlignedMemory_Create mm (3 * N.of_nat Lanes * sizeof_T)) as [[]|msg] eqn:Hal.
        -- rewrite (@ComputeDistanceP_fast F AF L distmap params p w mm) by auto.
           now split.
        -- rewrite (@ComputeDistanceP_fast_oom F AF L distmap params p w mm msg) by auto.
           now split.
      * now rewrite (@ComputeDistanceP_slow F AF L distmap params p w mm) by auto.
    + rewrite ComputeDistanceP_null by auto. now split.
Qed.

Lemma calls_after_first (inputs : list (ImageF * ButteraugliParams * F)) :
  forall (w : World) (j : Z),
    once w = wrap_int j -> (0 < j)%Z ->
    (j + Z.of_nat (generic_calls inputs) <= 2 ^ 32)%Z ->
    stderr (ComputeDistanceP_calls inputs w) = stderr w
    /\ once (ComputeDistanceP_calls inputs w)
       = wrap_int (j + Z.of_nat (generic_calls inputs)).
Proof.
  induction inputs as [|[[d params] p] inputs IH]; intros w j Ho Hj Hg.
  - cbn. split; [reflexivity|]. now rewrite Z.add_0_r.
  - unfold ComputeDistanceP_calls in *. cbn [fold_left fst snd].
    pose proof (ComputeDistanceP_gate d params p w) as Hgate. cbv zeta in Hgate.
    unfold generic_calls in *. cbn [filter fst snd] in *.
    destruct (takes_generic_path d p).
    + cbn [List.length] in *. rewrite Hgate.
      assert (Hnz : (once w =? 0)%Z = false).
      { apply Z.eqb_neq. rewrite Ho. apply wrap_int_nonzero. lia. }
      destruct (IH (after_once w) (j + 1)%Z) as [IH1 IH2].
      * unfold after_once. rewrite Hnz. cbn. rewrite Ho. apply wrap_int_succ.
      * lia.
      * lia.
      * rewrite IH1, IH2. split.
        -- unfold after_once. now rewrite Hnz.
        -- f_equal. lia.
    + destruct Hgate as [Hs Hon].
      destruct (IH (snd (ComputeDistanceP d params p w)) j) as [IH1 IH2];
        [congruence | lia | lia |].
      rewrite IH1, IH2. now split.
Qed.

(** X11. The warning of the generic path is printed once per process:
    for every arithmetic and every sequence of calls of
    [ComputeDistanceP] that starts with the counter at 0 and reaches
    the generic path at most [2^32] times, stderr receives the warning
    exactly once if some call reaches the generic path and nothing
    otherwise, and the counter ends at the number of such calls
    wrapped to [int] (so it is back at 0 after [2^32] of them). *)
Theorem ComputeDistanceP_warns_once (inputs : list (ImageF * ButteraugliParams * F))
        (w : World) :
  once w = 0%Z ->
  (Z.of_nat (generic_calls inputs) <= 2 ^ 32)%Z ->
  stderr (ComputeDistanceP_calls inputs w)
  = stderr w ++ (if (generic_calls inputs =? 0)%nat then []
                 else ["WARNING: using slow ComputeDistanceP"%string])
  /\ once (ComputeDistanceP_calls inputs w)
     = wrap_int (Z.of_nat (generic_calls inputs)).
Proof.
  revert w. induction inputs as [|[[d params] p] inputs IH]; intros w Ho Hg.
  - cbn. rewrite app_nil_r. split; [reflexivity|]. now rewrite Ho.
  - unfold ComputeDistanceP_calls in *. cbn [fold_left fst snd].
    pose proof (ComputeDistanceP_gate d params p w) as Hgate. cbv zeta in Hgate.
    pose proof (calls_after_first inputs) as Hrest.
    unfold ComputeDistanceP_calls, generic_calls in *. cbn [filter fst snd] in *.
    destruct (takes_generic_path d p).
    + cbn [List.length Nat.eqb] in *. rewrite Hgate.
      destruct (Hrest (after_once w) 1%Z) as [R1 R2].
      * unfold after_once. rewrite Ho. reflexivity.
      * lia.
      * lia.
      * rewrite R1, R2. split.
        -- unfold after_once. rewrite Ho. reflexivity.
        -- f_equal. lia.
    + destruct Hgate as [Hs Hon].
      destruct (IH (snd (ComputeDistanceP d params p w))) as [IH1 IH2];
        [congruence | lia |].
      rewrite IH1, IH2, Hs. now split.
Qed.
End WarningOnce.

(** ** ButteraugliDistance and Butteraugli3Norm *)

Section ButteraugliFacts.
Context {F : Type} {AF : Arith F} {L : Lib F}.

Local Abbreviation ImageF := (ImageF F JxlMemoryManager).
Local Abbreviation Image3F := (Image3F F JxlMemoryManager).
Local Abbreviation PackedPixelFile := (PackedPixelFile Frames).

Lemma to_linear_sRGB_quiet (memory_manager : option JxlMemoryManager)
      (a b : PackedPixelFile) (cms : JxlCmsInterface) (pool : option ThreadPool)
      (w : World) :
  let w' := snd (to_linear_sRGB memory_manager a b cms pool w) in
  stderr w' = stderr w /\ once w' = once w.
Proof.
  cbv zeta. unfold to_linear_sRGB, bind, call, ret, JXL_ENSURE. cbn.
  repeat match goal with
         | |- context [match ?X with Ok _ => _ | Failure _ => _ end] => destruct X; cbn
         | |- context [if ?c then _ else _] => destruct c; cbn
         end; split; reflexivity.
Qed.

Lemma ComputeButteraugli_quiet (ref actual : Image3F) params cms score distmap w :
  let w' := snd (ComputeButteraugli ref actual params cms score distmap w) in
  stderr w' = stderr w /\ once w' = once w.
Proof.
  cbv zeta. unfold ComputeButteraugli, bind, call, JXL_ENSURE. cbn.
  repeat match goal with
         | |- context [match ?X with Ok _ => _ | Failure _ => _ end] => destruct X; cbn
         end; split; reflexivity.
Qed.

(** [ButteraugliDistance] prints nothing and leaves the counter of
    [ComputeDistanceP] alone. *)
Lemma ButteraugliDistance_quiet (memory_manager : option JxlMemoryManager)
      (a b : PackedPixelFile) params score distmap pool ignore_alpha w :
  let w' := snd (ButteraugliDistance memory_manager a b params score distmap pool
                                     ignore_alpha w) in
  stderr w' = stderr w /\ once w' = once w.
Proof.
  cbv zeta. unfold ButteraugliDistance.
  destruct (negb (ppf_xsize a =? ppf_xsize b)%N || negb (ppf_ysize a =? ppf_ysize b)%N);
    [now split|].
  destruct (negb (num_color_channels (info a) =? num_color_channels (info b))%N);
    [now split|].
  pose proof (to_linear_sRGB_quiet memory_manager a b JxlGetDefaultCms pool w) as Hq.
  cbv zeta in Hq.
  destruct (to_linear_sRGB memory_manager a b JxlGetDefaultCms pool w)
    as [[[rgb0 rgb1] | e] w']; cbn [fst snd] in *; [|exact Hq].
  pose proof (ComputeButteraugli_quiet rgb0 rgb1 params JxlGetDefaultCms score distmap w')
    as Hc. cbv zeta in Hc. destruct Hq as [Q1 Q2], Hc as [C1 C2].
  split; congruence.
Qed.
End ButteraugliFacts.

Section Butteraugli3NormFacts.
Context {L : Lib R}.

Local Abbreviation ImageF := (ImageF R JxlMemoryManager).
Local Abbreviation PackedPixelFile := (PackedPixelFile Frames).

Lemma near_3_3 : near_3 (of_Z 3) = true.
Proof.
  apply near_3_true. cbn. replace (3 - 3) with 0 by ring. rewrite Rabs_R0. lra.
Qed.


(** X14. [Butteraugli3Norm] never reaches the generic path of
    [ComputeDistanceP]: whatever the inputs, it leaves the [once]
    counter as it was, and all it can add to stderr is the one line
    of a failed [ButteraugliDistance]. *)
Theorem Butteraugli3Norm_never_warns (memory_manager : option JxlMemoryManager)
        (a b : PackedPixelFile) (pool : option ThreadPool) (w : World) :
  let w' := snd (Butteraugli3Norm memory_manager a b pool w) in
  once w' = once w
  /\ (stderr w' = stderr w
      \/ stderr w' = stderr w ++ [("ButteraugliDistance failed." ++ LF)%string]).
Proof.
  cbv zeta. unfold Butteraugli3Norm, ButteraugliDistance_float.
  pose proof (ButteraugliDistance_quiet memory_manager a b ButteraugliParams_default
                FLT_MAX (Some ImageF_default) pool false w) as Hq.
  cbv zeta in Hq.
  destruct (ButteraugliDistance memory_manager a b ButteraugliParams_default FLT_MAX
              (Some ImageF_default) pool false w) as [[[[] | e] [s d]] w1];
    cbn [fst snd] in Hq; destruct Hq as [Q1 Q2].
  - match goal with
    | |- context [ComputeDistanceP ?dm ?ps ?p w1] =>
        pose proof (ComputeDistanceP_gate dm ps p w1) as Hg
    end.
    cbv zeta in Hg. unfold takes_generic_path in Hg.
    rewrite near_3_3, Bool.andb_false_r in Hg. destruct Hg as [G1 G2].
    split; [congruence | left; congruence].
  - match goal with
    | |- context [ComputeDistanceP ?dm ?ps ?p ?w2] =>
        pose proof (ComputeDistanceP_gate dm ps p w2) as Hg
    end.
    cbv zeta in Hg. unfold takes_generic_path in Hg.
    rewrite near_3_3, Bool.andb_false_r in Hg. destruct Hg as [G1 G2].
    split.
    + rewrite G2. cbn. exact Q2.
    + right. rewrite G1. cbn. now rewrite Q1.
Qed.
End Butteraugli3NormFacts.

(** * NormPooling and the sums of squares in the arithmetic of the code *)

(** ** Loops as running sums, for every arithmetic *)

Lemma fold_left_flat_map {A B S} (step : S -> B -> S) (f : A -> list B) (l : list A)
      (s : S) :
  fold_left (fun s a => fold_left step (f a) s) l s = fold_left step (flat_map f l) s.
Proof.
  revert s. induction l as [|a l IH]; intros s; simpl; [reflexivity|].
  now rewrite fold_left_app, IH.
Qed.

Lemma fold_left_same {A S} (f g : S -> A -> S) (l : list A) (s : S) :
  (forall s a, f s a = g s a) -> fold_left f l s = fold_left g l s.
Proof.
  intros Hfg. revert s. induction l as [|a l IH]; intros s; simpl; [reflexivity|].
  now rewrite Hfg, IH.
Qed.

Lemma fold_left_map {A B S} (step : S -> B -> S) (g : A -> B) (l : list A) (s : S) :
  fold_left (fun s a => step s (g a)) l s = fold_left step (map g l) s.
Proof.
  revert s. induction l as [|a l IH]; intros s; simpl; [reflexivity | apply IH].
Qed.

(** Three sums kept in one array are three independent running
    sums. *)
Lemma fold_left_triple {F A} (add : F -> F -> F) (g0 g1 g2 : A -> F) (l : list A)
      (s0 s1 s2 : F) :
  fold_left (fun (s : arr3 F) a =>
               let '(a0, a1, a2) := s in (add a0 (g0 a), add a1 (g1 a), add a2 (g2 a)))
            l (s0, s1, s2)
  = (fold_left add (map g0 l) s0, fold_left add (map g1 l) s1,
     fold_left add (map g2 l) s2).
Proof.
  revert s0 s1 s2. induction l as [|a l IH]; intros s0 s1 s2; simpl; [reflexivity|].
  apply IH.
Qed.

Section GenericPathFormula.
Context {F : Type} {AF : Arith F} {L : Lib F}.

Local Abbreviation ImageF := (ImageF F JxlMemoryManager).


(** The two nested loops of the generic path visit the samples in
    row-major order. *)
Lemma slow_sums_samples (distmap : ImageF) (p : F) :
  slow_sums distmap p
  = fold_left (fun sum1 d => accumulate sum1 (fpow d p)) (samples distmap) zero3.
Proof.
  unfold slow_sums, samples.
  rewrite <- (fold_left_flat_map (fun sum1 d => accumulate sum1 (fpow d p))).
  apply fold_left_same. intros sum1 y. cbv zeta.
  now rewrite <- (fold_left_map (fun sum1 d => accumulate sum1 (fpow d p))).
Qed.




Lemma length_samples (distmap : ImageF) :
  List.length (samples distmap)
  = (N.to_nat (ysize distmap) * N.to_nat (xsize distmap))%nat.
Proof.
  unfold samples.
  rewrite (length_flat_map_const _ _ (n := N.to_nat (xsize distmap))).
  - now rewrite length_seq.
  - intros y. now rewrite length_map, length_seq.
Qed.

(** X10. The generic path reads the map as one sequence of samples:
    in every arithmetic, two non-empty maps with the same samples in
    row-major order, whatever their shapes (6 by 1, 3 by 2, 1 by 6),
    get the same result from [ComputeDistanceP] for every exponent
    outside the window around 3, operation for operation. *)
Theorem ComputeDistanceP_reshaped (a b : ImageF) (params params' : ButteraugliParams)
        (p : F) (w w' : World) (mma mmb : JxlMemoryManager) :
  samples a = samples b ->
  empty_map a = false -> empty_map b = false ->
  memory_manager a = Some mma -> memory_manager b = Some mmb ->
  near_3 p = false ->
  fst (ComputeDistanceP a params p w) = fst (ComputeDistanceP b params' p w').
Proof.
  intros Hs Hea Heb Hma Hmb Hp.
  rewrite (ComputeDistanceP_slow a params p w Hea Hma Hp).
  rewrite (ComputeDistanceP_slow b params' p w' Heb Hmb Hp). cbn [fst]. f_equal.
  assert (Hn : (ysize a * xsize a = ysize b * xsize b)%N).
  { pose proof (f_equal (@List.length F) Hs) as Hl. rewrite !length_samples in Hl. lia. }
  unfold slow_path, onePerPixels_of, size_mul.
  now rewrite !slow_sums_samples, Hs, Hn.
Qed.
End GenericPathFormula.

(** ** WeightedSumOfSquares, for every arithmetic *)

Section SumOfSquaresFormula.
Context {F : Type} {AF : Arith F} {L : Lib F}.

Local Abbreviation Image3F := (Image3F F JxlMemoryManager).
Local Abbreviation PackedPixelFile := (PackedPixelFile Frames).

(** One pixel: the three arrays of the loop body hold the differences,
    the weighted differences and the squares that are added. *)
Lemma sum_of_squares_pixel_formula (a b : Image3F) (y x : nat) (s : arr3 F) :
  sum_of_squares_pixel (fun j => ConstPlaneRow a j y) (fun j => ConstPlaneRow b j y) s x
  = let '(s0, s1, s2) := s in
    let sq := fun j => fmul32 (weighted_diff_formula j a b y x)
                              (weighted_diff_formula j a b y x) in
    (fadd s0 (sq 0%nat), fadd s1 (sq 1%nat), fadd s2 (sq 2%nat)).
Proof. destruct s as [[s0 s1] s2]. reflexivity. Qed.

Lemma accumulate_squares_positions (xs ys : N) (a b : Image3F) (s : arr3 F) :
  accumulate_squares xs ys a b s
  = fold_left (fun s yx =>
                 sum_of_squares_pixel (fun j => ConstPlaneRow a j (fst yx))
                                      (fun j => ConstPlaneRow b j (fst yx)) s (snd yx))
              (positions xs ys) s.
Proof.
  unfold accumulate_squares, positions.
  rewrite <- (fold_left_flat_map
                (fun s yx =>
                   sum_of_squares_pixel (fun j => ConstPlaneRow a j (fst yx))
                                        (fun j => ConstPlaneRow b j (fst yx)) s (snd yx))).
  apply fold_left_same. intros s' y. cbv zeta.
  now rewrite <- (fold_left_map
                    (fun s yx =>
                       sum_of_squares_pixel (fun j => ConstPlaneRow a j (fst yx))
                                            (fun j => ConstPlaneRow b j (fst yx)) s
                                            (snd yx))
                    (fun x => (y, x))).
Qed.

Lemma accumulate_squares_formula (xs ys : N) (a b : Image3F) :
  accumulate_squares xs ys a b (f0, f0, f0)
  = (SumOfSquares_formula xs ys a b 0, SumOfSquares_formula xs ys a b 1,
     SumOfSquares_formula xs ys a b 2).
Proof.
  rewrite accumulate_squares_positions. unfold SumOfSquares_formula, sum_of.
  rewrite <- (fold_left_triple fadd).
  apply fold_left_same. intros s [y x]. apply sum_of_squares_pixel_formula.
Qed.

(** C3. Once both inputs are planar images in the sRGB target, in
    every arithmetic, [ComputeSumOfSquares] succeeds and returns for
    each [j] the sum over all pixels of the square of
    [sum over k of M[j][k] * (a[k] - b[k])]: [M] is the fixed matrix
    with its entries converted to [float], the matrix is applied to the
    difference of the two pixels, difference, products and square are
    [float] operations, the sum over the pixels is a [double], and no
    sum enters another. *)
Theorem ComputeSumOfSquares_formula (memory_manager : option JxlMemoryManager)
        (a b : PackedPixelFile) (cms : JxlCmsInterface) (before : arr3 F) (w w' : World)
        (srgb0 srgb1 : Image3F) :
  to_sRGB memory_manager a b cms w = (Ok (srgb0, srgb1), w') ->
  ComputeSumOfSquares memory_manager a b cms before w
  = ((Ok tt,
      (SumOfSquares_formula (ppf_xsize a) (ppf_ysize a) srgb0 srgb1 0,
       SumOfSquares_formula (ppf_xsize a) (ppf_ysize a) srgb0 srgb1 1,
       SumOfSquares_formula (ppf_xsize a) (ppf_ysize a) srgb0 srgb1 2)), w').
Proof.
  intros Hconv. unfold ComputeSumOfSquares. rewrite Hconv.
  now rewrite accumulate_squares_formula.
Qed.
End SumOfSquaresFormula.

(** ** The error exits of ComputeDistanceP, for every arithmetic *)

Section ErrorExits.
Context {F : Type} {AF : Arith F} {L : Lib F}.

Local Abbreviation ImageF := (ImageF F JxlMemoryManager).

(** C6, as the code has it.  When the width or the height of the map
    is 0, [ComputeDistanceP] returns 0.0 for every [p] and leaves the
    world as it was: nothing allocated, no path selected, the [once]
    counter untouched.  The result never depends on [params].  On a
    non-empty map there are two error exits: a map without memory
    manager fails [JXL_ENSURE] before anything else happens, and
    inside the window around 3 a failing allocation of the scratch
    buffer is handed on.  In every other case a score is returned. *)
Theorem ComputeDistanceP_error_exits (distmap : ImageF) (params : ButteraugliParams)
        (p : F) (w : World) :
  ((xsize distmap = 0%N \/ ysize distmap = 0%N) ->
   ComputeDistanceP distmap params p w = (Ok f0, w))
  /\ (forall params', ComputeDistanceP distmap params' p w
                      = ComputeDistanceP distmap params p w)
  /\ (empty_map distmap = false -> memory_manager distmap = None ->
      ComputeDistanceP distmap params p w = (Failure "memory_manager != nullptr", w))
  /\ (forall mm msg,
        empty_map distmap = false -> memory_manager distmap = Some mm ->
        near_3 p = true ->
        AlignedMemory_Create mm (3 * N.of_nat Lanes * sizeof_T) = Failure msg ->
        ComputeDistanceP distmap params p w
        = (Failure msg, record Call_AlignedMemory_Create w))
  /\ (forall mm,
        empty_map distmap = false -> memory_manager distmap = Some mm ->
        (near_3 p = true ->
         AlignedMemory_Create mm (3 * N.of_nat Lanes * sizeof_T) = Ok tt) ->
        exists score w', ComputeDistanceP distmap params p w = (Ok score, w')).
Proof.
  split; [|split; [|split; [|split]]].
  - intros Hz. apply ComputeDistanceP_empty. unfold empty_map.
    destruct Hz as [Hz | Hz]; rewrite Hz; [reflexivity | apply orb_true_r].
  - intros params'. reflexivity.
  - intros He Hmm. now apply ComputeDistanceP_null.
  - intros mm msg He Hmm Hp Hal. now apply ComputeDistanceP_fast_oom with (mm := mm).
  - intros mm He Hmm Hal. destruct (near_3 p) eqn:Hp.
    + eexists _, _. apply ComputeDistanceP_fast with (mm := mm); auto.
    + eexists _, _. now apply ComputeDistanceP_slow with (mm := mm).
Qed.
End ErrorExits.

Section ButteraugliScore.
Context {F : Type} {AF : Arith F} {L : Lib F}.

Local Abbreviation ImageF := (ImageF F JxlMemoryManager).
Local Abbreviation Image3F := (Image3F F JxlMemoryManager).
Local Abbreviation PackedPixelFile := (PackedPixelFile Frames).

Lemma ComputeButteraugli_steps (ref actual : Image3F) params cms score distmap w :
  fst (fst (ComputeButteraugli ref actual params cms score distmap w)) = Ok tt ->
  exists comparator temp m,
    ButteraugliComparator_Make ref params = Ok comparator
    /\ ImageF_Create (memory_manager3 ref) (xsize3 ref) (ysize3 ref) = Ok temp
    /\ Diffmap comparator actual temp = Ok m
    /\ snd (fst (ComputeButteraugli ref actual params cms score distmap w))
       = (ButteraugliScoreFromDiffmap m params,
          match distmap with Some _ => Some m | None => None end).
Proof.
  unfold ComputeButteraugli, bind, call, JXL_ENSURE.
  destruct (ButteraugliComparator_Make ref params) as [comparator | e] eqn:Hc;
    cbn [fst snd]; [|discriminate].
  destruct (ImageF_Create (memory_manager3 ref) (xsize3 ref) (ysize3 ref))
    as [temp | e] eqn:Ht; cbn [fst snd]; [|discriminate].
  destruct (Diffmap comparator actual temp) as [m | e] eqn:Hd;
    cbn [fst snd]; [|discriminate].
  intros _. exists comparator, temp, m. now repeat split.
Qed.

(** X12. When the [Status]-returning [ButteraugliDistance] succeeds,
    both inputs were converted to linear sRGB, the comparator was made
    from the converted first input, and the score it stores is the
    library's score of the difference map [m] that this comparator's
    [Diffmap] produced for the converted second input in a map
    created with the size and the memory manager of the first.  That
    map [m] is what the caller finds in [*distmap] when a map was
    passed, and a null [distmap] stays null.  The score that was stored
    before the call plays no part. *)
Theorem ButteraugliDistance_score_of_map (memory_manager : option JxlMemoryManager)
        (a b : PackedPixelFile) (params : ButteraugliParams) (score : F)
        (distmap : option ImageF) (pool : option ThreadPool) (ignore_alpha : bool)
        (w : World) :
  let r := ButteraugliDistance memory_manager a b params score distmap pool
                               ignore_alpha w in
  fst (fst r) = Ok tt ->
  exists rgb0 rgb1 w1 comparator temp m,
    to_linear_sRGB memory_manager a b JxlGetDefaultCms pool w = (Ok (rgb0, rgb1), w1)
    /\ ButteraugliComparator_Make rgb0 params = Ok comparator
    /\ ImageF_Create (memory_manager3 rgb0) (xsize3 rgb0) (ysize3 rgb0) = Ok temp
    /\ Diffmap comparator rgb1 temp = Ok m
    /\ snd (fst r)
       = (ButteraugliScoreFromDiffmap m params,
          match distmap with Some _ => Some m | None => None end).
Proof.
  cbv zeta. unfold ButteraugliDistance.
  destruct (negb (ppf_xsize a =? ppf_xsize b)%N || negb (ppf_ysize a =? ppf_ysize b)%N);
    [discriminate|].
  destruct (negb (num_color_channels (info a) =? num_color_channels (info b))%N);
    [discriminate|].
  destruct (to_linear_sRGB memory_manager a b JxlGetDefaultCms pool w)
    as [[[rgb0 rgb1] | e] w1]; [|discriminate].
  intros H. destruct (ComputeButteraugli_steps _ _ _ _ _ _ _ H)
    as (comparator & temp & m & Hc & Ht & Hd & Hr).
  exists rgb0, rgb1, w1, comparator, temp, m. now repeat split.
Qed.
End ButteraugliScore.

(** ** Constant maps: the score and its domain *)



Section ConstantMapDomain.
Context {L : Lib R}.

Local Abbreviation ImageF := (ImageF R JxlMemoryManager).



End ConstantMapDomain.

(** ** Power means *)






Lemma cpow_apow_pos (x e : R) : 0 <= x -> 0 < e -> cpow x e = apow x e.
Proof. intros. now apply cpow_apow. Qed.














Section Tolerance.
Context {L : Lib R}.

Local Abbreviation ImageF := (ImageF R JxlMemoryManager).






End Tolerance.

(** ** NormPooling: the two paths side by side *)


(** ** Further runs on concrete inputs *)




Lemma ComputeSumOfSquares_formula_witness :
  ComputeSumOfSquares (L := TestLib.lib) (Some tt) (TestLib.flat_image 2 1 3 1)
                      (TestLib.flat_image 2 1 3 0) tt zero3 TestLib.w0
  = ((Ok tt,
      (SumOfSquares_formula (L := TestLib.lib) 2 1 (TestLib.planar 2 1 1)
                            (TestLib.planar 2 1 0) 0,
       SumOfSquares_formula (L := TestLib.lib) 2 1 (TestLib.planar 2 1 1)
                            (TestLib.planar 2 1 0) 1,
       SumOfSquares_formula (L := TestLib.lib) 2 1 (TestLib.planar 2 1 1)
                            (TestLib.planar 2 1 0) 2)), TestLib.converted).
Proof.
  apply (@ComputeSumOfSquares_formula R R_arith TestLib.lib (Some tt)
           (TestLib.flat_image 2 1 3 1) (TestLib.flat_image 2 1 3 0) tt zero3
           TestLib.w0 TestLib.converted (TestLib.planar 2 1 1) (TestLib.planar 2 1 0)).
  reflexivity.
Defined.

Lemma ComputeDistanceP_error_exits_witness :
  ComputeDistanceP (L := TestLib.lib) (ImageF_default (L := TestLib.lib)) tt 7 TestLib.w0
  = (Ok 0, TestLib.w0)
  /\ ComputeDistanceP (L := TestLib.lib) TestData.unmanaged_row_1_2_0 tt 7 TestLib.w0
     = (Failure "memory_manager != nullptr", TestLib.w0)
  /\ exists score w',
       ComputeDistanceP (L := TestLib.lib) TestLib.row_1_2_0 tt 7 TestLib.w0
       = (Ok score, w').
Proof.
  split; [|split].
  - destruct (@ComputeDistanceP_error_exits R R_arith TestLib.lib
                (ImageF_default (L := TestLib.lib)) tt 7 TestLib.w0) as [Hzero _].
    apply Hzero. left. reflexivity.
  - destruct (@ComputeDistanceP_error_exits R R_arith TestLib.lib
                TestData.unmanaged_row_1_2_0 tt 7 TestLib.w0) as (_ & _ & Hnull & _).
    apply Hnull; reflexivity.
  - destruct (@ComputeDistanceP_error_exits R R_arith TestLib.lib
                TestLib.row_1_2_0 tt 7 TestLib.w0) as (_ & _ & _ & _ & Hscore).
    apply (Hscore tt); reflexivity.
Defined.

(** C6 as the specification states it fails: a map of three pixels
    that has no memory manager is not empty, and [ComputeDistanceP]
    answers with the failure of [JXL_ENSURE], not with a score. *)
Lemma ComputeDistanceP_fails_without_manager :
  empty_map (L := TestLib.lib) TestData.unmanaged_row_1_2_0 = false
  /\ ComputeDistanceP (L := TestLib.lib) TestData.unmanaged_row_1_2_0 tt 7 TestLib.w0
     = (Failure "memory_manager != nullptr", TestLib.w0)
  /\ ~ exists score w',
         ComputeDistanceP (L := TestLib.lib) TestData.unmanaged_row_1_2_0 tt 7
                          TestLib.w0 = (Ok score, w').
Proof.
  split; [reflexivity|]. split; [reflexivity|].
  intros (score & w' & H). discriminate H.
Qed.



Lemma ComputeDistanceP_reshaped_witness :
  fst (ComputeDistanceP (L := TestLib.lib) TestLib.row_1_2_0 tt 2 TestLib.w0)
  = fst (ComputeDistanceP (L := TestLib.lib) TestData.column_1_2_0 tt 2 TestLib.w0).
Proof.
  apply (@ComputeDistanceP_reshaped R R_arith TestLib.lib TestLib.row_1_2_0
           TestData.column_1_2_0 tt tt 2 TestLib.w0 TestLib.w0 tt tt);
    try reflexivity.
  apply near_3_false. unfold Rabs. destruct (Rcase_abs (2 - 3)); lra.
Defined.

Lemma ButteraugliDistance_score_of_map_witness :
  exists rgb0 rgb1 w1 comparator temp m,
    to_linear_sRGB (L := TestLib.lib) (Some tt) (TestLib.flat_image 4 4 1 (1 / 2))
                   (TestLib.flat_image 4 4 1 (1 / 4)) JxlGetDefaultCms None TestLib.w0
    = (Ok (rgb0, rgb1), w1)
    /\ ButteraugliComparator_Make rgb0 tt = Ok comparator
    /\ ImageF_Create (memory_manager3 rgb0) (xsize3 rgb0) (ysize3 rgb0) = Ok temp
    /\ Diffmap comparator rgb1 temp = Ok m
    /\ snd (fst (ButteraugliDistance (L := TestLib.lib) (Some tt)
                   (TestLib.flat_image 4 4 1 (1 / 2)) (TestLib.flat_image 4 4 1 (1 / 4))
                   tt 7 None None false TestLib.w0))
       = (ButteraugliScoreFromDiffmap m tt, None).
Proof.
  apply (@ButteraugliDistance_score_of_map R TestLib.lib (Some tt)
           (TestLib.flat_image 4 4 1 (1 / 2)) (TestLib.flat_image 4 4 1 (1 / 4))
           tt 7 None None false TestLib.w0).
  reflexivity.
Defined.

(** * Properties of tools/file_io.h *)

Section FileIOFacts.
Import FileIO.
Local Open Scope nat_scope.

Lemma chunk_size_pos : 0 < chunk_size.
Proof. unfold chunk_size. lia. Qed.

Lemma memcpy_0 (buf data : list Byte.byte) :
  memcpy buf 0 data = data ++ skipn (List.length data) buf.
Proof. reflexivity. Qed.

Lemma length_memcpy (buf data : list Byte.byte) (pos : nat) :
  pos + List.length data <= List.length buf ->
  List.length (memcpy buf pos data) = List.length buf.
Proof.
  intros H. unfold memcpy. rewrite !length_app, length_firstn, length_skipn. lia.
Qed.

Lemma length_resize (v : list Byte.byte) (n : nat) : List.length (resize v n) = n.
Proof.
  unfold resize. rewrite length_app, length_firstn, repeat_length. lia.
Qed.

Lemma resize_prefix (data rest : list Byte.byte) :
  resize (data ++ rest) (List.length data) = data.
Proof.
  unfold resize. rewrite firstn_app, Nat.sub_diag, firstn_O, app_nil_r, firstn_all.
  rewrite length_app.
  replace (List.length data - (List.length data + List.length rest)) with 0 by lia.
  apply app_nil_r.
Qed.

Lemma resize_memcpy (buf data : list Byte.byte) (k : nat) :
  List.length data = k -> resize (memcpy buf 0 data) k = data.
Proof.
  intros <-. rewrite memcpy_0. apply resize_prefix.
Qed.

Lemma fread_enough (buf : list Byte.byte) (n : nat) (f : FILE) :
  n <= List.length (unread f) ->
  fread buf n f
  = (n, memcpy buf 0 (firstn n (unread f)),
     mkFILE (skipn n (unread f)) (broken f) (eof_indicator f) (error_indicator f)
            (written f) (room f) (fclose_fails f) (closed f)).
Proof.
  intros H. unfold fread. apply Nat.leb_le in H. now rewrite H.
Qed.

Lemma fread_short (buf : list Byte.byte) (n : nat) (f : FILE) :
  List.length (unread f) < n ->
  fread buf n f
  = (List.length (unread f), memcpy buf 0 (unread f),
     mkFILE [] (broken f)
            (if broken f then eof_indicator f else true)
            (if broken f then true else error_indicator f)
            (written f) (room f) (fclose_fails f) (closed f)).
Proof.
  intros H. unfold fread. apply Nat.leb_gt in H. now rewrite H.
Qed.

Lemma read_chunks_S (fuel : nat) (f : FILE) (chunks : list (list Byte.byte))
      (total_size : nat) :
  read_chunks (S fuel) f chunks total_size
  = let chunk := repeat Byte.x00 chunk_size in
    let '(bytes_read, chunk, f) := fread chunk (List.length chunk) f in
    if ferror f || (List.length chunk <? bytes_read) then
      Some (false, chunks, total_size, f)
    else
      let chunk := resize chunk bytes_read in
      let total_size := total_size + bytes_read in
      let chunks := if negb (bytes_read =? 0) then chunks ++ [chunk] else chunks in
      if feof f then Some (true, chunks, total_size, f)
      else read_chunks fuel f chunks total_size.
Proof. reflexivity. Qed.

(** The stream once all of it was read and the end was seen. *)
Lemma read_chunks_healthy (fuel : nat) :
  forall (f : FILE) (chunks : list (list Byte.byte)) (total_size : nat),
    broken f = false -> error_indicator f = false -> eof_indicator f = false ->
    List.length (unread f) / chunk_size < fuel ->
    exists chunks' f',
      read_chunks fuel f chunks total_size
      = Some (true, chunks', total_size + List.length (unread f), f')
      /\ List.concat chunks' = List.concat chunks ++ unread f
      /\ unread f' = [] /\ eof_indicator f' = true /\ error_indicator f' = false
      /\ closed f' = closed f.
Proof.
  pose proof chunk_size_pos as Hcs.
  induction fuel as [|fuel IH]; intros f chunks total Hb He Hf Hfuel; [lia|].
  rewrite read_chunks_S. cbv zeta. rewrite repeat_length.
  destruct (le_lt_dec chunk_size (List.length (unread f))) as [Hfull | Hshort].
  - rewrite fread_enough by exact Hfull. unfold ferror, feof. cbn [error_indicator eof_indicator].
    rewrite He, Hf.
    assert (Hltb : (List.length (memcpy (repeat Byte.x00 chunk_size) 0
                                        (firstn chunk_size (unread f))) <? chunk_size)
                   = false).
    { apply Nat.ltb_ge. rewrite length_memcpy; rewrite ?repeat_length, ?length_firstn; lia. }
    rewrite Hltb. cbn [orb].
    assert (Hnz : negb (chunk_size =? 0) = true).
    { apply Bool.negb_true_iff, Nat.eqb_neq. lia. }
    rewrite Hnz.
    assert (Hchunk : resize (memcpy (repeat Byte.x00 chunk_size) 0
                                    (firstn chunk_size (unread f))) chunk_size
                     = firstn chunk_size (unread f)).
    { apply resize_memcpy. rewrite length_firstn. lia. }
    rewrite Hchunk.
    set (f1 := mkFILE (skipn chunk_size (unread f)) (broken f) false false
                      (written f) (room f) (fclose_fails f) (closed f)).
    destruct (IH f1 (chunks ++ [firstn chunk_size (unread f)]) (total + chunk_size))
      as (chunks' & f' & Hr & Hc & Hu & Heof & Herr & Hcl); try reflexivity.
    + exact Hb.
    + cbn [unread f1]. rewrite length_skipn.
      assert (Hd : List.length (unread f) / chunk_size
                   = S ((List.length (unread f) - chunk_size) / chunk_size)).
      { replace (List.length (unread f))
          with ((List.length (unread f) - chunk_size) + 1 * chunk_size) at 1 by lia.
        rewrite Nat.div_add by lia. lia. }
      lia.
    + exists chunks', f'. cbn [unread f1] in Hr. rewrite length_skipn in Hr.
      rewrite Hr. repeat split; auto.
      * do 3 f_equal. lia.
      * rewrite Hc, concat_app. cbn [List.concat unread f1]. rewrite app_nil_r, <- app_assoc.
        now rewrite firstn_skipn.
  - rewrite fread_short by exact Hshort. unfold ferror, feof.
    cbn [error_indicator eof_indicator]. rewrite Hb, He.
    assert (Hltb : (List.length (memcpy (repeat Byte.x00 chunk_size) 0 (unread f))
                    <? List.length (unread f)) = false).
    { apply Nat.ltb_ge. rewrite length_memcpy; rewrite ?repeat_length; lia. }
    rewrite Hltb. cbn [orb].
    assert (Hchunk : resize (memcpy (repeat Byte.x00 chunk_size) 0 (unread f))
                            (List.length (unread f)) = unread f).
    { now apply resize_memcpy. }
    rewrite Hchunk.
    eexists _, _. split; [reflexivity|]. cbn [unread eof_indicator error_indicator closed].
    repeat split; auto.
    destruct (unread f) as [|b l] eqn:Hu.
    + cbn. now rewrite app_nil_r.
    + cbn [List.length Nat.eqb negb]. rewrite concat_app. cbn. now rewrite app_nil_r.
Qed.

Lemma copy_chunks_fold (chunks : list (list Byte.byte)) :
  forall (buf : list Byte.byte) (pos : nat),
    pos + List.length (List.concat chunks) <= List.length buf ->
    fst (fold_left
           (fun (st : list Byte.byte * nat) chunk =>
              let '(bytes, pos) := st in
              (memcpy bytes pos chunk, pos + List.length chunk))
           chunks (buf, pos))
    = firstn pos buf ++ List.concat chunks
      ++ skipn (pos + List.length (List.concat chunks)) buf.
Proof.
  induction chunks as [|c chunks IH]; intros buf pos Hlen.
  - cbn. rewrite Nat.add_0_r. now rewrite firstn_skipn.
  - cbn [fold_left List.concat] in *. rewrite length_app in Hlen.
    rewrite IH by (rewrite length_memcpy; lia).
    unfold memcpy.
    assert (Hp : List.length (firstn pos buf) = pos) by (rewrite length_firstn; lia).
    rewrite firstn_app, Hp.
    rewrite firstn_all2 by lia.
    replace (pos + List.length c - pos) with (List.length c) by lia.
    rewrite firstn_app, Nat.sub_diag, firstn_O, app_nil_r, firstn_all.
    rewrite <- !app_assoc. do 3 f_equal.
    rewrite skipn_app, Hp.
    rewrite (skipn_all2 (firstn pos buf)) by lia. cbn [app].
    rewrite skipn_app.
    rewrite (skipn_all2 c) by lia. cbn [app].
    rewrite skipn_skipn, length_app. f_equal. lia.
Qed.

Lemma copy_chunks_concat (chunks : list (list Byte.byte)) :
  copy_chunks chunks (resize [] (List.length (List.concat chunks))) = List.concat chunks.
Proof.
  unfold copy_chunks. rewrite copy_chunks_fold by (rewrite length_resize; lia).
  rewrite firstn_O. cbn [app]. rewrite skipn_all2 by (rewrite length_resize; lia).
  apply app_nil_r.
Qed.

Lemma ReadFile_chunked (fuel : nat) (f : FileWrapper) (file : FILE)
      (old : list Byte.byte) :
  file_ f = Some file -> (size_ f < 0)%Z ->
  broken file = false -> error_indicator file = false -> eof_indicator file = false ->
  List.length (unread file) / chunk_size < fuel ->
  exists file',
    ReadFile fuel f old
    = Some (true, unread file, mkFileWrapper (Some file') (close_on_delete_ f) (size_ f))
    /\ unread file' = [] /\ feof file' = true /\ closed file' = closed file.
Proof.
  intros Hfile Hsize Hb He Hf Hfuel. unfold ReadFile. rewrite Hfile.
  apply Z.ltb_lt in Hsize. rewrite Hsize.
  destruct (@read_chunks_healthy fuel file [] 0 Hb He Hf Hfuel)
    as (chunks' & f' & Hr & Hc & Hu & Heof & Herr & Hcl).
  rewrite Hr. exists f'. cbn [List.concat app] in Hc. cbn [Nat.add].
  rewrite <- Hc, copy_chunks_concat. now repeat split.
Qed.

(** X15. Reading a stream of unknown size: when the wrapper holds an
    open, healthy stream whose size [stat] did not give, [ReadFile]
    returns [true] and [*bytes] holds exactly the bytes the stream
    still had, whatever their number (none, fewer than one chunk of
    16384, or a multiple of it) and whatever [*bytes] held before; the
    stream is left at its end, not closed.  The loop needs one round
    more than there are full chunks. *)
Theorem ReadFile_unknown_size (fuel : nat) (f : FileWrapper) (file : FILE)
        (old : list Byte.byte) :
  file_ f = Some file -> (size_ f < 0)%Z ->
  broken file = false -> error_indicator file = false -> eof_indicator file = false ->
  List.length (unread file) / chunk_size < fuel ->
  exists file',
    ReadFile fuel f old
    = Some (true, unread file, mkFileWrapper (Some file') (close_on_delete_ f) (size_ f))
    /\ unread file' = [] /\ feof file' = true /\ closed file' = closed file.
Proof.
  apply ReadFile_chunked.
Qed.
Lemma read_chunks_broken (fuel : nat) :
  forall (f : FILE) (chunks : list (list Byte.byte)) (total_size : nat),
    broken f = true -> error_indicator f = false -> eof_indicator f = false ->
    List.length (unread f) / chunk_size < fuel ->
    exists chunks' total' f',
      read_chunks fuel f chunks total_size = Some (false, chunks', total', f')
      /\ unread f' = [] /\ ferror f' = true /\ closed f' = closed f.
Proof.
  pose proof chunk_size_pos as Hcs.
  induction fuel as [|fuel IH]; intros f chunks total Hb He Hf Hfuel; [lia|].
  rewrite read_chunks_S. cbv zeta. rewrite repeat_length.
  destruct (le_lt_dec chunk_size (List.length (unread f))) as [Hfull | Hshort].
  - rewrite fread_enough by exact Hfull. unfold ferror, feof.
    cbn [error_indicator eof_indicator]. rewrite He, Hf.
    assert (Hltb : (List.length (memcpy (repeat Byte.x00 chunk_size) 0
                                        (firstn chunk_size (unread f))) <? chunk_size)
                   = false).
    { apply Nat.ltb_ge. rewrite length_memcpy; rewrite ?repeat_length, ?length_firstn; lia. }
    rewrite Hltb. cbn [orb].
    set (f1 := mkFILE (skipn chunk_size (unread f)) (broken f) false false
                      (written f) (room f) (fclose_fails f) (closed f)).
    match goal with
    | |- context [read_chunks fuel f1 ?c ?t] =>
        destruct (IH f1 c t) as (chunks' & total' & f' & Hr & Hu & Herr & Hcl);
          try reflexivity
    end.
    + exact Hb.
    + cbn [unread f1]. rewrite length_skipn.
      assert (Hd : List.length (unread f) / chunk_size
                   = S ((List.length (unread f) - chunk_size) / chunk_size)).
      { replace (List.length (unread f))
          with ((List.length (unread f) - chunk_size) + 1 * chunk_size) at 1 by lia.
        rewrite Nat.div_add by lia. lia. }
      lia.
    + exists chunks', total', f'. rewrite Hr. now repeat split.
  - rewrite fread_short by exact Hshort. unfold ferror.
    cbn [error_indicator]. rewrite Hb. cbn [orb].
    eexists _, _, _. split; [reflexivity|]. now repeat split.
Qed.

(** X16. A read error on a stream of unknown size: when the stream
    reports an error before its end, [ReadFile] returns [false] and
    [*bytes] is left empty: the chunks read before the error are
    dropped, and so is what [*bytes] held before the call. *)
Theorem ReadFile_read_error (fuel : nat) (f : FileWrapper) (file : FILE)
        (old : list Byte.byte) :
  file_ f = Some file -> (size_ f < 0)%Z ->
  broken file = true -> error_indicator file = false -> eof_indicator file = false ->
  List.length (unread file) / chunk_size < fuel ->
  exists file',
    ReadFile fuel f old
    = Some (false, [], mkFileWrapper (Some file') (close_on_delete_ f) (size_ f))
    /\ ferror file' = true /\ closed file' = closed file.
Proof.
  intros Hfile Hsize Hb He Hf Hfuel. unfold ReadFile. rewrite Hfile.
  apply Z.ltb_lt in Hsize. rewrite Hsize.
  destruct (@read_chunks_broken fuel file [] 0 Hb He Hf Hfuel)
    as (chunks' & total' & f' & Hr & Hu & Herr & Hcl).
  rewrite Hr. exists f'. now repeat split.
Qed.

Lemma ReadFile_sized (fuel : nat) (f : FileWrapper) (file : FILE)
      (old : list Byte.byte) :
  file_ f = Some file -> (0 <= size_ f)%Z ->
  let n := Z.to_nat (size_ f) in
  exists bytes' file',
    ReadFile fuel f old
    = Some (n <=? List.length (unread file), bytes',
            mkFileWrapper (Some file') (close_on_delete_ f) (size_ f))
    /\ List.length bytes' = n
    /\ closed file' = closed file
    /\ (n <= List.length (unread file) ->
        bytes' = firstn n (unread file) /\ unread file' = skipn n (unread file))
    /\ (List.length (unread file) < n ->
        firstn (List.length (unread file)) bytes' = unread file).
Proof.
  intros Hfile Hsize n. unfold ReadFile. rewrite Hfile.
  assert (Hs : (size_ f <? 0)%Z = false) by (apply Z.ltb_ge; exact Hsize).
  rewrite Hs. fold n. rewrite length_resize.
  destruct (le_lt_dec n (List.length (unread file))) as [Hfull | Hshort].
  - rewrite fread_enough by exact Hfull. rewrite Nat.eqb_refl. cbn [negb].
    assert (Hleb : (n <=? List.length (unread file)) = true) by now apply Nat.leb_le.
    rewrite Hleb. eexists _, _. split; [reflexivity|].
    assert (Hl : List.length (firstn n (unread file)) = n) by (rewrite length_firstn; lia).
    assert (Hb : memcpy (resize old n) 0 (firstn n (unread file)) = firstn n (unread file)).
    { rewrite memcpy_0, Hl, skipn_all2 by (rewrite length_resize; lia).
      apply app_nil_r. }
    rewrite Hb. cbn [closed unread]. repeat split; auto; lia.
  - rewrite fread_short by exact Hshort.
    assert (Hne : (List.length (unread file) =? n) = false) by (apply Nat.eqb_neq; lia).
    rewrite Hne. cbn [negb].
    assert (Hleb : (n <=? List.length (unread file)) = false) by now apply Nat.leb_gt.
    rewrite Hleb. eexists _, _. split; [reflexivity|]. cbn [closed unread].
    repeat split; auto.
    + rewrite length_memcpy; rewrite length_resize; lia.
    + lia.
    + lia.
    + intros _. rewrite memcpy_0, firstn_app, Nat.sub_diag, firstn_O, app_nil_r.
      apply firstn_all.
Qed.

(** X17. Reading a file whose size [stat] gave as [n]: [ReadFile]
    makes one [fread] of [n] bytes and returns [true] exactly when the
    stream delivers that many.  Then [*bytes] is the first [n] bytes
    and whatever the stream holds beyond them stays unread, without an
    error; otherwise [*bytes] has been resized to [n] and starts with
    the bytes that could be read.  No loop is involved. *)
Theorem ReadFile_known_size (fuel : nat) (f : FileWrapper) (file : FILE)
        (old : list Byte.byte) :
  file_ f = Some file -> (0 <= size_ f)%Z ->
  let n := Z.to_nat (size_ f) in
  exists bytes' file',
    ReadFile fuel f old
    = Some (n <=? List.length (unread file), bytes',
            mkFileWrapper (Some file') (close_on_delete_ f) (size_ f))
    /\ List.length bytes' = n
    /\ closed file' = closed file
    /\ (n <= List.length (unread file) ->
        bytes' = firstn n (unread file) /\ unread file' = skipn n (unread file))
    /\ (List.length (unread file) < n ->
        firstn (List.length (unread file)) bytes' = unread file).
Proof.
  apply ReadFile_sized.
Qed.

Lemma FileWrapper_new_dash (env : Env) :
  FileWrapper_new env "-" "rb"
  = mkFileWrapper (Some (stdin env)) false
                  match stat env "-" with
                  | Some (is_file, st_size) => if is_file then st_size else (-1)%Z
                  | None => (-1)%Z
                  end.
Proof. reflexivity. Qed.

(** X18. [ReadFile("-", bytes)] reads standard input, but the
    constructor still asks [stat] about the path ["-"]: when a regular
    file of that name and of size [n] exists, exactly [n] bytes are
    taken from standard input, the call fails if standard input holds
    fewer, and what it holds beyond [n] bytes is left unread.
    Standard input is not closed and nothing is printed. *)
Theorem ReadFile_dash_sized (env : Env) (fuel : nat) (old : list Byte.byte) (n : Z) :
  stat env "-" = Some (true, n) -> (0 <= n)%Z ->
  exists bytes' file',
    ReadFile_filename env fuel "-" old
    = Some (Z.to_nat n <=? List.length (unread (stdin env)), bytes', [], Some file')
    /\ closed file' = closed (stdin env)
    /\ (Z.to_nat n <= List.length (unread (stdin env)) ->
        bytes' = firstn (Z.to_nat n) (unread (stdin env))
        /\ unread file' = skipn (Z.to_nat n) (unread (stdin env))).
Proof.
  intros Hstat Hn. unfold ReadFile_filename. rewrite FileWrapper_new_dash, Hstat.
  destruct (@ReadFile_sized fuel (mkFileWrapper (Some (stdin env)) false n)
                            (stdin env) old eq_refl Hn)
    as (bytes' & file' & Hr & Hl & Hc & Hfull & _).
  cbn [size_ close_on_delete_] in Hr, Hfull. rewrite Hr.
  exists bytes', file'. unfold FileWrapper_delete. cbn [file_ close_on_delete_].
  split; [reflexivity | split; [exact Hc | exact Hfull]].
Qed.

(** X19. [ReadFile("-", bytes)] when no regular file named ["-"]
    exists: all of a healthy standard input is read, in chunks, and
    standard input is left open. *)
Theorem ReadFile_dash_stdin (env : Env) (fuel : nat) (old : list Byte.byte) :
  (forall n, stat env "-" <> Some (true, n)) ->
  broken (stdin env) = false -> error_indicator (stdin env) = false ->
  eof_indicator (stdin env) = false ->
  List.length (unread (stdin env)) / chunk_size < fuel ->
  exists file',
    ReadFile_filename env fuel "-" old = Some (true, unread (stdin env), [], Some file')
    /\ closed file' = closed (stdin env).
Proof.
  intros Hstat Hb He Hf Hfuel. unfold ReadFile_filename. rewrite FileWrapper_new_dash.
  assert (Hsize : match stat env "-" with
                  | Some (is_file, st_size) => if is_file then st_size else (-1)%Z
                  | None => (-1)%Z
                  end = (-1)%Z).
  { destruct (stat env "-") as [[[] sz]|] eqn:Hs; try reflexivity.
    now destruct (Hstat sz). }
  rewrite Hsize.
  destruct (@ReadFile_chunked fuel (mkFileWrapper (Some (stdin env)) false (-1))
                              (stdin env) old eq_refl eq_refl Hb He Hf Hfuel)
    as (file' & Hr & Hu & Heof & Hc).
  cbn [size_ close_on_delete_] in Hr. rewrite Hr.
  exists file'. unfold FileWrapper_delete. cbn [file_ close_on_delete_].
  now split.
Qed.

Lemma FileWrapper_new_path (env : Env) (pathname mode : string) :
  pathname <> "-"%string ->
  FileWrapper_new env pathname mode
  = mkFileWrapper (fopen env pathname mode) true
                  match stat env pathname with
                  | Some (is_file, st_size) => if is_file then st_size else (-1)%Z
                  | None => (-1)%Z
                  end.
Proof.
  intros Hp. unfold FileWrapper_new. apply String.eqb_neq in Hp. now rewrite Hp.
Qed.

Lemma WriteFile_open (env : Env) (filename : string) (bytes : list Byte.byte)
      (stream : FILE) :
  filename <> "-"%string ->
  fopen env filename "wb" = Some stream ->
  let fits := match room stream with
              | None => true
              | Some r => List.length bytes <=? r
              end in
  exists stream',
    WriteFile env filename bytes
    = (fits,
       (if fits then []
        else [("Could not write to file" ++ LF ++ "Error: " ++ strerror_fwrite env)%string])
       ++ (if fclose_fails stream
           then [("Could not close file" ++ LF ++ "Error: " ++ strerror_fclose env)%string]
           else []),
       Some stream')
    /\ closed stream' = true
    /\ (fits = true -> written stream' = written stream ++ bytes).
Proof.
  intros Hname Hopen fits. unfold WriteFile.
  rewrite FileWrapper_new_path by exact Hname. cbn [file_ close_on_delete_ size_].
  rewrite Hopen. unfold fwrite.
  set (accepted := match room stream with
                   | None => List.length bytes
                   | Some r => Nat.min r (List.length bytes)
                   end).
  assert (Hacc : (accepted =? List.length bytes) = fits
                 /\ (fits = true -> accepted = List.length bytes)).
  { unfold accepted, fits. destruct (room stream) as [r|].
    - destruct (le_lt_dec (List.length bytes) r) as [Hle | Hgt].
      + rewrite Nat.min_r by lia. rewrite Nat.eqb_refl.
        split; [symmetry; now apply Nat.leb_le | reflexivity].
      + rewrite Nat.min_l by lia.
        assert (H1 : (r =? List.length bytes) = false) by (apply Nat.eqb_neq; lia).
        assert (H2 : (List.length bytes <=? r) = false) by (apply Nat.leb_gt; lia).
        rewrite H1, H2. split; [reflexivity | discriminate].
    - rewrite Nat.eqb_refl. now split. }
  destruct Hacc as [Hacc Hall]. rewrite Hacc.
  unfold FileWrapper_delete, fclose. cbn [file_ close_on_delete_ fclose_fails].
  destruct fits eqn:Hfits; cbn [negb app]; eexists; (split; [reflexivity|]);
    cbn [closed written]; split; try reflexivity.
  - intros _. rewrite Hall by reflexivity. now rewrite firstn_all.
  - discriminate.
Qed.

(** X20. [WriteFile] on a path other than ["-"] that [fopen] can
    open: the result is [true] exactly when the device accepts all the
    bytes, and then the stream has received them in order.  The
    stream is closed in either case.  A failing [fclose] does not show
    in the result: its message goes to stderr, after the message of a
    short write if there was one, and [WriteFile] still returns
    [true]. *)
Theorem WriteFile_result (env : Env) (filename : string) (bytes : list Byte.byte)
        (stream : FILE) :
  filename <> "-"%string ->
  fopen env filename "wb" = Some stream ->
  let fits := match room stream with
              | None => true
              | Some r => List.length bytes <=? r
              end in
  exists stream',
    WriteFile env filename bytes
    = (fits,
       (if fits then []
        else [("Could not write to file" ++ LF ++ "Error: " ++ strerror_fwrite env)%string])
       ++ (if fclose_fails stream
           then [("Could not close file" ++ LF ++ "Error: " ++ strerror_fclose env)%string]
           else []),
       Some stream')
    /\ closed stream' = true
    /\ (fits = true -> written stream' = written stream ++ bytes).
Proof.
  apply WriteFile_open.
Qed.

(** X21. What [WriteFile] wrote, [ReadFile] reads back: when
    [WriteFile] returned [true] for a path on a stream that started
    empty, and [fopen] and [stat] afterwards present the file with the
    content and the size the stream received, [ReadFile] on the same
    path returns [true] with the bytes that were written, whatever
    [*bytes] held before, and closes its stream. *)
Theorem WriteFile_ReadFile (env env' : Env) (fuel : nat) (filename : string)
        (bytes old : list Byte.byte) (ws ws' rs : FILE) (printed : list string) :
  filename <> "-"%string ->
  fopen env filename "wb" = Some ws -> written ws = [] ->
  WriteFile env filename bytes = (true, printed, Some ws') ->
  fopen env' filename "rb" = Some rs -> unread rs = written ws' ->
  stat env' filename = Some (true, Z.of_nat (List.length (written ws'))) ->
  exists printed' rs',
    ReadFile_filename env' fuel filename old = Some (true, bytes, printed', Some rs')
    /\ closed rs' = true.
Proof.
  intros Hname Hopen Hempty Hw Hopen' Hcontent Hstat.
  destruct (@WriteFile_open env filename bytes ws Hname Hopen) as (s & Hr & _ & Hwr).
  rewrite Hw in Hr. injection Hr as Hfits _ Hs. subst s.
  rewrite Hwr, Hempty in * by (symmetry; exact Hfits). cbn [app] in *.
  unfold ReadFile_filename. rewrite FileWrapper_new_path by exact Hname.
  rewrite Hopen', Hstat.
  destruct (@ReadFile_sized fuel
              (mkFileWrapper (Some rs) true (Z.of_nat (List.length bytes))) rs old
              eq_refl (Nat2Z.is_nonneg _))
    as (bytes' & file' & Hrd & Hl & Hc & Hfull & _).
  cbn [size_ close_on_delete_] in Hrd, Hfull. rewrite Nat2Z.id in Hrd, Hfull.
  rewrite Hcontent, Nat.leb_refl in Hrd. rewrite Hrd.
  destruct (Hfull (Nat.eq_le_incl _ _ (eq_sym (f_equal (@List.length _) Hcontent))))
    as [Hb _].
  rewrite Hcontent, firstn_all in Hb. subst bytes'.
  unfold FileWrapper_delete, fclose. cbn [file_ close_on_delete_].
  eexists _, _. split; [reflexivity | reflexivity].
Qed.
Lemma fwrite_all (data : list Byte.byte) (f : FILE) :
  let fits := match room f with
              | None => true
              | Some r => List.length data <=? r
              end in
  (fst (fwrite data f) =? List.length data) = fits
  /\ closed (snd (fwrite data f)) = closed f
  /\ (fits = true -> written (snd (fwrite data f)) = written f ++ data).
Proof.
  unfold fwrite. cbn [fst snd closed written].
  destruct (room f) as [r|].
  - destruct (le_lt_dec (List.length data) r) as [Hle | Hgt].
    + rewrite Nat.min_r by lia. rewrite Nat.eqb_refl.
      assert (H : (List.length data <=? r) = true) by now apply Nat.leb_le.
      rewrite H. repeat split. intros _. now rewrite firstn_all.
    + rewrite Nat.min_l by lia.
      assert (H1 : (r =? List.length data) = false) by (apply Nat.eqb_neq; lia).
      assert (H2 : (List.length data <=? r) = false) by (apply Nat.leb_gt; lia).
      rewrite H1, H2. repeat split. discriminate.
  - rewrite Nat.eqb_refl. repeat split. intros _. now rewrite firstn_all.
Qed.

(** X22. [WriteFile("-", bytes)] writes to standard output and never
    closes it: whatever [fopen] and [stat] would say about a path
    ["-"], the bytes go to [stdout], the result is [true] exactly when
    all of them are accepted, the only message it can print is the one
    of a short write, and [stdout] is left as open as it was. *)
Theorem WriteFile_dash (env : Env) (bytes : list Byte.byte) :
  let fits := match room (stdout env) with
              | None => true
              | Some r => List.length bytes <=? r
              end in
  exists stream',
    WriteFile env "-" bytes
    = (fits,
       if fits then []
       else [("Could not write to file" ++ LF ++ "Error: " ++ strerror_fwrite env)%string],
       Some stream')
    /\ closed stream' = closed (stdout env)
    /\ (fits = true -> written stream' = written (stdout env) ++ bytes).
Proof.
  intros fits. unfold WriteFile.
  change (file_ (FileWrapper_new env "-" "wb")) with (Some (stdout env)).
  change (close_on_delete_ (FileWrapper_new env "-" "wb")) with false.
  destruct (fwrite_all bytes (stdout env)) as (Hn & Hc & Hw). fold fits in Hn, Hw.
  destruct (fwrite bytes (stdout env)) as [n stream'] eqn:Hf.
  cbn [fst snd] in Hn, Hc, Hw. rewrite Hn.
  unfold FileWrapper_delete. cbn [file_ close_on_delete_].
  exists stream'. destruct fits; cbn [negb app]; repeat split; auto.
Qed.
End FileIOFacts.

(** ** Runs of the further properties *)

Lemma squared_difference_tiny :
  squared_difference (L := TestLib.lib) 1 1 (TestLib.planar 1 1 (1 / 1000000))
                     (TestLib.planar 1 1 0)
  = 1 / 1000000000000.
Proof.
  unfold squared_difference. cbn.
  change (Pos.to_nat 1) with 1%nat. cbn. field.
Qed.

Lemma ComputePSNR_above_identical_witness :
  9999 / 100
  < fst (ComputePSNR (L := TestLib.lib) (Some tt)
                     (TestLib.flat_image 1 1 3 (1 / 1000000))
                     (TestLib.flat_image 1 1 3 0) tt TestLib.w0).
Proof.
  apply (@ComputePSNR_above_identical TestLib.lib (Some tt)
           (TestLib.flat_image 1 1 3 (1 / 1000000)) (TestLib.flat_image 1 1 3 0) tt
           TestLib.w0 TestLib.converted tt
           (1 / 1000000000000, 1 / 1000000000000 / 10000000000, 0)).
  - reflexivity.
  - reflexivity.
  - reflexivity.
  - rewrite <- squared_difference_tiny.
    apply (@gray_sums TestLib.lib (Some tt) (TestLib.flat_image 1 1 3 (1 / 1000000))
             (TestLib.flat_image 1 1 3 0) tt zero3 TestLib.w0 TestLib.converted
             (TestLib.planar 1 1 (1 / 1000000)) (TestLib.planar 1 1 0)).
    + reflexivity.
    + intros y x k _ _ _. reflexivity.
  - intros j. cbn [TestLib.flat_image ppf_xsize ppf_ysize]. cbn [N.mul Pos.mul Z.of_N].
    destruct j as [|[|j]]; cbn [get3 fst snd]; lra.
  - exists 0%nat. cbn [get3 fst snd]. lra.
Defined.

Lemma ComputePSNR_empty_witness :
  ComputePSNR (L := TestLib.lib) (Some tt) (TestLib.flat_image 0 0 3 1)
              (TestLib.flat_image 0 0 3 0) tt TestLib.w0
  = (9999 / 100, TestLib.converted).
Proof.
  apply (@ComputePSNR_empty TestLib.lib (Some tt) (TestLib.flat_image 0 0 3 1)
           (TestLib.flat_image 0 0 3 0) tt TestLib.w0 TestLib.converted
           (TestLib.planar 0 0 1) (TestLib.planar 0 0 0)).
  - reflexivity.
  - reflexivity.
  - left. reflexivity.
  - reflexivity.
Defined.

Lemma usable_test_map (xs ys : N) (row : nat -> nat -> R) (p : R) :
  usable_map (L := TestLib.lib) (mkImageF xs ys row (Some tt)) p.
Proof.
  right. exists tt. split; [reflexivity | intros _; reflexivity].
Qed.

Lemma ComputeDistanceP_monotone_witness :
  exists sa sb,
    fst (ComputeDistanceP (L := TestLib.lib) (TestLib.constant_map 2 2 1) tt 2
                          TestLib.w0) = Ok sa
    /\ fst (ComputeDistanceP (L := TestLib.lib) (TestLib.constant_map 2 2 2) tt 2
                             TestLib.w0) = Ok sb
    /\ sa <= sb.
Proof.
  apply (@ComputeDistanceP_monotone TestLib.lib (TestLib.constant_map 2 2 1)
           (TestLib.constant_map 2 2 2) tt 2 TestLib.w0 TestLib.w0).
  - split; reflexivity.
  - reflexivity.
  - reflexivity.
  - apply usable_test_map.
  - apply usable_test_map.
  - intros y x _ _. cbn. lra.
  - intros y x _ _. cbn. lra.
  - lra.
Defined.

Lemma generic_calls_le {F : Type} {AF : Arith F} {L : Lib F}
      (inputs : list (ImageF F JxlMemoryManager * ButteraugliParams * F)) :
  (generic_calls inputs <= List.length inputs)%nat.
Proof. unfold generic_calls. apply filter_length_le. Qed.

Lemma ComputeDistanceP_warns_once_witness :
  let inputs := [(TestLib.row_1_2_0, tt, 2); (TestLib.row_1_2_0, tt, 3);
                 (TestLib.row_1_2_0, tt, 2)] in
  stderr (ComputeDistanceP_calls (L := TestLib.lib) inputs TestLib.w0)
  = [] ++ (if (generic_calls (L := TestLib.lib) inputs =? 0)%nat then []
           else ["WARNING: using slow ComputeDistanceP"%string])
  /\ once (ComputeDistanceP_calls (L := TestLib.lib) inputs TestLib.w0)
     = wrap_int (Z.of_nat (generic_calls (L := TestLib.lib) inputs)).
Proof.
  intros inputs.
  apply (@ComputeDistanceP_warns_once R R_arith TestLib.lib inputs TestLib.w0).
  - reflexivity.
  - pose proof (@generic_calls_le R R_arith TestLib.lib inputs) as H.
    change (List.length inputs) with 3%nat in H. lia.
Defined.


Lemma ReadFile_unknown_size_witness :
  exists file',
    FileIO.ReadFile 1 (FileIO.mkFileWrapper
                         (Some (TestData.input TestData.three_bytes false)) true (-1))
                    [Byte.xff]
    = Some (true, TestData.three_bytes, FileIO.mkFileWrapper (Some file') true (-1)%Z)
    /\ FileIO.unread file' = [] /\ FileIO.feof file' = true
    /\ FileIO.closed file' = false.
Proof.
  apply (@ReadFile_unknown_size 1
           (FileIO.mkFileWrapper (Some (TestData.input TestData.three_bytes false))
                                 true (-1))
           (TestData.input TestData.three_bytes false) [Byte.xff]).
  - reflexivity.
  - reflexivity.
  - reflexivity.
  - reflexivity.
  - reflexivity.
  - apply Nat.ltb_lt. vm_compute. reflexivity.
Defined.

Lemma ReadFile_read_error_witness :
  exists file',
    FileIO.ReadFile 1 (FileIO.mkFileWrapper
                         (Some (TestData.input TestData.three_bytes true)) true (-1))
                    [Byte.xff]
    = Some (false, [], FileIO.mkFileWrapper (Some file') true (-1)%Z)
    /\ FileIO.ferror file' = true /\ FileIO.closed file' = false.
Proof.
  apply (@ReadFile_read_error 1
           (FileIO.mkFileWrapper (Some (TestData.input TestData.three_bytes true))
                                 true (-1))
           (TestData.input TestData.three_bytes true) [Byte.xff]).
  - reflexivity.
  - reflexivity.
  - reflexivity.
  - reflexivity.
  - reflexivity.
  - apply Nat.ltb_lt. vm_compute. reflexivity.
Defined.

Lemma ReadFile_known_size_witness :
  exists bytes' file',
    FileIO.ReadFile 0 (FileIO.mkFileWrapper
                         (Some (TestData.input TestData.three_bytes false)) true 2)
                    [Byte.xff]
    = Some ((2 <=? 3)%nat, bytes', FileIO.mkFileWrapper (Some file') true 2%Z)
    /\ List.length bytes' = 2%nat
    /\ FileIO.closed file' = false
    /\ ((2 <= 3)%nat ->
        bytes' = [Byte.x01; Byte.x02] /\ FileIO.unread file' = [Byte.x03])
    /\ ((3 < 2)%nat -> firstn 3 bytes' = TestData.three_bytes).
Proof.
  apply (@ReadFile_known_size 0
           (FileIO.mkFileWrapper (Some (TestData.input TestData.three_bytes false))
                                 true 2)
           (TestData.input TestData.three_bytes false) [Byte.xff]).
  - reflexivity.
  - cbn. lia.
Defined.

Lemma ReadFile_dash_sized_witness :
  exists bytes' file',
    FileIO.ReadFile_filename
      (TestData.env_with None (Some (true, 2%Z))
                         (TestData.input TestData.three_bytes false))
      0 "-" [Byte.xff]
    = Some ((2 <=? 3)%nat, bytes', [], Some file')
    /\ FileIO.closed file' = false
    /\ ((2 <= 3)%nat ->
        bytes' = [Byte.x01; Byte.x02] /\ FileIO.unread file' = [Byte.x03]).
Proof.
  apply (@ReadFile_dash_sized
           (TestData.env_with None (Some (true, 2%Z))
                              (TestData.input TestData.three_bytes false))
           0 [Byte.xff] 2%Z).
  - reflexivity.
  - lia.
Defined.

Lemma ReadFile_dash_stdin_witness :
  exists file',
    FileIO.ReadFile_filename
      (TestData.env_with None None (TestData.input TestData.three_bytes false))
      1 "-" [Byte.xff]
    = Some (true, TestData.three_bytes, [], Some file')
    /\ FileIO.closed file' = false.
Proof.
  apply (@ReadFile_dash_stdin
           (TestData.env_with None None (TestData.input TestData.three_bytes false))
           1 [Byte.xff]).
  - intros n. discriminate.
  - reflexivity.
  - reflexivity.
  - reflexivity.
  - apply Nat.ltb_lt. vm_compute. reflexivity.
Defined.

Lemma WriteFile_result_witness :
  exists stream',
    FileIO.WriteFile
      (TestData.env_with (Some (TestData.output None true)) None
                         (TestData.input [] false))
      "out.bin" TestData.three_bytes
    = (true,
       [] ++ [("Could not close file" ++ LF ++ "Error: "
               ++ "Input/output error")%string],
       Some stream')
    /\ FileIO.closed stream' = true
    /\ (true = true -> FileIO.written stream' = [] ++ TestData.three_bytes).
Proof.
  apply (@WriteFile_result
           (TestData.env_with (Some (TestData.output None true)) None
                              (TestData.input [] false))
           "out.bin" TestData.three_bytes (TestData.output None true)).
  - discriminate.
  - reflexivity.
Defined.

Lemma WriteFile_ReadFile_witness :
  exists printed' rs',
    FileIO.ReadFile_filename
      (TestData.env_with (Some (TestData.input TestData.three_bytes false))
                         (Some (true, 3%Z)) (TestData.input [] false))
      0 "out.bin" [Byte.xff]
    = Some (true, TestData.three_bytes, printed', Some rs')
    /\ FileIO.closed rs' = true.
Proof.
  apply (@WriteFile_ReadFile
           (TestData.env_with (Some (TestData.output None false)) None
                              (TestData.input [] false))
           (TestData.env_with (Some (TestData.input TestData.three_bytes false))
                              (Some (true, 3%Z)) (TestData.input [] false))
           0 "out.bin" TestData.three_bytes [Byte.xff]
           (TestData.output None false)
           (FileIO.mkFILE [] false false false TestData.three_bytes None false true)
           (TestData.input TestData.three_bytes false) []).
  - discriminate.
  - reflexivity.
  - reflexivity.
  - reflexivity.
  - reflexivity.
  - reflexivity.
  - reflexivity.
Defined.
